(** * ParticleSolver: the host side of the GPU particle engine

    A shallow embedding of [gpu/src/particlesystem.cpp]: the particle
    store with its fixed capacity, the two insertion queues, the shape
    builders and the per-frame [update] that sequences the solver kernels.

    Conventions.
    - [uint] values are integers in [0, 2^32) and [uint] arithmetic wraps.
      [int] values live in [-2^31, 2^31); conversions to [int] and [int]
      sums wrap, which agrees with C++ on every execution without signed
      overflow.
    - [float] is IEEE 754 binary32, computed with the reference
      implementation of the standard library (precision 24, emax 128).
    - Where C++ leaves the behaviour undefined and no sensible value exists
      (a float that does not fit an [int], an array size that overflows or
      is negative, an array handed on with unwritten slots) the model
      returns [None].
    - The program is modelled as built without [TWOD]: with that macro
      [addHorizCloth] would use a variable [z] that is not declared.
    - The kernels, the device vectors and the constraint sets live behind
      [wrappers.cuh], which is not among the sources; the kernels are
      parameters of the model, and every call that leaves the translation
      unit is recorded in issue order. *)

From Stdlib Require Import ZArith List Lia Bool.
From Stdlib Require Import Floats.SpecFloat.
From stdpp Require Import base option list.
Import ListNotations.
Local Open Scope Z_scope.

Set Default Proof Using "Type".

(** ** Machine integers *)

Definition UINT_MOD : Z := 2 ^ 32.
Definition INT_MIN : Z := - 2 ^ 31.
Definition INT_MAX : Z := 2 ^ 31 - 1.

(** Conversion to [unsigned int]: reduction modulo 2^32. *)
Definition to_uint (z : Z) : Z := z mod UINT_MOD.

(** Conversion to [int]: the two's complement reading of the low 32 bits. *)
Definition to_int (z : Z) : Z := (z + 2 ^ 31) mod UINT_MOD - 2 ^ 31.

Definition in_int (z : Z) : bool := (INT_MIN <=? z) && (z <=? INT_MAX).

(** ** binary32 arithmetic *)

Module F32.

Definition prec : Z := 24.
Definition emax : Z := 128.

Definition float : Type := spec_float.

Definition add : float -> float -> float := SFadd prec emax.
Definition sub : float -> float -> float := SFsub prec emax.
Definition mul : float -> float -> float := SFmul prec emax.
Definition div : float -> float -> float := SFdiv prec emax.
Definition sqrt : float -> float := SFsqrt prec emax.
Definition ltb : float -> float -> bool := SFltb.
Definition leb : float -> float -> bool := SFleb.
Definition opp : float -> float := SFopp.

(** [(float)z] for an integer [z]: round to nearest, ties to even. *)
Definition of_Z (z : Z) : float := binary_normalize prec emax z 0 false.

(** A decimal literal [p / 10^k] written with an [f] suffix.  Both [p]
    and [10^k] must be exactly representable for the correctly rounded
    quotient to be the literal's value, which holds for all literals of
    the program. *)
Definition lit (p : Z) (k : Z) : float := div (of_Z p) (of_Z (10 ^ k)).

Definition is_finite (f : float) : bool :=
  match f with
  | S754_zero _ | S754_finite _ _ _ => true
  | S754_infinity _ | S754_nan => false
  end.

(** The integral part of a float, rounding toward zero; [None] for
    infinities and NaN. *)
Definition trunc (f : float) : option Z :=
  match f with
  | S754_zero _ => Some 0
  | S754_finite s m e =>
      let a := Z.shiftl (Zpos m) e in
      Some (if s then - a else a)
  | S754_infinity _ | S754_nan => None
  end.

(** [(int)f]: truncation; undefined when the result does not fit. *)
Definition to_int (f : float) : option Z :=
  z ← trunc f; if in_int z then Some z else None.

(** [std::min(a, b)] is [(b < a) ? b : a]. *)
Definition min (a b : float) : float := if ltb b a then b else a.

Definition zero : float := S754_zero false.
Definition one : float := Eval vm_compute in of_Z 1.
Definition two : float := Eval vm_compute in of_Z 2.
Definition neg_one : float := Eval vm_compute in of_Z (-1).
Definition c_0_05 : float := Eval vm_compute in lit 5 2.
Definition c_0_01 : float := Eval vm_compute in lit 1 2.
Definition c_2_5 : float := Eval vm_compute in lit 25 1.
Definition c_2_002 : float := Eval vm_compute in lit 2002 3.
Definition c_1_5 : float := Eval vm_compute in lit 15 1.
Definition c_0_5 : float := Eval vm_compute in lit 5 1.
Definition c_9_8 : float := Eval vm_compute in lit 98 1.

End F32.

Abbreviation float := F32.float.

Arguments to_uint : simpl never.
Arguments to_int : simpl never.
Arguments F32.add : simpl never.
Arguments F32.sub : simpl never.
Arguments F32.mul : simpl never.
Arguments F32.div : simpl never.
Arguments F32.sqrt : simpl never.
Arguments F32.of_Z : simpl never.
Arguments F32.to_int : simpl never.
Arguments F32.min : simpl never.

(** ** Vector types of the CUDA runtime *)

Record float2 := make_float2 { f2x : float; f2y : float }.
Record float3 := make_float3 { f3x : float; f3y : float; f3z : float }.
Record float4 := make_float4 { f4x : float; f4y : float; f4z : float; f4w : float }.
Record int2 := make_int2 { i2x : Z; i2y : Z }.
Record int3 := make_int3 { i3x : Z; i3y : Z; i3z : Z }.
Record uint2 := make_uint2 { u2x : Z; u2y : Z }.
Record uint3 := make_uint3 { u3x : Z; u3y : Z; u3z : Z }.

(** The overloads of [helper_math.h] the program uses. *)
Definition make_float3_s (s : float) : float3 := make_float3 s s s.
Definition make_float3_i (v : int3) : float3 :=
  make_float3 (F32.of_Z (i3x v)) (F32.of_Z (i3y v)) (F32.of_Z (i3z v)).
Definition make_float3_4 (v : float4) : float3 :=
  make_float3 (f4x v) (f4y v) (f4z v).
Definition make_float4_3 (v : float3) (w : float) : float4 :=
  make_float4 (f3x v) (f3y v) (f3z v) w.
Definition f3add (a b : float3) : float3 :=
  make_float3 (F32.add (f3x a) (f3x b)) (F32.add (f3y a) (f3y b))
              (F32.add (f3z a) (f3z b)).
Definition f3sub (a b : float3) : float3 :=
  make_float3 (F32.sub (f3x a) (f3x b)) (F32.sub (f3y a) (f3y b))
              (F32.sub (f3z a) (f3z b)).
(** [b * a] for a scalar [b]. *)
Definition f3scale (b : float) (a : float3) : float3 :=
  make_float3 (F32.mul b (f3x a)) (F32.mul b (f3y a)) (F32.mul b (f3z a)).
Definition dot (a b : float3) : float :=
  F32.add (F32.add (F32.mul (f3x a) (f3x b)) (F32.mul (f3y a) (f3y b)))
          (F32.mul (f3z a) (f3z b)).
Definition length3 (v : float3) : float := F32.sqrt (dot v v).

Definition zero4 : float4 := make_float4 F32.zero F32.zero F32.zero F32.zero.

(** ** Simulation parameters *)

Record SimParams := {
  p_gridSize : uint3;
  p_numCells : Z;
  p_numBodies : Z;
  p_particleRadius : float;
  p_worldOrigin : float3;
  p_cellSize : float3;
  p_gravity : float3;
  p_globalDamping : float
}.

(** ** The device side

    The kernels and the vectors they work on live behind [wrappers.cuh],
    which is not part of the sources at hand.  The host code only ever
    appends to those vectors and launches kernels on them. *)

Record DistanceConstraint := {
  dc_index : uint2;
  dc_dist : float
}.

Record PointConstraint := {
  pc_index : Z;
  pc_point : float3
}.

(** Scratch memory of the spatial hash grid, reserved by [allocateArray]. *)
Record GridTables := {
  dSortedPos : list float4;
  dSortedW : list float;
  dSortedPhase : list Z;
  dGridParticleHash : list Z;
  dGridParticleIndex : list Z;
  dCellStart : list Z;
  dCellEnd : list Z
}.

Record Device := {
  posVbo : list float4;       (* the GL buffer the renderer draws from *)
  d_vel : list float4;        (* integration vectors *)
  d_ro : list float;
  d_phase : list Z;           (* shared vectors *)
  d_W : list float;
  d_solver : Z;               (* number of slots of the solver vectors *)
  d_distance : list DistanceConstraint;
  d_point : list PointConstraint;
  d_grid : GridTables
}.

(** One launch of a wrapper of [wrappers.cuh], with the scalar arguments
    the host passes; the pointer arguments always name the same device
    arrays. *)
Inductive KernelCall :=
| SetParameters (p : SimParams)
| IntegrateSystem (deltaTime : float) (numParticles : Z)
| CalcHash (numParticles : Z)
| SortParticles (numParticles : Z)
| ReorderDataAndFindCellStart (numParticles numCells : Z)
| Collide (numParticles numCells : Z)
| SolveFluids (numParticles numCells : Z)
| CollideWorld (numParticles : Z) (minBounds maxBounds : int3)
| SolveDistanceConstraints
| SolvePointConstraints
| CalcVelocity (deltaTime : float) (numParticles : Z).

(** Every call that leaves the translation unit, in issue order. *)
Inductive Call :=
| Launch (k : KernelCall)
| MapGLBufferObject
| UnmapGLBufferObject
| UnregisterGLBufferObject
| RegisterGLBufferObject
| GLBufferSubData (offset size : Z)
| AppendIntegrationParticle (n : Z)
| AppendPhaseAndMass (n : Z)
| AppendSolverParticle (n : Z)
| AddPointConstraint (n : Z)
| AddDistanceConstraint (n : Z).

(** ** The engine *)

Record ParticleSystem := {
  m_initialized : bool;
  m_particleRadius : float;
  m_maxParticles : Z;
  m_numParticles : Z;
  m_gridSize : uint3;
  m_numGridCells : Z;
  m_gridSortBits : Z;
  m_rigidIndex : Z;
  m_minBounds : int3;
  m_maxBounds : int3;
  m_solverIterations : Z;
  m_params : SimParams;
  m_particlesToAdd : list float4;
  m_fluidsToAdd : list float4;
  m_colorIndex : list int2;
  m_colors : list float4;
  gpu : Device;               (* GL buffer and device vectors *)
  rand_calls : nat;           (* how often [rand()] has been called *)
  calls : list Call           (* the calls issued so far *)
}.

Definition set_numParticles (n : Z) (s : ParticleSystem) : ParticleSystem :=
  {| m_initialized := m_initialized s; m_particleRadius := m_particleRadius s;
     m_maxParticles := m_maxParticles s; m_numParticles := n;
     m_gridSize := m_gridSize s; m_numGridCells := m_numGridCells s;
     m_gridSortBits := m_gridSortBits s; m_rigidIndex := m_rigidIndex s;
     m_minBounds := m_minBounds s; m_maxBounds := m_maxBounds s;
     m_solverIterations := m_solverIterations s; m_params := m_params s;
     m_particlesToAdd := m_particlesToAdd s; m_fluidsToAdd := m_fluidsToAdd s;
     m_colorIndex := m_colorIndex s; m_colors := m_colors s;
     gpu := gpu s; rand_calls := rand_calls s; calls := calls s |}.

Definition set_rigidIndex (r : Z) (s : ParticleSystem) : ParticleSystem :=
  {| m_initialized := m_initialized s; m_particleRadius := m_particleRadius s;
     m_maxParticles := m_maxParticles s; m_numParticles := m_numParticles s;
     m_gridSize := m_gridSize s; m_numGridCells := m_numGridCells s;
     m_gridSortBits := m_gridSortBits s; m_rigidIndex := r;
     m_minBounds := m_minBounds s; m_maxBounds := m_maxBounds s;
     m_solverIterations := m_solverIterations s; m_params := m_params s;
     m_particlesToAdd := m_particlesToAdd s; m_fluidsToAdd := m_fluidsToAdd s;
     m_colorIndex := m_colorIndex s; m_colors := m_colors s;
     gpu := gpu s; rand_calls := rand_calls s; calls := calls s |}.

Definition set_particlesToAdd (q : list float4) (s : ParticleSystem) : ParticleSystem :=
  {| m_initialized := m_initialized s; m_particleRadius := m_particleRadius s;
     m_maxParticles := m_maxParticles s; m_numParticles := m_numParticles s;
     m_gridSize := m_gridSize s; m_numGridCells := m_numGridCells s;
     m_gridSortBits := m_gridSortBits s; m_rigidIndex := m_rigidIndex s;
     m_minBounds := m_minBounds s; m_maxBounds := m_maxBounds s;
     m_solverIterations := m_solverIterations s; m_params := m_params s;
     m_particlesToAdd := q; m_fluidsToAdd := m_fluidsToAdd s;
     m_colorIndex := m_colorIndex s; m_colors := m_colors s;
     gpu := gpu s; rand_calls := rand_calls s; calls := calls s |}.

Definition set_fluidsToAdd (q : list float4) (s : ParticleSystem) : ParticleSystem :=
  {| m_initialized := m_initialized s; m_particleRadius := m_particleRadius s;
     m_maxParticles := m_maxParticles s; m_numParticles := m_numParticles s;
     m_gridSize := m_gridSize s; m_numGridCells := m_numGridCells s;
     m_gridSortBits := m_gridSortBits s; m_rigidIndex := m_rigidIndex s;
     m_minBounds := m_minBounds s; m_maxBounds := m_maxBounds s;
     m_solverIterations := m_solverIterations s; m_params := m_params s;
     m_particlesToAdd := m_particlesToAdd s; m_fluidsToAdd := q;
     m_colorIndex := m_colorIndex s; m_colors := m_colors s;
     gpu := gpu s; rand_calls := rand_calls s; calls := calls s |}.

(** [m_colorIndex.push_back(range); m_colors.push_back(color)]. *)
Definition push_color (range : int2) (color : float4) (s : ParticleSystem) : ParticleSystem :=
  {| m_initialized := m_initialized s; m_particleRadius := m_particleRadius s;
     m_maxParticles := m_maxParticles s; m_numParticles := m_numParticles s;
     m_gridSize := m_gridSize s; m_numGridCells := m_numGridCells s;
     m_gridSortBits := m_gridSortBits s; m_rigidIndex := m_rigidIndex s;
     m_minBounds := m_minBounds s; m_maxBounds := m_maxBounds s;
     m_solverIterations := m_solverIterations s; m_params := m_params s;
     m_particlesToAdd := m_particlesToAdd s; m_fluidsToAdd := m_fluidsToAdd s;
     m_colorIndex := m_colorIndex s ++ [range]; m_colors := m_colors s ++ [color];
     gpu := gpu s; rand_calls := rand_calls s; calls := calls s |}.

Definition set_gpu (d : Device) (s : ParticleSystem) : ParticleSystem :=
  {| m_initialized := m_initialized s; m_particleRadius := m_particleRadius s;
     m_maxParticles := m_maxParticles s; m_numParticles := m_numParticles s;
     m_gridSize := m_gridSize s; m_numGridCells := m_numGridCells s;
     m_gridSortBits := m_gridSortBits s; m_rigidIndex := m_rigidIndex s;
     m_minBounds := m_minBounds s; m_maxBounds := m_maxBounds s;
     m_solverIterations := m_solverIterations s; m_params := m_params s;
     m_particlesToAdd := m_particlesToAdd s; m_fluidsToAdd := m_fluidsToAdd s;
     m_colorIndex := m_colorIndex s; m_colors := m_colors s;
     gpu := d; rand_calls := rand_calls s; calls := calls s |}.

Definition tick_rand (s : ParticleSystem) : ParticleSystem :=
  {| m_initialized := m_initialized s; m_particleRadius := m_particleRadius s;
     m_maxParticles := m_maxParticles s; m_numParticles := m_numParticles s;
     m_gridSize := m_gridSize s; m_numGridCells := m_numGridCells s;
     m_gridSortBits := m_gridSortBits s; m_rigidIndex := m_rigidIndex s;
     m_minBounds := m_minBounds s; m_maxBounds := m_maxBounds s;
     m_solverIterations := m_solverIterations s; m_params := m_params s;
     m_particlesToAdd := m_particlesToAdd s; m_fluidsToAdd := m_fluidsToAdd s;
     m_colorIndex := m_colorIndex s; m_colors := m_colors s;
     gpu := gpu s; rand_calls := S (rand_calls s); calls := calls s |}.

(** Record that call [c] was issued. *)
Definition issue (c : Call) (s : ParticleSystem) : ParticleSystem :=
  {| m_initialized := m_initialized s; m_particleRadius := m_particleRadius s;
     m_maxParticles := m_maxParticles s; m_numParticles := m_numParticles s;
     m_gridSize := m_gridSize s; m_numGridCells := m_numGridCells s;
     m_gridSortBits := m_gridSortBits s; m_rigidIndex := m_rigidIndex s;
     m_minBounds := m_minBounds s; m_maxBounds := m_maxBounds s;
     m_solverIterations := m_solverIterations s; m_params := m_params s;
     m_particlesToAdd := m_particlesToAdd s; m_fluidsToAdd := m_fluidsToAdd s;
     m_colorIndex := m_colorIndex s; m_colors := m_colors s;
     gpu := gpu s; rand_calls := rand_calls s; calls := calls s ++ [c] |}.

(** ** GL buffer and device vectors

    [glBufferSubData] belongs to OpenGL: it overwrites [size] bytes at byte
    [offset] of the bound buffer and rejects (without writing) a range that
    does not lie inside the buffer.  A particle position takes 16 bytes. *)

Definition buffer_write (offset size : Z) (data : list float4) (buf : list float4) : list float4 :=
  if (0 <=? offset) && (0 <=? size) && (offset + size <=? 16 * Z.of_nat (length buf)) then
    take (Z.to_nat (offset / 16)) buf
      ++ take (Z.to_nat (size / 16)) data
      ++ drop (Z.to_nat (offset / 16) + Z.to_nat (size / 16)) buf
  else buf.

Definition with_posVbo (f : list float4 -> list float4) (d : Device) : Device :=
  {| posVbo := f (posVbo d); d_vel := d_vel d; d_ro := d_ro d;
     d_phase := d_phase d; d_W := d_W d; d_solver := d_solver d;
     d_distance := d_distance d; d_point := d_point d; d_grid := d_grid d |}.

Definition glBufferSubData (offset size : Z) (data : list float4) (s : ParticleSystem) : ParticleSystem :=
  issue (GLBufferSubData offset size)
        (set_gpu (with_posVbo (buffer_write offset size data) (gpu s)) s).

(** Modelled from the spec: [appendIntegrationParticle(v, ro, n)] of the
    absent [wrappers.cuh] appends the velocity and rest density of [n] new
    particles to the particle store's attribute arrays. *)
Definition appendIntegrationParticle (v : list float4) (ro : list float) (n : Z) (s : ParticleSystem) : ParticleSystem :=
  let d := gpu s in
  issue (AppendIntegrationParticle n)
    (set_gpu {| posVbo := posVbo d;
                d_vel := d_vel d ++ take (Z.to_nat n) v;
                d_ro := d_ro d ++ take (Z.to_nat n) ro;
                d_phase := d_phase d; d_W := d_W d; d_solver := d_solver d;
                d_distance := d_distance d; d_point := d_point d;
                d_grid := d_grid d |} s).

(** Modelled from the spec: [appendPhaseAndMass(phase, w, n)] of the absent
    [wrappers.cuh] appends the phase tag and inverse mass of [n] new
    particles to the particle store's attribute arrays. *)
Definition appendPhaseAndMass (phase : list Z) (w : list float) (n : Z) (s : ParticleSystem) : ParticleSystem :=
  let d := gpu s in
  issue (AppendPhaseAndMass n)
    (set_gpu {| posVbo := posVbo d; d_vel := d_vel d; d_ro := d_ro d;
                d_phase := d_phase d ++ take (Z.to_nat n) phase;
                d_W := d_W d ++ take (Z.to_nat n) w;
                d_solver := d_solver d;
                d_distance := d_distance d; d_point := d_point d;
                d_grid := d_grid d |} s).

(** Modelled from the spec: [appendSolverParticle(n)] of the absent
    [wrappers.cuh] grows the solver's per-particle vectors by [n] slots. *)
Definition appendSolverParticle (n : Z) (s : ParticleSystem) : ParticleSystem :=
  let d := gpu s in
  issue (AppendSolverParticle n)
    (set_gpu {| posVbo := posVbo d; d_vel := d_vel d; d_ro := d_ro d;
                d_phase := d_phase d; d_W := d_W d;
                d_solver := d_solver d + n;
                d_distance := d_distance d; d_point := d_point d;
                d_grid := d_grid d |} s).

(** Modelled from the spec: [addPointConstraint(index, point, n)] of the
    absent [wrappers.cuh] appends [n] point constraints, each a particle
    index with the world position it is pinned to; the set is append-only. *)
Definition addPointConstraint (index : list Z) (point : list float3) (n : Z) (s : ParticleSystem) : ParticleSystem :=
  let d := gpu s in
  issue (AddPointConstraint n)
    (set_gpu {| posVbo := posVbo d; d_vel := d_vel d; d_ro := d_ro d;
                d_phase := d_phase d; d_W := d_W d; d_solver := d_solver d;
                d_distance := d_distance d;
                d_point := d_point d
                  ++ take (Z.to_nat n) (zip_with Build_PointConstraint index point);
                d_grid := d_grid d |} s).

(** Modelled from the spec: [addDistanceConstraint(index, distance, n)] of
    the absent [wrappers.cuh] appends [n] distance constraints, each a pair
    of particle indices with its rest length; the set is append-only. *)
Definition addDistanceConstraint (index : list uint2) (distance : list float) (n : Z) (s : ParticleSystem) : ParticleSystem :=
  let d := gpu s in
  issue (AddDistanceConstraint n)
    (set_gpu {| posVbo := posVbo d; d_vel := d_vel d; d_ro := d_ro d;
                d_phase := d_phase d; d_W := d_W d; d_solver := d_solver d;
                d_distance := d_distance d
                  ++ take (Z.to_nat n) (zip_with Build_DistanceConstraint index distance);
                d_point := d_point d;
                d_grid := d_grid d |} s).

(** Modelled from the spec: [initIntegration()] and the start-up of the
    solver and shared vectors leave every device vector empty; the grid
    tables get the sizes [_init] asks [allocateArray] for, and the position
    buffer the byte size handed to [createVBO].  Their initial contents are
    unspecified and stand as zeros. *)
Definition device_init (vboBytes maxParticles numGridCells : Z) : Device :=
  {| posVbo := replicate (Z.to_nat (vboBytes / 16)) zero4;
     d_vel := []; d_ro := []; d_phase := []; d_W := [];
     d_solver := 0; d_distance := []; d_point := [];
     d_grid :=
       {| dSortedPos := replicate (Z.to_nat maxParticles) zero4;
          dSortedW := replicate (Z.to_nat maxParticles) F32.zero;
          dSortedPhase := replicate (Z.to_nat maxParticles) 0;
          dGridParticleHash := replicate (Z.to_nat maxParticles) 0;
          dGridParticleIndex := replicate (Z.to_nat maxParticles) 0;
          dCellStart := replicate (Z.to_nat numGridCells) 0;
          dCellEnd := replicate (Z.to_nat numGridCells) 0 |} |}.

(** [for (int i = lo; ...; i++) body], run [n] times from [i = lo]. *)
Fixpoint for_loop {A : Type} (n : nat) (i : Z) (body : Z -> A -> A) (a : A) : A :=
  match n with
  | O => a
  | S n' => for_loop n' (i + 1) body (body i a)
  end.

(** [(int)ceil(n)] for an [int] argument: the conversion to [double] is
    exact and the ceiling of an integral value is that value. *)
Definition int_ceil (n : Z) : Z := n.

(** ** The engine's operations *)

Section Engine.

(** Phase tags, defined in a header that is not at hand. *)
Variables SOLID FLUID RIGID : Z.

(** The palette [colors] with its size [numColors], from the same header. *)
Variable numColors : Z.
Variable colors : Z -> float3.

(** The C library's generator: [rand_seq k] is what the [k]-th call of
    [rand()] returns. *)
Variable RAND_MAX : Z.
Variable rand_seq : nat -> Z.

(** What a launch does to the device memory. *)
Variable kernel : KernelCall -> Device -> Device.

Definition rand (s : ParticleSystem) : Z * ParticleSystem :=
  (rand_seq (rand_calls s), tick_rand s).

Definition frand (s : ParticleSystem) : float * ParticleSystem :=
  let '(r, s) := rand s in
  (F32.div (F32.of_Z r) (F32.of_Z RAND_MAX), s).

(** [colors[rand() % numColors]]. *)
Definition random_color (s : ParticleSystem) : float3 * ParticleSystem :=
  let '(r, s) := rand s in (colors (Z.rem r numColors), s).

Definition launch (k : KernelCall) (s : ParticleSystem) : ParticleSystem :=
  issue (Launch k) (set_gpu (kernel k (gpu s)) s).

Definition _init (numParticles maxParticles : Z) (s : ParticleSystem) : ParticleSystem :=
  let vboBytes := to_uint (4 * 4 * maxParticles) in
  let s :=
    {| m_initialized := true; m_particleRadius := m_particleRadius s;
       m_maxParticles := maxParticles; m_numParticles := numParticles;
       m_gridSize := m_gridSize s; m_numGridCells := m_numGridCells s;
       m_gridSortBits := m_gridSortBits s; m_rigidIndex := m_rigidIndex s;
       m_minBounds := m_minBounds s; m_maxBounds := m_maxBounds s;
       m_solverIterations := m_solverIterations s; m_params := m_params s;
       m_particlesToAdd := m_particlesToAdd s; m_fluidsToAdd := m_fluidsToAdd s;
       m_colorIndex := m_colorIndex s; m_colors := m_colors s;
       gpu := device_init vboBytes maxParticles (m_numGridCells s);
       rand_calls := rand_calls s; calls := calls s |} in
  let s := issue RegisterGLBufferObject s in
  launch (SetParameters (m_params s)) s.

Definition ParticleSystem_new (particleRadius : float) (gridSize : uint3)
    (maxParticles : Z) (minBounds maxBounds : int3) (iterations : Z) : ParticleSystem :=
  let numGridCells := to_uint (to_uint (u3x gridSize * u3y gridSize) * u3z gridSize) in
  let cellSize := F32.mul particleRadius F32.two in
  _init 0 maxParticles
    {| m_initialized := false; m_particleRadius := particleRadius;
       m_maxParticles := maxParticles; m_numParticles := 0;
       m_gridSize := gridSize; m_numGridCells := numGridCells;
       m_gridSortBits := 18; m_rigidIndex := 0;
       m_minBounds := minBounds; m_maxBounds := maxBounds;
       m_solverIterations := iterations;
       m_params :=
         {| p_gridSize := gridSize; p_numCells := numGridCells;
            p_numBodies := 0; p_particleRadius := particleRadius;
            p_worldOrigin := make_float3 F32.zero F32.zero F32.zero;
            p_cellSize := make_float3_s cellSize;
            p_gravity := make_float3 F32.zero (F32.opp F32.c_9_8) F32.zero;
            p_globalDamping := F32.one |};
       m_particlesToAdd := []; m_fluidsToAdd := [];
       m_colorIndex := []; m_colors := [];
       gpu := device_init 0 0 0; rand_calls := O; calls := [] |}.

(** *** Admission *)

Definition addParticle (pos vel : float4) (mass ro : float) (phase : Z)
    (s : ParticleSystem) : ParticleSystem :=
  if m_numParticles s =? m_maxParticles s then s
  else
    let s := issue UnregisterGLBufferObject s in
    let s := glBufferSubData (to_uint (m_numParticles s * 4) * 4) (4 * 4) [pos] s in
    let s := issue RegisterGLBufferObject s in
    let w := F32.div F32.one mass in
    let s := appendIntegrationParticle [vel] [ro] 1 s in
    let s := appendPhaseAndMass [phase] [w] 1 s in
    let s := appendSolverParticle 1 s in
    set_numParticles (to_uint (m_numParticles s + 1)) s.

Definition addParticleMultiple (pos vel : list float4) (mass ro : list float)
    (phase : list Z) (numParticles : Z) (s : ParticleSystem) : ParticleSystem :=
  if m_maxParticles s <=? to_uint (m_numParticles s + numParticles) then s
  else
    let s := issue UnregisterGLBufferObject s in
    let s := glBufferSubData (to_uint (m_numParticles s * 4) * 4)
                             (to_int (numParticles * 4) * 4) pos s in
    let s := issue RegisterGLBufferObject s in
    let s := appendIntegrationParticle vel ro numParticles s in
    let s := appendPhaseAndMass phase mass numParticles s in
    let s := appendSolverParticle numParticles s in
    set_numParticles (to_uint (m_numParticles s + numParticles)) s.

(** *** The insertion queues *)

(** The loop of [addParticles]; each round pops a position and a
    velocity-with-mass.  The queue holds at least [2 * size] entries, so
    [front()] never meets an empty queue. *)
Fixpoint addParticles_loop (size : nat) (s : ParticleSystem) : ParticleSystem :=
  match size with
  | O => s
  | S size' =>
      match m_particlesToAdd s with
      | pos :: vel :: rest =>
          let s := set_particlesToAdd rest s in
          addParticles_loop size'
            (addParticle pos (make_float4 (f4x vel) (f4y vel) (f4z vel) F32.zero)
                         (f4w vel) F32.c_1_5 SOLID s)
      | _ => s
      end
  end.

Definition addParticles (s : ParticleSystem) : ParticleSystem :=
  match m_particlesToAdd s with
  | [] => s
  | _ =>
      let size := to_uint (Z.of_nat (length (m_particlesToAdd s)) / 2) in
      addParticles_loop (Z.to_nat size) s
  end.

(** The loop of [addFluids]; [color] is the local that survives the
    loop. *)
Fixpoint addFluids_loop (size : nat) (color : float4) (s : ParticleSystem)
    : float4 * ParticleSystem :=
  match size with
  | O => (color, s)
  | S size' =>
      match m_fluidsToAdd s with
      | pos :: color' :: rest =>
          let s := set_fluidsToAdd rest s in
          addFluids_loop size' color'
            (addParticle (make_float4_3 (make_float3_4 pos) F32.one)
                         (make_float4 F32.zero F32.neg_one F32.zero F32.zero)
                         (f4w pos) (f4w color') FLUID s)
      | _ => (color, s)
      end
  end.

(** [color] is declared without initialiser; it is assigned in the first
    round, which always runs because the queue is filled in pairs. *)
Definition addFluids (s : ParticleSystem) : ParticleSystem :=
  match m_fluidsToAdd s with
  | [] => s
  | _ =>
      let start := m_numParticles s in
      let size := to_uint (Z.of_nat (length (m_fluidsToAdd s)) / 2) in
      let '(color, s) := addFluids_loop (Z.to_nat size) zero4 s in
      push_color (make_int2 (to_int start) (to_int (m_numParticles s)))
                 (make_float4_3 (make_float3_4 color) F32.one) s
  end.

Definition addNewStuff (s : ParticleSystem) : ParticleSystem :=
  addFluids (addParticles s).

(** [v + (frand() * 2.0f - 1.0f) * jitter]. *)
Definition jittered (v jitter : float) (s : ParticleSystem) : float * ParticleSystem :=
  let '(r, s) := frand s in
  (F32.add v (F32.mul (F32.sub (F32.mul r F32.two) F32.one) jitter), s).

Definition setParticleToAdd (pos vel : float3) (mass : float)
    (s : ParticleSystem) : ParticleSystem :=
  let jitter := F32.mul (m_particleRadius s) F32.c_0_01 in
  let '(px, s) := jittered (f3x pos) jitter s in
  let '(py, s) := jittered (f3y pos) jitter s in
  let pos := make_float3 px py (f3z pos) in
  let s := set_particlesToAdd
             (m_particlesToAdd s ++ [make_float4_3 pos F32.one; make_float4_3 vel mass]) s in
  let range := make_int2 (to_int (m_numParticles s))
                         (to_int (to_uint (m_numParticles s + 1))) in
  let '(c, s) := random_color s in
  push_color range (make_float4_3 c F32.one) s.

Definition setFluidToAdd (pos color : float3) (mass density : float)
    (s : ParticleSystem) : ParticleSystem :=
  set_fluidsToAdd
    (m_fluidsToAdd s ++ [make_float4_3 pos mass; make_float4_3 color density]) s.

(** *** Shape builders *)

(** The particle count along one axis, as [addFluid], [addParticleGrid],
    [addHorizCloth] and [addStaticSphere] write it:
    [(int)ceil(ur.x - ll.x) / distance], stored into an [int].  The cast
    binds tighter than the division, so the quotient is a [float] that
    the conversion to [int] truncates. *)
Definition axis_count (lo hi : Z) (distance : float) : option Z :=
  F32.to_int (F32.div (F32.of_Z (int_ceil (to_int (hi - lo)))) distance).

Definition make_count3 (ll ur : int3) (distance : float) : option int3 :=
  cx ← axis_count (i3x ll) (i3x ur) distance;
  cy ← axis_count (i3y ll) (i3y ur) distance;
  cz ← axis_count (i3z ll) (i3z ur) distance;
  Some (make_int3 cx cy cz).

(** [int arraySize = count.x * count.y * count.z] must not overflow. *)
Definition usable_count3 (count : int3) : bool :=
  in_int (i3x count * i3y count) && in_int (i3x count * i3y count * i3z count).

(** A builder's [pos] array has [arraySize] slots.  The behaviour is
    defined only if that size is not negative and the loop nest wrote
    every slot: a loop whose bound is not positive does not run. *)
Definition array_filled {A : Type} (arraySize : Z) (written : list A) : bool :=
  (0 <=? arraySize) && (Z.of_nat (length written) =? arraySize).

(** [ll + k * distance] for integers [ll] and [k]. *)
Definition lattice_coord (ll k : Z) (distance : float) : float :=
  F32.add (F32.of_Z ll) (F32.mul (F32.of_Z k) distance).

(** The body of the loop nest that [addFluid] and [addParticleGrid]
    share word for word: it writes [pos[index]] and advances [index]. *)
Definition lattice_body (ll : int3) (distance jitter : float) (z y x : Z)
    (acc : list float4 * ParticleSystem) : list float4 * ParticleSystem :=
  let '(pos, s) := acc in
  let '(px, s) := jittered (lattice_coord (i3x ll) x distance) jitter s in
  let '(py, s) := jittered (lattice_coord (i3y ll) y distance) jitter s in
  let '(pz, s) := jittered (lattice_coord (i3z ll) z distance) jitter s in
  (pos ++ [make_float4 px py pz F32.one], s).

Definition lattice_fill (ll count : int3) (distance jitter : float)
    (s : ParticleSystem) : list float4 * ParticleSystem :=
  for_loop (Z.to_nat (i3z count)) 0 (fun z =>
    for_loop (Z.to_nat (i3y count)) 0 (fun y =>
      for_loop (Z.to_nat (i3x count)) 0 (fun x =>
        lattice_body ll distance jitter z y x)))
    ([], s).

Definition addFluid (ll ur : int3) (mass density : float) (color : float3)
    (s : ParticleSystem) : option ParticleSystem :=
  let start := to_int (m_numParticles s) in
  let jitter := F32.mul (m_particleRadius s) F32.c_0_01 in
  let distance := F32.mul (m_particleRadius s) F32.c_2_5 in
  count ← make_count3 ll ur distance;
  let arraySize := i3x count * i3y count * i3z count in
  let '(pos, s) := lattice_fill ll count distance jitter s in
  if negb (usable_count3 count && array_filled arraySize pos) then None
  else
    let n := Z.to_nat arraySize in
    let vel := replicate n zero4 in
    let w := replicate n (F32.div F32.one mass) in
    let ro := replicate n density in
    let phase := replicate n FLUID in
    let s := addParticleMultiple pos vel w ro phase arraySize s in
    Some (push_color (make_int2 start (to_int (m_numParticles s)))
                     (make_float4_3 color F32.one) s).

Definition addParticleGrid (ll ur : int3) (mass : float) (addJitter : bool)
    (s : ParticleSystem) : option ParticleSystem :=
  let start := to_int (m_numParticles s) in
  let jitter := if addJitter then F32.mul (m_particleRadius s) F32.c_0_01
                else F32.zero in
  let distance := F32.mul (m_particleRadius s) F32.c_2_002 in
  count ← make_count3 ll ur distance;
  let arraySize := i3x count * i3y count * i3z count in
  let '(pos, s) := lattice_fill ll count distance jitter s in
  if negb (usable_count3 count && array_filled arraySize pos) then None
  else
    let n := Z.to_nat arraySize in
    let vel := replicate n zero4 in
    let w := replicate n (F32.div F32.one mass) in
    let ro := replicate n F32.one in
    let phase := replicate n SOLID in
    let s := addParticleMultiple pos vel w ro phase arraySize s in
    let '(c, s) := random_color s in
    Some (push_color (make_int2 start (to_int (m_numParticles s)))
                     (make_float4_3 c F32.one) s).

(** The arrays [addHorizCloth] fills in its loop nest. *)
Record ClothArrays := {
  c_pos : list float4;
  c_indicesP : list Z;
  c_points : list float3;
  c_indicesD : list uint2;
  c_dists : list float
}.

Definition cloth_pin (particleIndex : Z) (p : float4) (a : ClothArrays) : ClothArrays :=
  {| c_pos := c_pos a;
     c_indicesP := c_indicesP a ++ [particleIndex];
     c_points := c_points a ++ [make_float3_4 p];
     c_indicesD := c_indicesD a; c_dists := c_dists a |}.

Definition cloth_link (i j : Z) (d : float) (a : ClothArrays) : ClothArrays :=
  {| c_pos := c_pos a; c_indicesP := c_indicesP a; c_points := c_points a;
     c_indicesD := c_indicesD a ++ [make_uint2 i j];
     c_dists := c_dists a ++ [d] |}.

Definition cloth_body (start : Z) (ll : int2) (count : int2) (spacing : float3)
    (dist : float2) (holdEdges : bool) (z x : Z) (a : ClothArrays) : ClothArrays :=
  let p := make_float4 (lattice_coord (i2x ll) x (f3x spacing))
                       (f3y spacing)
                       (lattice_coord (i2y ll) z (f3z spacing))
                       F32.one in
  let a := {| c_pos := c_pos a ++ [p]; c_indicesP := c_indicesP a;
              c_points := c_points a; c_indicesD := c_indicesD a;
              c_dists := c_dists a |} in
  let particleIndex := to_uint (start + z * i2x count + x) in
  let a := if 0 <? x
           then cloth_link (to_uint (particleIndex - 1)) particleIndex (f2x dist) a
           else cloth_pin particleIndex p a in
  let a := if 0 <? z
           then cloth_link (to_uint (particleIndex - i2x count)) particleIndex (f2y dist) a
           else if holdEdges then cloth_pin particleIndex p a else a in
  let a := if (x =? i2x count - 1) && holdEdges
           then cloth_pin particleIndex p a else a in
  let a := if (z =? i2y count - 1) && holdEdges
           then cloth_pin particleIndex p a else a in
  a.

Definition addHorizCloth (ll ur : int2) (spacing : float3) (dist : float2)
    (mass : float) (holdEdges : bool) (s : ParticleSystem) : option ParticleSystem :=
  let start := to_int (m_numParticles s) in
  cx ← axis_count (i2x ll) (i2x ur) (f3x spacing);
  cy ← axis_count (i2y ll) (i2y ur) (f3z spacing);
  let count := make_int2 cx cy in
  let arraySize := cx * cy in
  let numDists := to_uint ((cx - 1) * (cy - 1) + cx * cy - 1) in
  let numPoints := to_uint (if holdEdges then 2 * (cx + cy) else cy) in
  let a := for_loop (Z.to_nat cy) 0 (fun z =>
             for_loop (Z.to_nat cx) 0 (fun x =>
               cloth_body start ll count spacing dist holdEdges z x))
             {| c_pos := []; c_indicesP := []; c_points := [];
                c_indicesD := []; c_dists := [] |} in
  (* the arrays have exactly the declared sizes: nothing is written past
     their end and nothing is handed on unwritten *)
  if negb (in_int arraySize && array_filled arraySize (c_pos a)
           && array_filled numDists (c_dists a)
           && array_filled numPoints (c_indicesP a)) then None
  else
    let n := Z.to_nat arraySize in
    let vel := replicate n zero4 in
    let w := replicate n (F32.div F32.one mass) in
    let ro := replicate n F32.one in
    let phase := replicate n (to_int (RIGID + m_rigidIndex s)) in
    let s := addParticleMultiple (c_pos a) vel w ro phase arraySize s in
    let s := addPointConstraint (c_indicesP a) (c_points a) numPoints s in
    let s := addDistanceConstraint (c_indicesD a) (c_dists a) numDists s in
    let '(c, s) := random_color s in
    let s := push_color (make_int2 start (to_int (m_numParticles s)))
                        (make_float4_3 c F32.one) s in
    Some (set_rigidIndex (to_int (m_rigidIndex s + 1)) s).

(** The arrays [addRope] fills: [pos], [indicesD] and [dists].  The loop
    writes slot [i] of [pos] in round [i], so each write extends the
    filled prefix by one. *)
Definition rope_body (startI : Z) (start spacing : float3) (dist : float) (i : Z)
    (a : list float4 * list uint2 * list float) : list float4 * list uint2 * list float :=
  let '(pos, indicesD, dists) := a in
  let pos4 := make_float4_3 (f3add start (f3scale (F32.of_Z i) spacing)) F32.one in
  (pos ++ [pos4],
   indicesD ++ [make_uint2 (to_uint (startI + i - 1)) (to_uint (startI + i))],
   dists ++ [dist]).

Definition addRope (start spacing : float3) (dist : float) (numLinks : Z)
    (mass : float) (constrainStart : bool) (s : ParticleSystem) : option ParticleSystem :=
  let startI := m_numParticles s in
  let arraySize := numLinks + 1 in
  if negb ((0 <=? numLinks) && in_int arraySize) then None
  else
    let n := Z.to_nat arraySize in
    let '(pos, indicesD, dists) :=
      for_loop (Z.to_nat numLinks) 1 (rope_body startI start spacing dist)
               ([make_float4_3 start F32.one], [], []) in
    let vel := replicate n zero4 in
    let w := replicate n (F32.div F32.one mass) in
    let ro := replicate n F32.one in
    let phase := replicate n (to_int (RIGID + m_rigidIndex s)) in
    let s := addParticleMultiple pos vel w ro phase arraySize s in
    let s := addDistanceConstraint indicesD dists numLinks s in
    let s := if constrainStart then addPointConstraint [startI] [start] 1 s else s in
    let '(c, s) := random_color s in
    let s := push_color (make_int2 (to_int startI) (to_int (m_numParticles s)))
                        (make_float4_3 c F32.one) s in
    Some (set_rigidIndex (to_int (m_rigidIndex s + 1)) s).

(** The vectors [addStaticSphere] grows: [posV], [indices] and [points];
    [index] is the size of [indices]. *)
Definition sphere_body (startI : Z) (ll : int3) (spacing radius : float)
    (center : float3) (z y x : Z)
    (a : list float4 * list Z * list float3) : list float4 * list Z * list float3 :=
  let '(posV, indices, points) := a in
  let pos := make_float4 (lattice_coord (i3x ll) x spacing)
                         (lattice_coord (i3y ll) y spacing)
                         (lattice_coord (i3z ll) z spacing)
                         F32.one in
  if F32.ltb (length3 (f3sub (make_float3_4 pos) center)) radius
  then (posV ++ [pos],
        indices ++ [to_uint (startI + to_uint (Z.of_nat (length indices)))],
        points ++ [make_float3_4 pos])
  else a.

Definition addStaticSphere (ll ur : int3) (spacing : float)
    (s : ParticleSystem) : option ParticleSystem :=
  let startI := m_numParticles s in
  count ← make_count3 ll ur spacing;
  let radius := F32.mul (F32.of_Z (to_int (i3x ur - i3x ll))) F32.c_0_5 in
  let center := f3add (make_float3_i ll) (make_float3_s radius) in
  let '(posV, indices, points) :=
    for_loop (Z.to_nat (i3z count)) 0 (fun z =>
      for_loop (Z.to_nat (i3y count)) 0 (fun y =>
        for_loop (Z.to_nat (i3x count)) 0 (fun x =>
          sphere_body startI ll spacing radius center z y x)))
      ([], [], []) in
  let arraySize := to_int (Z.of_nat (length indices)) in
  if negb (0 <=? arraySize) then None
  else
    let n := Z.to_nat arraySize in
    let vel := replicate n zero4 in
    let w := replicate n F32.c_0_01 in
    let ro := replicate n F32.one in
    let phase := replicate n (to_int (RIGID + m_rigidIndex s)) in
    let s := addParticleMultiple posV vel w ro phase arraySize s in
    let s := addPointConstraint indices points (Z.of_nat (length indices)) s in
    let '(c, s) := random_color s in
    let s := push_color (make_int2 (to_int startI) (to_int (m_numParticles s)))
                        (make_float4_3 c F32.one) s in
    Some (set_rigidIndex (to_int (m_rigidIndex s + 1)) s).

Definition makePointConstraint (index : Z) (point : float3)
    (s : ParticleSystem) : ParticleSystem :=
  addPointConstraint [index] [point] 1 s.

Definition makeDistanceConstraint (index : uint2) (distance : float)
    (s : ParticleSystem) : ParticleSystem :=
  addDistanceConstraint [index] [distance] 1 s.

Definition setArray (isPosArray : bool) (data : list float4) (start count : Z)
    (s : ParticleSystem) : option ParticleSystem :=
  if negb (m_initialized s) then None
  else if isPosArray then
    let s := issue UnregisterGLBufferObject s in
    let s := glBufferSubData (to_int (start * 4) * 4) (to_int (count * 4) * 4) data s in
    Some (issue RegisterGLBufferObject s)
  else Some s.

(** *** One simulation step *)

(** The body of the constraint loop of [update]. *)
Definition solver_iteration (s : ParticleSystem) : ParticleSystem :=
  let s := launch (CalcHash (m_numParticles s)) s in
  let s := launch (SortParticles (m_numParticles s)) s in
  let s := launch (ReorderDataAndFindCellStart (m_numParticles s) (m_numGridCells s)) s in
  let s := launch (Collide (m_numParticles s) (m_numGridCells s)) s in
  let s := launch (SolveFluids (m_numParticles s) (m_numGridCells s)) s in
  let s := launch (CollideWorld (m_numParticles s) (m_minBounds s) (m_maxBounds s)) s in
  let s := launch SolveDistanceConstraints s in
  launch SolvePointConstraints s.

(** [assert(m_initialized)] aborts the step of an engine that is not set
    up: [None]. *)
Definition update (deltaTime : float) (s : ParticleSystem) : option ParticleSystem :=
  if negb (m_initialized s) then None
  else
    let deltaTime := F32.min deltaTime F32.c_0_05 in
    if m_numParticles s =? 0 then Some (addNewStuff s)
    else
      let s := issue MapGLBufferObject s in
      let s := launch (SetParameters (m_params s)) s in
      let s := launch (IntegrateSystem deltaTime (m_numParticles s)) s in
      let s := for_loop (Z.to_nat (to_uint (m_solverIterations s))) 0
                        (fun _ => solver_iteration) s in
      let s := launch (CalcVelocity deltaTime (m_numParticles s)) s in
      let s := issue UnmapGLBufferObject s in
      Some (addNewStuff s).

(** *** Everything a caller can do with an engine *)

Inductive Op :=
| OpUpdate (deltaTime : float)
| OpAddParticle (pos vel : float4) (mass ro : float) (phase : Z)
| OpAddParticleMultiple (pos vel : list float4) (mass ro : list float)
    (phase : list Z) (numParticles : Z)
| OpAddParticles
| OpAddFluids
| OpAddNewStuff
| OpSetParticleToAdd (pos vel : float3) (mass : float)
| OpSetFluidToAdd (pos color : float3) (mass density : float)
| OpAddFluid (ll ur : int3) (mass density : float) (color : float3)
| OpAddParticleGrid (ll ur : int3) (mass : float) (addJitter : bool)
| OpAddHorizCloth (ll ur : int2) (spacing : float3) (dist : float2)
    (mass : float) (holdEdges : bool)
| OpAddRope (start spacing : float3) (dist : float) (numLinks : Z)
    (mass : float) (constrainStart : bool)
| OpAddStaticSphere (ll ur : int3) (spacing : float)
| OpMakePointConstraint (index : Z) (point : float3)
| OpMakeDistanceConstraint (index : uint2) (distance : float)
| OpSetArray (isPosArray : bool) (data : list float4) (start count : Z).

Definition exec (o : Op) (s : ParticleSystem) : option ParticleSystem :=
  match o with
  | OpUpdate dt => update dt s
  | OpAddParticle pos vel mass ro phase => Some (addParticle pos vel mass ro phase s)
  | OpAddParticleMultiple pos vel mass ro phase n =>
      Some (addParticleMultiple pos vel mass ro phase n s)
  | OpAddParticles => Some (addParticles s)
  | OpAddFluids => Some (addFluids s)
  | OpAddNewStuff => Some (addNewStuff s)
  | OpSetParticleToAdd pos vel mass => Some (setParticleToAdd pos vel mass s)
  | OpSetFluidToAdd pos color mass density => Some (setFluidToAdd pos color mass density s)
  | OpAddFluid ll ur mass density color => addFluid ll ur mass density color s
  | OpAddParticleGrid ll ur mass addJitter => addParticleGrid ll ur mass addJitter s
  | OpAddHorizCloth ll ur spacing dist mass holdEdges =>
      addHorizCloth ll ur spacing dist mass holdEdges s
  | OpAddRope start spacing dist numLinks mass constrainStart =>
      addRope start spacing dist numLinks mass constrainStart s
  | OpAddStaticSphere ll ur spacing => addStaticSphere ll ur spacing s
  | OpMakePointConstraint index point => Some (makePointConstraint index point s)
  | OpMakeDistanceConstraint index distance => Some (makeDistanceConstraint index distance s)
  | OpSetArray isPosArray data start count => setArray isPosArray data start count s
  end.

(** The states met while running the operations [ops] from [s], one per
    completed operation; [None] as soon as one of them is undefined. *)
Fixpoint run (ops : list Op) (s : ParticleSystem) : option (list ParticleSystem) :=
  match ops with
  | [] => Some []
  | o :: ops' =>
      s' ← exec o s;
      rest ← run ops' s';
      Some (s' :: rest)
  end.

End Engine.

(** ** A sample platform

    Concrete values for what the sources at hand leave open, used to run
    the model: phase tags, a three-colour palette, glibc's [RAND_MAX], a
    linear congruential [rand()] and kernels that leave the device memory
    alone. *)

Module Sample.

Definition SOLID : Z := 0.
Definition FLUID : Z := 1.
Definition RIGID : Z := 2.
Definition numColors : Z := 3.
Definition colors (i : Z) : float3 :=
  make_float3 (F32.of_Z i) F32.zero F32.one.
Definition RAND_MAX : Z := 2147483647.
Definition rand_seq (k : nat) : Z :=
  (Z.of_nat k * 1103515245 + 12345) mod 2147483648.
Definition kernel (k : KernelCall) (d : Device) : Device := d.

Definition origin : float3 := make_float3 F32.zero F32.zero F32.zero.
Definition unit_x : float3 := make_float3 F32.one F32.zero F32.zero.
Definition red : float3 := make_float3 F32.one F32.zero F32.zero.
Definition green : float3 := make_float3 F32.zero F32.one F32.zero.

(** An engine for particles of radius 0.5 in a 4 x 4 x 4 grid, three
    solver iterations per step. *)
Abbreviation engine maxParticles :=
  (ParticleSystem_new kernel F32.c_0_5 (make_uint3 4 4 4) maxParticles
                      (make_int3 0 0 0) (make_int3 4 4 4) 3).

Abbreviation rope numLinks :=
  (addRope RIGID numColors colors rand_seq origin unit_x F32.one numLinks F32.one true).
Abbreviation step := (update SOLID FLUID kernel).
Abbreviation run := (run SOLID FLUID RIGID numColors colors RAND_MAX rand_seq kernel).

(** A particle at rest at the origin. *)
Definition still : float4 := make_float4_3 origin F32.one.
Abbreviation add_still := (addParticle still zero4 F32.one F32.one SOLID).

(** A session on an engine of capacity 2: fill it, keep asking. *)
Definition session : list Op :=
  [OpAddParticle still zero4 F32.one F32.one SOLID;
   OpAddParticle still zero4 F32.one F32.one SOLID;
   OpAddParticle still zero4 F32.one F32.one SOLID;
   OpAddParticleMultiple [still] [zero4] [F32.one] [F32.one] [SOLID] 1;
   OpAddRope origin unit_x F32.one 5 F32.one true;
   OpSetFluidToAdd origin red F32.one F32.one;
   OpSetParticleToAdd origin origin F32.one;
   OpUpdate F32.c_0_01;
   OpAddFluid (make_int3 0 0 0) (make_int3 2 2 2) F32.one F32.one red;
   OpAddParticleGrid (make_int3 0 0 0) (make_int3 3 3 3) F32.one false;
   OpAddHorizCloth (make_int2 0 0) (make_int2 3 2) (make_float3 F32.one F32.one F32.one)
                   (make_float2 F32.one F32.one) F32.one true;
   OpAddStaticSphere (make_int3 0 0 0) (make_int3 4 4 4) F32.one].

End Sample.

(** ** Notions the properties are stated with *)

Definition capacity_ok (s : ParticleSystem) : Prop :=
  0 <= m_numParticles s <= m_maxParticles s.

(** [s'] has the capacity of [s] and respects it if [s] does. *)
Definition keeps_capacity (s s' : ParticleSystem) : Prop :=
  m_maxParticles s' = m_maxParticles s /\ (capacity_ok s -> capacity_ok s').

(** A full store stays as full as it is.  The capacity must leave room
    for the 32-bit sum of the count and an [int] batch size. *)
Definition full_stays_full (s s' : ParticleSystem) : Prop :=
  m_numParticles s = m_maxParticles s ->
  0 <= m_maxParticles s <= 2 ^ 31 ->
  m_numParticles s' = m_numParticles s.

(** A batch size a caller may pass: a non-negative [int]. *)
Definition batch_size_ok (o : Op) : Prop :=
  match o with
  | OpAddParticleMultiple _ _ _ _ _ n => 0 <= n <= INT_MAX
  | _ => True
  end.

(** Steps of [run]: the pairs of a state and its successor. *)
Fixpoint steps (s : ParticleSystem) (states : list ParticleSystem)
    : list (ParticleSystem * ParticleSystem) :=
  match states with
  | [] => []
  | s' :: rest => (s, s') :: steps s' rest
  end.

(** [s'] has the capacity and the particle count of [s]. *)
Definition same_counts (s s' : ParticleSystem) : Prop :=
  m_maxParticles s' = m_maxParticles s /\ m_numParticles s' = m_numParticles s.

(** The distance constraints of a rope of [numLinks] links whose first
    particle has index [startI]: link [i] joins particles [startI + i - 1]
    and [startI + i]. *)
Definition rope_links (startI : Z) (dist : float) (numLinks : Z) : list DistanceConstraint :=
  (fun i => {| dc_index := make_uint2 (to_uint (startI + i - 1)) (to_uint (startI + i));
               dc_dist := dist |}) <$> seqZ 1 numLinks.

(** The per-particle attributes and the position buffer. *)
Definition particle_store (s : ParticleSystem)
    : Z * list float4 * list float4 * list float * list Z * list float * Z :=
  (m_numParticles s, posVbo (gpu s), d_vel (gpu s), d_ro (gpu s),
   d_phase (gpu s), d_W (gpu s), d_solver (gpu s)).

(** One distance constraint and one point constraint. *)
Definition link (i j : Z) (d : float) : DistanceConstraint :=
  {| dc_index := make_uint2 i j; dc_dist := d |}.
Definition pin (i : Z) (p : float3) : PointConstraint :=
  {| pc_index := i; pc_point := p |}.

(** The kernel launches of one round of the constraint loop, in the order
    the specification lists them: grid hash, sort, cell-range build,
    solid/rigid collide, fluid density solve, world-bound collide,
    distance-constraint projection, point-constraint projection. *)
Definition solver_phases (s : ParticleSystem) : list Call :=
  [Launch (CalcHash (m_numParticles s));
   Launch (SortParticles (m_numParticles s));
   Launch (ReorderDataAndFindCellStart (m_numParticles s) (m_numGridCells s));
   Launch (Collide (m_numParticles s) (m_numGridCells s));
   Launch (SolveFluids (m_numParticles s) (m_numGridCells s));
   Launch (CollideWorld (m_numParticles s) (m_minBounds s) (m_maxBounds s));
   Launch SolveDistanceConstraints;
   Launch SolvePointConstraints].

(** The calls by which particles enter the store. *)
Definition is_admission_call (c : Call) : bool :=
  match c with
  | UnregisterGLBufferObject | RegisterGLBufferObject | GLBufferSubData _ _
  | AppendIntegrationParticle _ | AppendPhaseAndMass _ | AppendSolverParticle _ => true
  | _ => false
  end.

(** Everything the host owns: the engine without device memory and call
    record. *)
Definition host_view (s : ParticleSystem) :=
  (m_initialized s, m_particleRadius s, m_maxParticles s, m_numParticles s,
   m_gridSize s, m_numGridCells s, m_gridSortBits s, m_rigidIndex s,
   m_minBounds s, m_maxBounds s, m_solverIterations s, m_params s,
   m_particlesToAdd s, m_fluidsToAdd s, m_colorIndex s, m_colors s,
   rand_calls s).

(** [s'] continues [s] with admission calls only. *)
Definition admits_only (s s' : ParticleSystem) : Prop :=
  exists l, calls s' = calls s ++ l /\ Forall (fun c => is_admission_call c = true) l.

(** The axis count in the specification's words, [ceil(extent / spacing)],
    computed exactly: a finite non-zero [spacing] is the rational
    [+-m * 2^e], and the ceiling of [a / b] for [0 < b] is [- ((- a) / b)]. *)
Definition ceil_quotient (extent : Z) (spacing : float) : option Z :=
  match spacing with
  | S754_finite sg m e =>
      let a := (if sg then - extent else extent) * 2 ^ Z.max 0 (- e) in
      let b := Zpos m * 2 ^ Z.max 0 e in
      Some (- ((- a) / b))
  | _ => None
  end.

(** The fluid queue that holds the given samples, oldest first: each
    sample is a position (with the mass in [w]) followed by a colour (with
    the rest density in [w]), as [setFluidToAdd] pushes them. *)
Definition fluid_queue (samples : list (float4 * float4)) : list float4 :=
  flat_map (fun sample => [fst sample; snd sample]) samples.

(** *** Lattices, plain and jittered

    The sites of a lattice of [count] points per axis, in the order the
    fill loops visit them: [x] runs fastest, then [y], then [z]. *)
Definition lattice_sites (count : int3) : list (Z * Z * Z) :=
  z ← seqZ 0 (i3z count);
  y ← seqZ 0 (i3y count);
  (fun x => (x, y, z)) <$> seqZ 0 (i3x count).

(** The corner-anchored lattice without any jitter. *)
Definition plain_lattice (ll count : int3) (distance : float) : list float4 :=
  (fun site : Z * Z * Z =>
     let '(x, y, z) := site in
     make_float4 (lattice_coord (i3x ll) x distance) (lattice_coord (i3y ll) y distance)
                 (lattice_coord (i3z ll) z distance) F32.one)
  <$> lattice_sites count.

(** The value of the [k]-th [frand()] of the run. *)
Definition draw (RAND_MAX : Z) (rand_seq : nat -> Z) (k : nat) : float :=
  F32.div (F32.of_Z (rand_seq k)) (F32.of_Z RAND_MAX).

(** A coordinate [v] displaced by [(u * 2 - 1) * jitter]. *)
Definition displace (v jitter u : float) : float :=
  F32.add v (F32.mul (F32.sub (F32.mul u F32.two) F32.one) jitter).

(** The lattice in which every coordinate of every site is displaced with
    amplitude [jitter]; the sites take their draws in turn, three each,
    starting with draw [k]. *)
Fixpoint jitter_sites (RAND_MAX : Z) (rand_seq : nat -> Z) (ll : int3)
    (distance jitter : float) (sites : list (Z * Z * Z)) (k : nat) : list float4 :=
  match sites with
  | [] => []
  | (x, y, z) :: rest =>
      make_float4
        (displace (lattice_coord (i3x ll) x distance) jitter (draw RAND_MAX rand_seq k))
        (displace (lattice_coord (i3y ll) y distance) jitter (draw RAND_MAX rand_seq (S k)))
        (displace (lattice_coord (i3z ll) z distance) jitter (draw RAND_MAX rand_seq (S (S k))))
        F32.one
      :: jitter_sites RAND_MAX rand_seq ll distance jitter rest (S (S (S k)))
  end.

(** The cloth sheet without any jitter: [count.x] by [count.y] points at
    height [spacing.y], row by row. *)
Definition plain_cloth (ll count : int2) (spacing : float3) : list float4 :=
  z ← seqZ 0 (i2y count);
  (fun x => make_float4 (lattice_coord (i2x ll) x (f3x spacing)) (f3y spacing)
                        (lattice_coord (i2y ll) z (f3z spacing)) F32.one)
  <$> seqZ 0 (i2x count).

(** The positions in the buffer of the particles admitted between [s] and
    [s']. *)
Definition admitted_positions (s s' : ParticleSystem) : list float4 :=
  take (Z.to_nat (m_numParticles s' - m_numParticles s))
       (drop (Z.to_nat (m_numParticles s)) (posVbo (gpu s'))).

(** The position buffer has a slot for each of the [maxParticles]
    particles, and its byte size fits the [uint] that [_init] computes. *)
Definition buffer_ok (s : ParticleSystem) : Prop :=
  0 <= m_numParticles s <= m_maxParticles s
  /\ Z.of_nat (length (posVbo (gpu s))) = m_maxParticles s
  /\ 4 * 4 * m_maxParticles s < UINT_MOD.


(** *** The sound particle store

    Each per-particle vector holds one entry per particle, next to a sound
    position buffer. *)
Definition store_ok (s : ParticleSystem) : Prop :=
  buffer_ok s
  /\ Z.of_nat (length (d_vel (gpu s))) = m_numParticles s
  /\ Z.of_nat (length (d_ro (gpu s))) = m_numParticles s
  /\ Z.of_nat (length (d_phase (gpu s))) = m_numParticles s
  /\ Z.of_nat (length (d_W (gpu s))) = m_numParticles s
  /\ d_solver (gpu s) = m_numParticles s.

(** The sizes of the buffer and of the per-particle vectors. *)
Definition sizes (d : Device) : nat * nat * nat * nat * nat * Z :=
  (length (posVbo d), length (d_vel d), length (d_ro d), length (d_phase d),
   length (d_W d), d_solver d).

(** Kernels that work in place: no launch resizes the buffer or a
    per-particle vector. *)
Definition keeps_sizes (kernel : KernelCall -> Device -> Device) : Prop :=
  forall k d, sizes (kernel k d) = sizes d.

(** The arrays a caller passes hold the entries the call reads: a batch
    has a non-negative size and arrays of at least that many entries, an
    upload [count] positions whose byte count fits an [int]. *)
Definition arrays_ok (o : Op) : Prop :=
  match o with
  | OpAddParticleMultiple pos vel mass ro phase n =>
      0 <= n <= INT_MAX
      /\ n <= Z.of_nat (length pos) /\ n <= Z.of_nat (length vel)
      /\ n <= Z.of_nat (length mass) /\ n <= Z.of_nat (length ro)
      /\ n <= Z.of_nat (length phase)
  | OpSetArray _ data _ count =>
      0 <= count /\ count * 16 <= INT_MAX /\ count <= Z.of_nat (length data)
  | _ => True
  end.


(** [s'] has the counts of [s] and device arrays of the same sizes. *)
Definition same_store (s s' : ParticleSystem) : Prop :=
  same_counts s s' /\ sizes (gpu s') = sizes (gpu s).


(** [s'] continues [s]: no particle is lost, the positions, attributes,
    constraints and colour groups that [s] holds are still there, at the
    same indices, and whatever is new comes behind them. *)
Definition continues (s s' : ParticleSystem) : Prop :=
  m_numParticles s <= m_numParticles s'
  /\ take (Z.to_nat (m_numParticles s)) (posVbo (gpu s'))
     = take (Z.to_nat (m_numParticles s)) (posVbo (gpu s))
  /\ d_vel (gpu s) `prefix_of` d_vel (gpu s')
  /\ d_ro (gpu s) `prefix_of` d_ro (gpu s')
  /\ d_phase (gpu s) `prefix_of` d_phase (gpu s')
  /\ d_W (gpu s) `prefix_of` d_W (gpu s')
  /\ d_distance (gpu s) `prefix_of` d_distance (gpu s')
  /\ d_point (gpu s) `prefix_of` d_point (gpu s')
  /\ m_colorIndex s `prefix_of` m_colorIndex s'
  /\ m_colors s `prefix_of` m_colors s'.

(** The operations that run on the host alone: all but a step, which
    hands the device arrays to the kernels, and an upload, which
    overwrites positions. *)
Definition host_op (o : Op) : Prop :=
  match o with
  | OpUpdate _ | OpSetArray _ _ _ _ => False
  | _ => True
  end.


(** *** Draining a queue

    What one single admission takes: the arguments of [addParticle]. *)
Record Particle := {
  pt_pos : float4;
  pt_vel : float4;
  pt_mass : float;
  pt_ro : float;
  pt_phase : Z
}.

(** Single admissions, one after the other. *)
Definition admit_all (ps : list Particle) (s : ParticleSystem) : ParticleSystem :=
  foldl (fun s p => addParticle (pt_pos p) (pt_vel p) (pt_mass p) (pt_ro p) (pt_phase p) s)
        s ps.

(** The particle queue that holds the given entries, oldest first: each
    is a position followed by a velocity with the mass in [w], as
    [setParticleToAdd] pushes them. *)
Definition particle_queue (entries : list (float4 * float4)) : list float4 :=
  flat_map (fun entry => [fst entry; snd entry]) entries.

(** The admission [addParticles] asks for a queued entry. *)
Definition queued_particle (SOLID : Z) (entry : float4 * float4) : Particle :=
  {| pt_pos := fst entry;
     pt_vel := make_float4 (f4x (snd entry)) (f4y (snd entry)) (f4z (snd entry)) F32.zero;
     pt_mass := f4w (snd entry);
     pt_ro := F32.c_1_5;
     pt_phase := SOLID |}.

(** The admission [addFluids] asks for a queued sample. *)
Definition queued_fluid (FLUID : Z) (sample : float4 * float4) : Particle :=
  {| pt_pos := make_float4_3 (make_float3_4 (fst sample)) F32.one;
     pt_vel := make_float4 F32.zero F32.neg_one F32.zero F32.zero;
     pt_mass := f4w (fst sample);
     pt_ro := f4w (snd sample);
     pt_phase := FLUID |}.

(** How many of [wanted] particles a store has room for. *)
Definition fitting (wanted : nat) (s : ParticleSystem) : nat :=
  Nat.min wanted (Z.to_nat (m_maxParticles s - m_numParticles s)).

(** A request to [setParticleToAdd]: position, velocity and mass. *)
Record Request := { rq_pos : float3; rq_vel : float3; rq_mass : float }.

(** Requests handed to [setParticleToAdd] one after the other. *)
Definition queue_all (numColors : Z) (colors : Z -> float3) (RAND_MAX : Z)
    (rand_seq : nat -> Z) (reqs : list Request) (s : ParticleSystem) : ParticleSystem :=
  foldl (fun s r => setParticleToAdd numColors colors RAND_MAX rand_seq
                                     (rq_pos r) (rq_vel r) (rq_mass r) s) s reqs.

(** The queue entry of a request that meets the generator at its [k]-th
    draw: x and y are displaced by the draws [k] and [k + 1], z is kept. *)
Definition queued_request (RAND_MAX : Z) (rand_seq : nat -> Z) (radius : float)
    (k : nat) (r : Request) : float4 * float4 :=
  let jitter := F32.mul radius F32.c_0_01 in
  (make_float4_3
     (make_float3 (displace (f3x (rq_pos r)) jitter (draw RAND_MAX rand_seq k))
                  (displace (f3y (rq_pos r)) jitter (draw RAND_MAX rand_seq (S k)))
                  (f3z (rq_pos r)))
     F32.one,
   make_float4_3 (rq_vel r) (rq_mass r)).

(** Every request takes three draws: two for its position, one for its
    colour. *)
Fixpoint queued_requests (RAND_MAX : Z) (rand_seq : nat -> Z) (radius : float)
    (k : nat) (reqs : list Request) : list (float4 * float4) :=
  match reqs with
  | [] => []
  | r :: rs => queued_request RAND_MAX rand_seq radius k r
               :: queued_requests RAND_MAX rand_seq radius (3 + k) rs
  end.




(** The test of [addStaticSphere]: the lattice site lies strictly inside
    the ball. *)
Definition inside_ball (center : float3) (radius : float) (p : float4) : bool :=
  F32.ltb (length3 (f3sub (make_float3_4 p) center)) radius.

(** One pin per particle of the ball, at the particle's own position; the
    particles are numbered from [startI] on. *)
Definition sphere_pins (startI : Z) (posV : list float4) : list PointConstraint :=
  imap (fun i p => pin (to_uint (startI + to_uint (Z.of_nat i))) (make_float3_4 p)) posV.

(** What the loop nest of [addStaticSphere] keeps true of its three
    vectors. *)
Definition sphere_vectors (startI : Z) (center : float3) (radius : float)
    (a : list float4 * list Z * list float3) : Prop :=
  Forall (fun p => inside_ball center radius p = true) (fst (fst a))
  /\ snd (fst a)
     = imap (fun i _ => to_uint (startI + to_uint (Z.of_nat i))) (fst (fst a))
  /\ snd a = make_float3_4 <$> fst (fst a).

(** The colour groups: every range of particle indices has its colour. *)
Definition palette_ok (s : ParticleSystem) : Prop :=
  length (m_colorIndex s) = length (m_colors s).

Definition same_palette (s s' : ParticleSystem) : Prop :=
  m_colorIndex s' = m_colorIndex s /\ m_colors s' = m_colors s.

(** The particles of a rope: the start, then one particle per link, each
    a multiple of the spacing away from the start. *)
Definition rope_positions (start spacing : float3) (numLinks : Z) : list float4 :=
  make_float4_3 start F32.one
  :: ((fun i => make_float4_3 (f3add start (f3scale (F32.of_Z i) spacing)) F32.one)
      <$> seqZ 1 numLinks).

(** * Properties *)

(** ** Arithmetic and loops *)

Lemma to_uint_range z : 0 <= to_uint z < UINT_MOD.
Proof. unfold to_uint, UINT_MOD. apply Z.mod_pos_bound. lia. Qed.

Lemma to_uint_small z : 0 <= z < UINT_MOD -> to_uint z = z.
Proof. intros H. unfold to_uint. apply Z.mod_small. exact H. Qed.

Lemma to_uint_le z : 0 <= z -> to_uint z <= z.
Proof. intros H. unfold to_uint, UINT_MOD. apply Z.mod_le; lia. Qed.

Lemma keeps_capacity_refl s : keeps_capacity s s.
Proof. split; auto. Qed.

Lemma keeps_capacity_trans s1 s2 s3 :
  keeps_capacity s1 s2 -> keeps_capacity s2 s3 -> keeps_capacity s1 s3.
Proof. intros [E1 H1] [E2 H2]. split; [congruence | auto]. Qed.

Lemma full_stays_full_refl s : full_stays_full s s.
Proof. intros _ _. reflexivity. Qed.

Lemma full_stays_full_trans s1 s2 s3 :
  m_maxParticles s2 = m_maxParticles s1 ->
  full_stays_full s1 s2 -> full_stays_full s2 s3 -> full_stays_full s1 s3.
Proof.
  intros E H1 H2 Hfull Hmax.
  assert (m_numParticles s2 = m_numParticles s1) as E2 by auto.
  rewrite <- E2. apply H2; congruence.
Qed.

Lemma for_loop_invariant {A : Type} (P : A -> Prop) (body : Z -> A -> A) n i a :
  (forall j x, P x -> P (body j x)) -> P a -> P (for_loop n i body a).
Proof.
  intros Hbody. revert i a.
  induction n as [|n IH]; intros i a Ha; simpl; auto.
Qed.

(** A field that a draw does not touch is the same after any number of
    draws. *)
Lemma iter_tick_field {A : Type} (field : ParticleSystem -> A) k s :
  (forall x, field (tick_rand x) = field x) ->
  field (Nat.iter k tick_rand s) = field s.
Proof.
  intros H. induction k as [|k IH]; [reflexivity|].
  change (Nat.iter (S k) tick_rand s) with (tick_rand (Nat.iter k tick_rand s)).
  rewrite H. exact IH.
Qed.

Lemma rand_calls_iter k s : rand_calls (Nat.iter k tick_rand s) = (k + rand_calls s)%nat.
Proof.
  induction k as [|k IH]; [reflexivity|].
  change (Nat.iter (S k) tick_rand s) with (tick_rand (Nat.iter k tick_rand s)).
  cbn [rand_calls tick_rand]. rewrite IH. reflexivity.
Qed.

Lemma gpu_iter k s : gpu (Nat.iter k tick_rand s) = gpu s.
Proof. apply iter_tick_field. reflexivity. Qed.

Lemma same_counts_iter k s : same_counts s (Nat.iter k tick_rand s).
Proof.
  split.
  - apply (iter_tick_field m_maxParticles). reflexivity.
  - apply (iter_tick_field m_numParticles). reflexivity.
Qed.

Lemma in_int_bounds z : in_int z = true -> INT_MIN <= z <= INT_MAX.
Proof.
  unfold in_int. intros H. apply andb_true_iff in H as [H1 H2].
  apply Z.leb_le in H1, H2. split; assumption.
Qed.

Lemma array_filled_size {A : Type} n (l : list A) :
  array_filled n l = true -> 0 <= n /\ Z.of_nat (length l) = n.
Proof.
  unfold array_filled. intros H. apply andb_true_iff in H as [H1 H2].
  apply Z.leb_le in H1. apply Z.eqb_eq in H2. split; assumption.
Qed.

(** ** Capacity is respected by every operation *)

Section CapacityFacts.

Variables SOLID FLUID RIGID : Z.
Variable numColors : Z.
Variable colors : Z -> float3.
Variable RAND_MAX : Z.
Variable rand_seq : nat -> Z.
Variable kernel : KernelCall -> Device -> Device.

Lemma addParticle_full pos vel mass ro phase s :
  m_numParticles s = m_maxParticles s ->
  addParticle pos vel mass ro phase s = s.
Proof.
  intros H. unfold addParticle.
  rewrite (proj2 (Z.eqb_eq _ _) H). reflexivity.
Qed.

Lemma addParticle_keeps pos vel mass ro phase s :
  keeps_capacity s (addParticle pos vel mass ro phase s).
Proof.
  unfold addParticle.
  destruct (Z.eqb_spec (m_numParticles s) (m_maxParticles s)) as [E|NE].
  - apply keeps_capacity_refl.
  - split; [reflexivity|]. unfold capacity_ok. simpl. intros [H0 H1].
    pose proof (to_uint_range (m_numParticles s + 1)).
    pose proof (to_uint_le (m_numParticles s + 1)). lia.
Qed.

Lemma addParticle_full_stays pos vel mass ro phase s :
  full_stays_full s (addParticle pos vel mass ro phase s).
Proof. intros H _. rewrite addParticle_full; auto. Qed.

Lemma addParticleMultiple_dropped pos vel mass ro phase n s :
  m_maxParticles s <= to_uint (m_numParticles s + n) ->
  addParticleMultiple pos vel mass ro phase n s = s.
Proof.
  intros H. unfold addParticleMultiple.
  rewrite (proj2 (Z.leb_le _ _) H). reflexivity.
Qed.

Lemma addParticleMultiple_keeps pos vel mass ro phase n s :
  keeps_capacity s (addParticleMultiple pos vel mass ro phase n s).
Proof.
  unfold addParticleMultiple.
  destruct (Z.leb_spec (m_maxParticles s) (to_uint (m_numParticles s + n))) as [E|NE].
  - apply keeps_capacity_refl.
  - split; [reflexivity|]. unfold capacity_ok. simpl. intros _.
    pose proof (to_uint_range (m_numParticles s + n)). lia.
Qed.

Lemma addParticleMultiple_full_stays pos vel mass ro phase n s :
  0 <= n <= INT_MAX ->
  full_stays_full s (addParticleMultiple pos vel mass ro phase n s).
Proof.
  intros Hn Hfull Hmax.
  rewrite addParticleMultiple_dropped; [reflexivity|].
  rewrite to_uint_small; unfold UINT_MOD, INT_MAX in *; lia.
Qed.

Lemma addParticles_loop_keeps size s :
  keeps_capacity s (addParticles_loop SOLID size s)
  /\ full_stays_full s (addParticles_loop SOLID size s).
Proof.
  revert s. induction size as [|size IH]; intros s; simpl.
  - split; [apply keeps_capacity_refl | apply full_stays_full_refl].
  - destruct (m_particlesToAdd s) as [|pos [|vel rest]];
      try (split; [apply keeps_capacity_refl | apply full_stays_full_refl]).
    set (s1 := set_particlesToAdd rest s).
    set (s2 := addParticle _ _ _ _ _ s1).
    destruct (IH s2) as [K F].
    pose proof (addParticle_keeps pos
      (make_float4 (f4x vel) (f4y vel) (f4z vel) F32.zero) (f4w vel)
      F32.c_1_5 SOLID s1) as K1. fold s2 in K1.
    assert (keeps_capacity s s2) as K2 by exact K1.
    split.
    + eapply keeps_capacity_trans; eauto.
    + eapply full_stays_full_trans; [apply K2| |exact F].
      intros Hfull _. subst s2. rewrite addParticle_full; auto.
Qed.

Lemma addParticles_keeps s :
  keeps_capacity s (addParticles SOLID s) /\ full_stays_full s (addParticles SOLID s).
Proof.
  unfold addParticles. destruct (m_particlesToAdd s) eqn:E.
  - split; [apply keeps_capacity_refl | apply full_stays_full_refl].
  - apply addParticles_loop_keeps.
Qed.

Lemma addFluids_loop_keeps size color s :
  keeps_capacity s (snd (addFluids_loop FLUID size color s))
  /\ full_stays_full s (snd (addFluids_loop FLUID size color s)).
Proof.
  revert color s. induction size as [|size IH]; intros color s; simpl.
  - split; [apply keeps_capacity_refl | apply full_stays_full_refl].
  - destruct (m_fluidsToAdd s) as [|pos [|color' rest]];
      try (split; [apply keeps_capacity_refl | apply full_stays_full_refl]).
    set (s1 := set_fluidsToAdd rest s).
    set (s2 := addParticle _ _ _ _ _ s1).
    destruct (IH color' s2) as [K F].
    pose proof (addParticle_keeps (make_float4_3 (make_float3_4 pos) F32.one)
      (make_float4 F32.zero F32.neg_one F32.zero F32.zero) (f4w pos)
      (f4w color') FLUID s1) as K1. fold s2 in K1.
    assert (keeps_capacity s s2) as K2 by exact K1.
    split.
    + eapply keeps_capacity_trans; eauto.
    + eapply full_stays_full_trans; [apply K2| |exact F].
      intros Hfull _. subst s2. rewrite addParticle_full; auto.
Qed.

Lemma addFluids_keeps s :
  keeps_capacity s (addFluids FLUID s) /\ full_stays_full s (addFluids FLUID s).
Proof.
  unfold addFluids. destruct (m_fluidsToAdd s) eqn:E.
  - split; [apply keeps_capacity_refl | apply full_stays_full_refl].
  - destruct (addFluids_loop FLUID _ zero4 s) as [color s'] eqn:L.
    pose proof (addFluids_loop_keeps
      (Z.to_nat (to_uint (Z.of_nat (length (m_fluidsToAdd s)) / 2))) zero4 s) as H.
    rewrite E in H. rewrite L in H. simpl in H. exact H.
Qed.

Lemma addNewStuff_keeps s :
  keeps_capacity s (addNewStuff SOLID FLUID s)
  /\ full_stays_full s (addNewStuff SOLID FLUID s).
Proof.
  unfold addNewStuff.
  destruct (addParticles_keeps s) as [K1 F1].
  destruct (addFluids_keeps (addParticles SOLID s)) as [K2 F2].
  split.
  - eapply keeps_capacity_trans; eauto.
  - eapply full_stays_full_trans; [apply K1| |]; eauto.
Qed.


Lemma same_counts_refl s : same_counts s s.
Proof. split; reflexivity. Qed.

Lemma same_counts_trans s1 s2 s3 :
  same_counts s1 s2 -> same_counts s2 s3 -> same_counts s1 s3.
Proof. intros [A B] [C D]. split; congruence. Qed.

Lemma same_counts_keeps s s' :
  same_counts s s' -> keeps_capacity s s' /\ full_stays_full s s'.
Proof.
  intros [A B]. split; [split|].
  - exact A.
  - unfold capacity_ok. lia.
  - intros _ _. exact B.
Qed.

Lemma jittered_counts v j s0 s :
  same_counts s0 s -> same_counts s0 (snd (jittered RAND_MAX rand_seq v j s)).
Proof. intros H. exact H. Qed.

Lemma lattice_body_counts ll d j z y x s0 acc :
  same_counts s0 (snd acc) ->
  same_counts s0 (snd (lattice_body RAND_MAX rand_seq ll d j z y x acc)).
Proof. destruct acc as [pos s]. intros H. exact H. Qed.

Lemma lattice_fill_counts ll count d j s :
  same_counts s (snd (lattice_fill RAND_MAX rand_seq ll count d j s)).
Proof.
  unfold lattice_fill.
  apply (for_loop_invariant (fun acc => same_counts s (snd acc))).
  - intros z acc Hz.
    apply (for_loop_invariant (fun acc => same_counts s (snd acc))); [|exact Hz].
    intros y acc' Hy.
    apply (for_loop_invariant (fun acc => same_counts s (snd acc))); [|exact Hy].
    intros x acc'' Hx. apply lattice_body_counts. exact Hx.
  - apply same_counts_refl.
Qed.

(** The shape of every builder: bookkeeping, one batch admission,
    bookkeeping. *)
Lemma around_batch s s1 s' pos vel mass ro phase n :
  same_counts s s1 ->
  same_counts (addParticleMultiple pos vel mass ro phase n s1) s' ->
  0 <= n <= INT_MAX ->
  keeps_capacity s s' /\ full_stays_full s s'.
Proof.
  intros H1 H2 Hn.
  destruct (same_counts_keeps _ _ H1) as [K1 F1].
  destruct (same_counts_keeps _ _ H2) as [K2 F2].
  pose proof (addParticleMultiple_keeps pos vel mass ro phase n s1) as K.
  pose proof (addParticleMultiple_full_stays pos vel mass ro phase n s1 Hn) as F.
  split.
  - eapply keeps_capacity_trans; [exact K1|].
    eapply keeps_capacity_trans; [exact K|exact K2].
  - eapply full_stays_full_trans; [apply K1|exact F1|].
    eapply full_stays_full_trans; [apply K|exact F|exact F2].
Qed.

Lemma addFluid_keeps ll ur mass density color s s' :
  addFluid FLUID RAND_MAX rand_seq ll ur mass density color s = Some s' ->
  keeps_capacity s s' /\ full_stays_full s s'.
Proof.
  unfold addFluid. intros H.
  destruct (make_count3 _ _ _) as [count|]; [|discriminate]. simpl in H.
  pose proof (lattice_fill_counts ll count
    (F32.mul (m_particleRadius s) F32.c_2_5)
    (F32.mul (m_particleRadius s) F32.c_0_01) s) as Hfill.
  destruct (lattice_fill _ _ _ _ _ _ _) as [pos s1]. simpl in Hfill.
  destruct (usable_count3 count) eqn:U; [|discriminate].
  destruct (array_filled _ pos) eqn:AF; [|discriminate].
  simpl in H. injection H as <-.
  unfold usable_count3 in U. apply andb_true_iff in U as [_ U].
  apply in_int_bounds in U. apply array_filled_size in AF as [AF _].
  eapply around_batch; [exact Hfill| |split; [exact AF|apply U]].
  split; reflexivity.
Qed.

Lemma addParticleGrid_keeps ll ur mass addJitter s s' :
  addParticleGrid SOLID numColors colors RAND_MAX rand_seq ll ur mass addJitter s = Some s' ->
  keeps_capacity s s' /\ full_stays_full s s'.
Proof.
  unfold addParticleGrid. intros H.
  destruct (make_count3 _ _ _) as [count|]; [|discriminate]. simpl in H.
  pose proof (lattice_fill_counts ll count
    (F32.mul (m_particleRadius s) F32.c_2_002)
    (if addJitter then F32.mul (m_particleRadius s) F32.c_0_01 else F32.zero) s) as Hfill.
  destruct (lattice_fill _ _ _ _ _ _ _) as [pos s1]. simpl in Hfill.
  destruct (usable_count3 count) eqn:U; [|discriminate].
  destruct (array_filled _ pos) eqn:AF; [|discriminate].
  simpl in H. injection H as <-.
  unfold usable_count3 in U. apply andb_true_iff in U as [_ U].
  apply in_int_bounds in U. apply array_filled_size in AF as [AF _].
  eapply around_batch; [exact Hfill| |split; [exact AF|apply U]].
  split; reflexivity.
Qed.

Lemma addHorizCloth_keeps ll ur spacing dist mass holdEdges s s' :
  addHorizCloth RIGID numColors colors rand_seq ll ur spacing dist mass holdEdges s = Some s' ->
  keeps_capacity s s' /\ full_stays_full s s'.
Proof.
  unfold addHorizCloth. intros H.
  destruct (axis_count _ _ (f3x spacing)) as [cx|]; [|discriminate]. simpl in H.
  destruct (axis_count _ _ (f3z spacing)) as [cy|]; [|discriminate]. simpl in H.
  match type of H with
  | (if negb (in_int _ && array_filled _ (c_pos ?a) && _ && _) then _ else _) = _ =>
      set (arrays := a) in *
  end.
  destruct (in_int (cx * cy)) eqn:U; [|discriminate].
  destruct (array_filled (cx * cy) (c_pos arrays)) eqn:AF; [|discriminate].
  destruct (array_filled _ (c_dists arrays)); [|discriminate].
  destruct (array_filled _ (c_indicesP arrays)); [|discriminate].
  simpl in H. injection H as <-.
  apply in_int_bounds in U. apply array_filled_size in AF as [AF _].
  eapply around_batch; [apply same_counts_refl| |split; [exact AF|apply U]].
  split; reflexivity.
Qed.

Lemma addRope_keeps start spacing dist numLinks mass constrainStart s s' :
  addRope RIGID numColors colors rand_seq start spacing dist numLinks mass constrainStart s = Some s' ->
  keeps_capacity s s' /\ full_stays_full s s'.
Proof.
  unfold addRope. intros H.
  destruct (0 <=? numLinks) eqn:N; [|discriminate].
  destruct (in_int (numLinks + 1)) eqn:U; [|discriminate].
  simpl in H.
  destruct (for_loop _ _ _ _) as [[pos indicesD] dists].
  injection H as <-.
  apply in_int_bounds in U. apply Z.leb_le in N.
  eapply (around_batch _ _ _ _ _ _ _ _ (numLinks + 1));
    [apply same_counts_refl| |split; [lia|apply U]].
  destruct constrainStart; split; reflexivity.
Qed.

Lemma addStaticSphere_keeps ll ur spacing s s' :
  addStaticSphere RIGID numColors colors rand_seq ll ur spacing s = Some s' ->
  keeps_capacity s s' /\ full_stays_full s s'.
Proof.
  unfold addStaticSphere. intros H.
  destruct (make_count3 _ _ _) as [count|]; [|discriminate]. simpl in H.
  destruct (for_loop _ _ _ _) as [[posV indices] points].
  destruct (0 <=? to_int (Z.of_nat (length indices))) eqn:N; [|discriminate].
  simpl in H. injection H as <-.
  apply Z.leb_le in N.
  eapply around_batch; [apply same_counts_refl| |split; [exact N|]].
  - split; reflexivity.
  - unfold to_int, INT_MAX, UINT_MOD.
    pose proof (Z.mod_pos_bound (Z.of_nat (length indices) + 2 ^ 31) (2 ^ 32)). lia.
Qed.

Lemma solver_loop_counts n i s :
  same_counts s (for_loop n i (fun _ => solver_iteration kernel) s).
Proof.
  apply (for_loop_invariant (fun x => same_counts s x)).
  - intros _ x H. eapply same_counts_trans; [exact H|]. split; reflexivity.
  - apply same_counts_refl.
Qed.

Lemma update_keeps deltaTime s s' :
  update SOLID FLUID kernel deltaTime s = Some s' ->
  keeps_capacity s s' /\ full_stays_full s s'.
Proof.
  unfold update. intros H.
  destruct (m_initialized s); [|discriminate]. simpl in H.
  destruct (m_numParticles s =? 0).
  - injection H as <-. apply addNewStuff_keeps.
  - injection H as <-.
    match goal with
    | |- keeps_capacity _ (addNewStuff _ _ ?x) /\ _ => set (s1 := x)
    end.
    assert (same_counts s s1) as C.
    { subst s1.
      match goal with
      | |- same_counts _ (issue _ (launch _ _ (for_loop ?n ?i _ ?x))) =>
          pose proof (solver_loop_counts n i x) as L
      end.
      destruct L as [L1 L2]. split; simpl; [rewrite L1|rewrite L2]; reflexivity. }
    destruct (same_counts_keeps _ _ C) as [K1 F1].
    destruct (addNewStuff_keeps s1) as [K2 F2].
    split.
    + eapply keeps_capacity_trans; eauto.
    + eapply full_stays_full_trans; [apply K1| |]; eauto.
Qed.

Lemma exec_keeps o s s' :
  exec SOLID FLUID RIGID numColors colors RAND_MAX rand_seq kernel o s = Some s' ->
  keeps_capacity s s' /\ (batch_size_ok o -> full_stays_full s s').
Proof.
  destruct o; simpl; intros H;
    try (injection H as <-);
    try (split; [|intros _]; apply same_counts_keeps; split; reflexivity).
  - apply update_keeps in H. tauto.
  - split; [apply addParticle_keeps | intros _; apply addParticle_full_stays].
  - split; [apply addParticleMultiple_keeps | apply addParticleMultiple_full_stays].
  - pose proof (addParticles_keeps s). tauto.
  - pose proof (addFluids_keeps s). tauto.
  - pose proof (addNewStuff_keeps s). tauto.
  - apply addFluid_keeps in H. tauto.
  - apply addParticleGrid_keeps in H. tauto.
  - apply addHorizCloth_keeps in H. tauto.
  - apply addRope_keeps in H. tauto.
  - apply addStaticSphere_keeps in H. tauto.
  - unfold setArray in H. destruct (m_initialized s); [|discriminate].
    destruct isPosArray; injection H as <-;
      (split; [|intros _]; apply same_counts_keeps; split; reflexivity).
Qed.


Lemma run_capacity ops : forall s states,
  capacity_ok s ->
  run SOLID FLUID RIGID numColors colors RAND_MAX rand_seq kernel ops s = Some states ->
  Forall (fun s' => m_maxParticles s' = m_maxParticles s /\ capacity_ok s') states
  /\ (Forall batch_size_ok ops ->
      Forall (fun p => full_stays_full (fst p) (snd p)) (steps s states)).
Proof.
  induction ops as [|o ops IH]; intros s states Hs Hrun; simpl in Hrun.
  - injection Hrun as <-. split; [constructor | intros _; constructor].
  - destruct (exec _ _ _ _ _ _ _ _ o s) as [s1|] eqn:E; [|discriminate].
    simpl in Hrun.
    destruct (run _ _ _ _ _ _ _ _ ops s1) as [rest|] eqn:R; [|discriminate].
    simpl in Hrun. injection Hrun as <-.
    apply exec_keeps in E as [[Emax Hcap] Hfull].
    destruct (IH s1 rest (Hcap Hs) R) as [IH1 IH2].
    split.
    + constructor; [split; auto|].
      eapply Forall_impl; [exact IH1|]. simpl. intros x [A B]. split; congruence.
    + intros Hops. inversion Hops as [|? ? Ho Hops']; subst.
      simpl. constructor; [simpl; auto | auto].
Qed.

(** C1: on an engine built with capacity [maxParticles], whatever
    operations are run, every state met keeps that capacity and has
    [0 <= numParticles <= maxParticles]; and an operation that starts on
    a full store ends with the same particle count (for batch sizes that
    are non-negative [int]s and a capacity of at most 2^31, so that the
    32-bit sum of count and batch size cannot wrap). *)
Theorem capacity_invariant
    particleRadius gridSize maxParticles minBounds maxBounds iterations ops states :
  0 <= maxParticles ->
  run SOLID FLUID RIGID numColors colors RAND_MAX rand_seq kernel ops
      (ParticleSystem_new kernel particleRadius gridSize maxParticles
                          minBounds maxBounds iterations) = Some states ->
  Forall (fun s => m_maxParticles s = maxParticles
                   /\ 0 <= m_numParticles s <= m_maxParticles s) states
  /\ (Forall batch_size_ok ops -> maxParticles <= 2 ^ 31 ->
      Forall (fun p => m_numParticles (fst p) = maxParticles ->
                       m_numParticles (snd p) = m_numParticles (fst p))
             (steps (ParticleSystem_new kernel particleRadius gridSize maxParticles
                                        minBounds maxBounds iterations) states)).
Proof.
  intros Hmax Hrun.
  set (s0 := ParticleSystem_new _ _ _ _ _ _ _) in *.
  assert (capacity_ok s0) as H0 by (unfold capacity_ok; simpl; lia).
  destruct (run_capacity ops s0 states H0 Hrun) as [Hinv Hfull].
  split; [exact Hinv|].
  intros Hops Hle. specialize (Hfull Hops).
  assert (forall s st, m_maxParticles s = maxParticles ->
            Forall (fun s' => m_maxParticles s' = maxParticles /\ capacity_ok s') st ->
            Forall (fun p => full_stays_full (fst p) (snd p)) (steps s st) ->
            Forall (fun p => m_numParticles (fst p) = maxParticles ->
                             m_numParticles (snd p) = m_numParticles (fst p))
                   (steps s st)) as Gen.
  { intros s st. revert s. induction st as [|s1 st IH]; intros s Es Hst Hf; simpl.
    - constructor.
    - simpl in Hf. inversion Hf as [|? ? Hf1 Hf2]; subst.
      inversion Hst as [|? ? [E1 _] Hst']; subst.
      constructor.
      + simpl in *. intros Hn. apply Hf1; lia.
      + apply IH; auto. }
  apply Gen; auto.
Qed.

End CapacityFacts.

(** ** Admission past capacity *)

Section AdmissionFacts.

Variables SOLID FLUID RIGID : Z.
Variable numColors : Z.
Variable colors : Z -> float3.
Variable RAND_MAX : Z.
Variable rand_seq : nat -> Z.
Variable kernel : KernelCall -> Device -> Device.

Lemma rope_loop startI start spacing dist n : forall i pos indicesD dists,
  for_loop n i (rope_body startI start spacing dist) (pos, indicesD, dists)
  = (pos ++ ((fun i => make_float4_3 (f3add start (f3scale (F32.of_Z i) spacing)) F32.one)
               <$> seqZ i (Z.of_nat n)),
     indicesD ++ ((fun i => make_uint2 (to_uint (startI + i - 1)) (to_uint (startI + i)))
                    <$> seqZ i (Z.of_nat n)),
     dists ++ replicate n dist).
Proof.
  induction n as [|n IH]; intros i pos indicesD dists.
  - simpl. rewrite !app_nil_r. reflexivity.
  - cbn [for_loop rope_body]. rewrite IH.
    rewrite (seqZ_cons i (Z.of_nat (S n))) by lia.
    replace (Z.pred (Z.of_nat (S n))) with (Z.of_nat n) by lia.
    replace (Z.succ i) with (i + 1) by lia.
    simpl. rewrite <- !app_assoc. reflexivity.
Qed.

Lemma zip_links (g : Z -> uint2) dist (l : list Z) :
  zip_with Build_DistanceConstraint (g <$> l) (replicate (length l) dist)
  = (fun i => {| dc_index := g i; dc_dist := dist |}) <$> l.
Proof. induction l as [|x l IH]; csimpl; [reflexivity|]. f_equal. exact IH. Qed.

(** The constraint arrays [addRope] hands to [addDistanceConstraint]. *)
Lemma rope_constraints startI start spacing dist numLinks pos indicesD dists :
  0 <= numLinks ->
  for_loop (Z.to_nat numLinks) 1 (rope_body startI start spacing dist)
           ([make_float4_3 start F32.one], [], []) = (pos, indicesD, dists) ->
  take (Z.to_nat numLinks) (zip_with Build_DistanceConstraint indicesD dists)
  = rope_links startI dist numLinks.
Proof.
  intros Hn. rewrite rope_loop. intros [= <- <- <-]. simpl.
  rewrite Z2Nat.id by exact Hn.
  pose proof (length_seqZ 1 numLinks) as L. rewrite <- L.
  rewrite zip_links. unfold rope_links.
  apply take_ge. rewrite length_fmap. lia.
Qed.



Lemma take_replicate_all {A : Type} n (x : A) :
  take n (replicate n x) = replicate n x.
Proof. apply take_ge. rewrite length_replicate. lia. Qed.

(** What [addRope] does when its batch is admitted. *)
Lemma addRope_admitted start spacing dist numLinks mass constrainStart s :
  0 <= numLinks < INT_MAX ->
  to_uint (m_numParticles s + (numLinks + 1)) < m_maxParticles s ->
  exists s',
    addRope RIGID numColors colors rand_seq start spacing dist numLinks mass
            constrainStart s = Some s'
    /\ m_numParticles s' = to_uint (m_numParticles s + (numLinks + 1))
    /\ d_vel (gpu s') = d_vel (gpu s) ++ replicate (Z.to_nat (numLinks + 1)) zero4
    /\ d_ro (gpu s') = d_ro (gpu s) ++ replicate (Z.to_nat (numLinks + 1)) F32.one
    /\ d_phase (gpu s')
       = d_phase (gpu s)
         ++ replicate (Z.to_nat (numLinks + 1)) (to_int (RIGID + m_rigidIndex s))
    /\ d_W (gpu s')
       = d_W (gpu s) ++ replicate (Z.to_nat (numLinks + 1)) (F32.div F32.one mass)
    /\ d_distance (gpu s')
       = d_distance (gpu s) ++ rope_links (m_numParticles s) dist numLinks
    /\ d_point (gpu s')
       = d_point (gpu s)
         ++ (if constrainStart then [pin (m_numParticles s) start] else [])
    /\ calls s'
       = calls s
         ++ [UnregisterGLBufferObject;
             GLBufferSubData (to_uint (m_numParticles s * 4) * 4)
                             (to_int ((numLinks + 1) * 4) * 4);
             RegisterGLBufferObject;
             AppendIntegrationParticle (numLinks + 1);
             AppendPhaseAndMass (numLinks + 1);
             AppendSolverParticle (numLinks + 1);
             AddDistanceConstraint numLinks]
         ++ (if constrainStart then [AddPointConstraint 1] else []).
Proof.
  intros Hn Hroom. unfold addRope.
  rewrite (proj2 (Z.leb_le 0 numLinks)) by lia.
  assert (in_int (numLinks + 1) = true) as ->.
  { unfold in_int, INT_MIN, INT_MAX in *. apply andb_true_iff.
    rewrite !Z.leb_le. lia. }
  cbn [negb andb].
  destruct (for_loop _ _ _ _) as [[pos indicesD] dists] eqn:L.
  apply rope_constraints in L; [|lia].
  unfold addParticleMultiple.
  rewrite (proj2 (Z.leb_gt _ _) Hroom).
  eexists. split; [reflexivity|].
  destruct constrainStart; simpl; rewrite L, ?app_nil_r, !take_replicate_all;
    repeat split; try reflexivity; rewrite <- !app_assoc; reflexivity.
Qed.

(** With room for more than the batch, a rope of five links of rest
    length 1 started at the origin with [constrainStart] admits six
    particles, appends the five distance constraints that join consecutive
    particles, each of rest length 1, and appends one point constraint
    that pins the rope's first particle to the origin. *)
Theorem rope_of_five_links spacing mass s :
  0 <= m_numParticles s ->
  m_numParticles s + 6 < m_maxParticles s ->
  m_maxParticles s <= UINT_MOD ->
  let n := m_numParticles s in
  let origin := make_float3 F32.zero F32.zero F32.zero in
  exists s',
    addRope RIGID numColors colors rand_seq origin spacing F32.one 5 mass true s = Some s'
    /\ m_numParticles s' = n + 6
    /\ d_vel (gpu s') = d_vel (gpu s) ++ replicate 6 zero4
    /\ d_ro (gpu s') = d_ro (gpu s) ++ replicate 6 F32.one
    /\ d_phase (gpu s') = d_phase (gpu s) ++ replicate 6 (to_int (RIGID + m_rigidIndex s))
    /\ d_W (gpu s') = d_W (gpu s) ++ replicate 6 (F32.div F32.one mass)
    /\ d_distance (gpu s')
       = d_distance (gpu s)
         ++ [link n (n + 1) F32.one; link (n + 1) (n + 2) F32.one;
             link (n + 2) (n + 3) F32.one; link (n + 3) (n + 4) F32.one;
             link (n + 4) (n + 5) F32.one]
    /\ d_point (gpu s') = d_point (gpu s) ++ [pin n origin]
    /\ calls s'
       = calls s
         ++ [UnregisterGLBufferObject; GLBufferSubData (to_uint (n * 4) * 4) 96;
             RegisterGLBufferObject; AppendIntegrationParticle 6;
             AppendPhaseAndMass 6; AppendSolverParticle 6;
             AddDistanceConstraint 5; AddPointConstraint 1].
Proof.
  intros H0 Hroom Hmax n origin.
  assert (forall k, 0 <= k <= 6 -> to_uint (n + k) = n + k) as U.
  { intros k Hk. apply to_uint_small. subst n. lia. }
  destruct (addRope_admitted origin spacing F32.one 5 mass true s)
    as (s' & E & Hnum & Hvel & Hro & Hphase & HW & Hdist & Hpoint & Hcalls).
  { unfold INT_MAX. lia. }
  { fold n. change (5 + 1) with 6. rewrite U; lia. }
  exists s'. split; [exact E|].
  change (5 + 1) with 6 in *. change (Z.to_nat 6) with 6%nat in *.
  fold n in Hnum, Hdist, Hpoint, Hcalls. rewrite U in Hnum by lia.
  repeat split; try assumption.
  rewrite Hdist. f_equal. unfold rope_links.
  change (seqZ 1 5) with [1; 2; 3; 4; 5]. cbn [fmap list_fmap].
  replace (n + 1 - 1) with (n + 0) by lia.
  replace (n + 2 - 1) with (n + 1) by lia.
  replace (n + 3 - 1) with (n + 2) by lia.
  replace (n + 4 - 1) with (n + 3) by lia.
  replace (n + 5 - 1) with (n + 4) by lia.
  rewrite !U by lia. replace (n + 0) with n by lia. reflexivity.
Qed.

End AdmissionFacts.

(** ** The order of the phases of a step *)

Section UpdateFacts.

Variables SOLID FLUID : Z.
Variable kernel : KernelCall -> Device -> Device.

Lemma solver_phases_host s s' :
  host_view s = host_view s' -> solver_phases s = solver_phases s'.
Proof.
  unfold host_view, solver_phases. intros H.
  injection H as _ _ _ -> _ -> _ _ -> -> _ _ _ _ _ _ _. reflexivity.
Qed.

Lemma solver_iteration_calls s :
  calls (solver_iteration kernel s) = calls s ++ solver_phases s
  /\ host_view (solver_iteration kernel s) = host_view s.
Proof.
  split; [|reflexivity].
  unfold solver_iteration, solver_phases. simpl.
  rewrite <- !app_assoc. reflexivity.
Qed.

Lemma solver_loop_calls n : forall i s,
  calls (for_loop n i (fun _ => solver_iteration kernel) s)
  = calls s ++ concat (replicate n (solver_phases s))
  /\ host_view (for_loop n i (fun _ => solver_iteration kernel) s) = host_view s.
Proof.
  induction n as [|n IH]; intros i s.
  - simpl. rewrite app_nil_r. auto.
  - cbn [for_loop replicate concat].
    destruct (solver_iteration_calls s) as [C H].
    destruct (IH (i + 1) (solver_iteration kernel s)) as [C' H'].
    rewrite C', H', C. rewrite (solver_phases_host _ _ H).
    rewrite <- app_assoc. auto.
Qed.

Lemma admits_only_refl s : admits_only s s.
Proof. exists []. rewrite app_nil_r. auto. Qed.

Lemma admits_only_trans s1 s2 s3 :
  admits_only s1 s2 -> admits_only s2 s3 -> admits_only s1 s3.
Proof.
  intros (l1 & E1 & F1) (l2 & E2 & F2). exists (l1 ++ l2). split.
  - rewrite E2, E1, app_assoc. reflexivity.
  - apply Forall_app. auto.
Qed.

Lemma addParticle_admits pos vel mass ro phase s :
  admits_only s (addParticle pos vel mass ro phase s).
Proof.
  unfold addParticle. destruct (m_numParticles s =? m_maxParticles s).
  - apply admits_only_refl.
  - eexists. split.
    + simpl. rewrite <- !app_assoc. reflexivity.
    + repeat constructor.
Qed.

Lemma addParticles_admits s : admits_only s (addParticles SOLID s).
Proof.
  unfold addParticles. destruct (m_particlesToAdd s) eqn:E; [apply admits_only_refl|].
  clear E.
  match goal with |- admits_only _ (addParticles_loop _ ?k _) => generalize k end.
  intros size. revert s. induction size as [|size IH]; intros s; simpl.
  - apply admits_only_refl.
  - destruct (m_particlesToAdd s) as [|pos [|vel rest]]; try apply admits_only_refl.
    eapply admits_only_trans; [|apply IH].
    apply (addParticle_admits _ _ _ _ _ (set_particlesToAdd rest s)).
Qed.

Lemma addFluids_admits s : admits_only s (addFluids FLUID s).
Proof.
  unfold addFluids. destruct (m_fluidsToAdd s) eqn:E; [apply admits_only_refl|].
  clear E.
  match goal with
  | |- admits_only _ (let '(_, _) := addFluids_loop _ ?k _ _ in _) => generalize k
  end.
  intros size.
  assert (forall color s0, admits_only s0 (snd (addFluids_loop FLUID size color s0))) as L.
  { induction size as [|size IH]; intros color s0; simpl.
    - apply admits_only_refl.
    - destruct (m_fluidsToAdd s0) as [|pos [|color' rest]]; try apply admits_only_refl.
      eapply admits_only_trans; [|apply IH].
      apply (addParticle_admits _ _ _ _ _ (set_fluidsToAdd rest s0)). }
  specialize (L zero4 s).
  destruct (addFluids_loop FLUID size zero4 s) as [color s1]. exact L.
Qed.

Lemma addNewStuff_admits s : admits_only s (addNewStuff SOLID FLUID s).
Proof.
  unfold addNewStuff.
  eapply admits_only_trans; [apply addParticles_admits | apply addFluids_admits].
Qed.

(** C4: a step on a store that is not empty issues, in this order and
    nothing else: the predict-integrate launch (after mapping the buffer
    and refreshing the constants); [solverIterations] rounds of the eight
    launches of [solver_phases]; the velocity launch and the unmapping.
    Up to there the queues and the particle count are untouched; the
    queues are drained on the state so reached, and all admission calls
    come after it. *)
Theorem update_phase_order deltaTime s :
  m_initialized s = true ->
  m_numParticles s <> 0 ->
  let dt := F32.min deltaTime F32.c_0_05 in
  let n := m_numParticles s in
  let rounds := Z.to_nat (to_uint (m_solverIterations s)) in
  exists solved admission,
    update SOLID FLUID kernel deltaTime s = Some (addNewStuff SOLID FLUID solved)
    /\ calls solved
       = calls s
         ++ [MapGLBufferObject; Launch (SetParameters (m_params s));
             Launch (IntegrateSystem dt n)]
         ++ concat (replicate rounds (solver_phases s))
         ++ [Launch (CalcVelocity dt n); UnmapGLBufferObject]
    /\ m_particlesToAdd solved = m_particlesToAdd s
    /\ m_fluidsToAdd solved = m_fluidsToAdd s
    /\ m_numParticles solved = m_numParticles s
    /\ calls (addNewStuff SOLID FLUID solved) = calls solved ++ admission
    /\ Forall (fun c => is_admission_call c = true) admission.
Proof.
  intros Hinit Hn dt n rounds.
  unfold update. rewrite Hinit. cbn [negb].
  rewrite (proj2 (Z.eqb_neq _ _) Hn).
  match goal with
  | |- exists _ _, Some (addNewStuff _ _ ?x) = _ /\ _ => set (solved := x)
  end.
  destruct (addNewStuff_admits solved) as (admission & Ecalls & Hadm).
  exists solved, admission.
  split; [reflexivity|].
  assert (calls solved
          = calls s
            ++ [MapGLBufferObject; Launch (SetParameters (m_params s));
                Launch (IntegrateSystem dt n)]
            ++ concat (replicate rounds (solver_phases s))
            ++ [Launch (CalcVelocity dt n); UnmapGLBufferObject]
          /\ host_view solved = host_view s) as [Hcalls Hhost].
  { subst solved.
    match goal with
    | |- calls (issue _ (launch _ _ (for_loop ?k ?i _ ?x))) = _ /\ _ =>
        destruct (solver_loop_calls k i x) as [C H]; set (looped := for_loop k i _ x) in *
    end.
    assert (host_view looped = host_view s) as H' by exact H.
    split.
    - simpl. rewrite C. simpl.
      assert (m_numParticles looped = n) as ->.
      { unfold host_view in H'. injection H' as _ _ _ -> _ _ _ _ _ _ _ _ _ _ _ _ _.
        reflexivity. }
      rewrite (solver_phases_host _ s) by reflexivity.
      rewrite <- !app_assoc. reflexivity.
    - exact H'. }
  split; [exact Hcalls|].
  unfold host_view in Hhost.
  injection Hhost as _ _ _ E1 _ _ _ _ _ _ _ _ E2 E3 _ _ _.
  auto.
Qed.


(** At or above the bound, [std::min] returns the bound itself. *)
Lemma min_clamped deltaTime :
  F32.leb F32.c_0_05 deltaTime = true ->
  F32.min deltaTime F32.c_0_05 = F32.c_0_05.
Proof.
  unfold F32.min, F32.leb, F32.ltb, SFleb, SFltb, F32.c_0_05.
  destruct deltaTime as [sg|sg| |sg m e];
    cbn -[Z.compare Pos.compare_cont]; try discriminate.
  - destruct sg; [discriminate|reflexivity].
  - destruct sg; [discriminate|].
    destruct (Z.compare_spec (-28) e) as [E|L|G]; try discriminate; try reflexivity.
    destruct (Pos.compare_cont Eq 13421773 m) eqn:C; try discriminate; try reflexivity.
    intros _. apply Pos.compare_eq in C. subst. reflexivity.
Qed.

(** C6: a step with a time step of at least [0.05f] is the step with
    [0.05f].  The binary32 numbers not below the real number 0.05 are
    those not below [0.05f], its nearest binary32 neighbour. *)
Theorem update_clamps_timestep deltaTime s :
  F32.leb F32.c_0_05 deltaTime = true ->
  update SOLID FLUID kernel deltaTime s = update SOLID FLUID kernel F32.c_0_05 s.
Proof.
  intros H. unfold update.
  rewrite (min_clamped deltaTime H).
  rewrite (min_clamped F32.c_0_05) by reflexivity.
  reflexivity.
Qed.

End UpdateFacts.

(** ** Inverse mass *)

Section MassFacts.

Variable SOLID : Z.
Variable numColors : Z.
Variable colors : Z -> float3.
Variable RAND_MAX : Z.
Variable rand_seq : nat -> Z.

Lemma inverse_of_zero sg : F32.div F32.one (S754_zero sg) = S754_infinity sg.
Proof. destruct sg; reflexivity. Qed.

Lemma addParticle_stores_inverse pos vel mass ro phase s :
  m_numParticles s <> m_maxParticles s ->
  d_W (gpu (addParticle pos vel mass ro phase s)) = d_W (gpu s) ++ [F32.div F32.one mass]
  /\ m_numParticles (addParticle pos vel mass ro phase s) = to_uint (m_numParticles s + 1).
Proof.
  intros H. unfold addParticle.
  rewrite (proj2 (Z.eqb_neq _ _) H). split; reflexivity.
Qed.

Lemma setParticleToAdd_queue pos vel mass s :
  exists p,
    m_particlesToAdd (setParticleToAdd numColors colors RAND_MAX rand_seq pos vel mass s)
    = m_particlesToAdd s ++ [p; make_float4_3 vel mass]
    /\ gpu (setParticleToAdd numColors colors RAND_MAX rand_seq pos vel mass s) = gpu s
    /\ same_counts s (setParticleToAdd numColors colors RAND_MAX rand_seq pos vel mass s).
Proof. eexists. repeat split; reflexivity. Qed.

(** Draining a queue that holds one particle admits that particle. *)
Lemma addParticles_single pos vel s :
  m_particlesToAdd s = [pos; vel] ->
  addParticles SOLID s
  = addParticle pos (make_float4 (f4x vel) (f4y vel) (f4z vel) F32.zero)
                (f4w vel) F32.c_1_5 SOLID (set_particlesToAdd [] s).
Proof.
  intros Hq. unfold addParticles. rewrite Hq. cbn [length].
  change (Z.to_nat (to_uint (Z.of_nat 2 / 2))) with 1%nat.
  cbn [addParticles_loop]. rewrite Hq. reflexivity.
Qed.

(** C10: single-particle admission stores [1 / mass] unchecked.  With
    room in the store, a particle of mass zero (of either sign) is
    admitted, and the inverse mass stored for it is an infinity; the same
    holds for a zero-mass particle that travels through the insertion
    queue. *)
Theorem zero_mass_stores_infinity sg :
  F32.is_finite (S754_infinity sg) = false
  /\ (forall pos vel ro phase s,
       m_numParticles s <> m_maxParticles s ->
       let s' := addParticle pos vel (S754_zero sg) ro phase s in
       d_W (gpu s') = d_W (gpu s) ++ [S754_infinity sg]
       /\ m_numParticles s' = to_uint (m_numParticles s + 1))
  /\ (forall pos vel s,
       m_particlesToAdd s = [] ->
       m_numParticles s <> m_maxParticles s ->
       let s' := addParticles SOLID
                   (setParticleToAdd numColors colors RAND_MAX rand_seq
                                     pos vel (S754_zero sg) s) in
       d_W (gpu s') = d_W (gpu s) ++ [S754_infinity sg]
       /\ m_numParticles s' = to_uint (m_numParticles s + 1)
       /\ m_particlesToAdd s' = []).
Proof.
  split; [reflexivity|]. split.
  - intros pos vel ro phase s H s'. subst s'.
    rewrite <- inverse_of_zero. apply addParticle_stores_inverse. exact H.
  - intros pos vel s Hq H s'. subst s'.
    destruct (setParticleToAdd_queue pos vel (S754_zero sg) s) as (p & Q & G & Emax & Enum).
    set (queued := setParticleToAdd _ _ _ _ _ _ _ s) in *.
    rewrite Hq in Q. cbn [app] in Q.
    rewrite (addParticles_single _ _ _ Q).
    set (popped := set_particlesToAdd [] queued).
    assert (m_numParticles popped <> m_maxParticles popped) as H'.
    { subst popped. cbn. congruence. }
    destruct (addParticle_stores_inverse p
      (make_float4 (f4x (make_float4_3 vel (S754_zero sg)))
                   (f4y (make_float4_3 vel (S754_zero sg)))
                   (f4z (make_float4_3 vel (S754_zero sg))) F32.zero)
      (f4w (make_float4_3 vel (S754_zero sg))) F32.c_1_5 SOLID popped H') as [W N].
    rewrite W, N. cbn [f4w make_float4_3]. rewrite inverse_of_zero.
    subst popped. cbn [gpu set_particlesToAdd m_numParticles]. rewrite G, Enum.
    repeat split.
    unfold addParticle. rewrite (proj2 (Z.eqb_neq _ _) H'). reflexivity.
Qed.

End MassFacts.

(** ** Fluid groups *)

Section FluidGroupFacts.

Variable FLUID : Z.
Variable RAND_MAX : Z.
Variable rand_seq : nat -> Z.

(** Admission leaves queues and colour groups alone. *)
Lemma addParticle_groups pos vel mass ro phase s :
  let s' := addParticle pos vel mass ro phase s in
  m_colorIndex s' = m_colorIndex s /\ m_colors s' = m_colors s
  /\ m_fluidsToAdd s' = m_fluidsToAdd s.
Proof.
  unfold addParticle. destruct (m_numParticles s =? m_maxParticles s);
    repeat split; reflexivity.
Qed.

Lemma addFluids_loop_drains samples : forall rest color s,
  m_fluidsToAdd s = fluid_queue samples ++ rest ->
  let r := addFluids_loop FLUID (length samples) color s in
  fst r = default color (snd <$> last samples)
  /\ m_fluidsToAdd (snd r) = rest
  /\ m_colorIndex (snd r) = m_colorIndex s
  /\ m_colors (snd r) = m_colors s.
Proof.
  induction samples as [|[pos c] samples IH]; intros rest color s Hq.
  - simpl. auto.
  - cbn [length addFluids_loop]. rewrite Hq. cbn [fluid_queue flat_map fst snd app].
    set (s1 := addParticle _ _ _ _ _ _).
    destruct (addParticle_groups (make_float4_3 (make_float3_4 pos) F32.one)
                (make_float4 F32.zero F32.neg_one F32.zero F32.zero)
                (f4w pos) (f4w c) FLUID
                (set_fluidsToAdd (flat_map (fun sample => [fst sample; snd sample]) samples
                                  ++ rest) s)) as (G1 & G2 & G3).
    fold s1 in G1, G2, G3. cbn in G1, G2, G3.
    destruct (IH rest c s1 G3) as (R1 & R2 & R3 & R4).
    repeat split; try congruence.
    rewrite R1. destruct samples as [|x samples']; [reflexivity|].
    cbn [last]. destruct (last (x :: samples')) eqn:E; [reflexivity|].
    apply last_None in E. discriminate.
Qed.

Lemma fluid_queue_length samples :
  length (fluid_queue samples) = (2 * length samples)%nat.
Proof.
  induction samples as [|x l IH]; [reflexivity|].
  cbn [fluid_queue flat_map app length]. unfold fluid_queue in IH. rewrite IH. lia.
Qed.

(** C9, as the code has it: each call of the fluid volume builder and
    each drain of a non-empty fluid queue appends exactly one group.  Its
    range runs from the particle count before the call to the count after
    it, so it covers the particles that call admitted.  The builder's
    group carries the builder's colour; the drain's group carries the
    colour of the last queued sample, whatever the colours of the samples
    before it. *)
Theorem one_group_per_fluid_call :
  (forall ll ur mass density color s s',
      addFluid FLUID RAND_MAX rand_seq ll ur mass density color s = Some s' ->
      m_colorIndex s'
      = m_colorIndex s ++ [make_int2 (to_int (m_numParticles s))
                                     (to_int (m_numParticles s'))]
      /\ m_colors s' = m_colors s ++ [make_float4_3 color F32.one])
  /\ (forall samples pos color s,
      m_fluidsToAdd s = fluid_queue (samples ++ [(pos, color)]) ->
      Z.of_nat (length samples) + 1 < UINT_MOD ->
      let s' := addFluids FLUID s in
      m_colorIndex s'
      = m_colorIndex s ++ [make_int2 (to_int (m_numParticles s))
                                     (to_int (m_numParticles s'))]
      /\ m_colors s' = m_colors s ++ [make_float4_3 (make_float3_4 color) F32.one]
      /\ m_fluidsToAdd s' = []).
Proof.
  split.
  - intros ll ur mass density color s s'. unfold addFluid. intros H.
    destruct (make_count3 _ _ _) as [count|]; [|discriminate]. cbn [mbind option_bind] in H.
    pose proof (lattice_fill_counts RAND_MAX rand_seq ll count
      (F32.mul (m_particleRadius s) F32.c_2_5)
      (F32.mul (m_particleRadius s) F32.c_0_01) s) as Hc.
    assert (m_colorIndex (snd (lattice_fill RAND_MAX rand_seq ll count
              (F32.mul (m_particleRadius s) F32.c_2_5)
              (F32.mul (m_particleRadius s) F32.c_0_01) s)) = m_colorIndex s
            /\ m_colors (snd (lattice_fill RAND_MAX rand_seq ll count
              (F32.mul (m_particleRadius s) F32.c_2_5)
              (F32.mul (m_particleRadius s) F32.c_0_01) s)) = m_colors s) as [C1 C2].
    { unfold lattice_fill.
      apply (for_loop_invariant
               (fun acc => m_colorIndex (snd acc) = m_colorIndex s
                           /\ m_colors (snd acc) = m_colors s)); [|auto].
      intros z a Ha.
      apply (for_loop_invariant
               (fun acc => m_colorIndex (snd acc) = m_colorIndex s
                           /\ m_colors (snd acc) = m_colors s)); [|exact Ha].
      intros y a' Ha'.
      apply (for_loop_invariant
               (fun acc => m_colorIndex (snd acc) = m_colorIndex s
                           /\ m_colors (snd acc) = m_colors s)); [|exact Ha'].
      intros x [pos0 s0] H0. exact H0. }
    destruct (lattice_fill _ _ _ _ _ _ _) as [pos s1]. cbn [snd] in C1, C2.
    destruct (usable_count3 count && array_filled _ pos); [|discriminate].
    cbn [negb] in H. injection H as <-.
    unfold addParticleMultiple.
    destruct (m_maxParticles s1 <=? _); cbn; rewrite C1, C2; auto.
  - intros samples pos color s Hq Hlen s'. subst s'. unfold addFluids.
    pose proof (fluid_queue_length (samples ++ [(pos, color)])) as L.
    rewrite <- Hq in L. rewrite length_app in L. cbn [length] in L.
    destruct (m_fluidsToAdd s) as [|q0 q] eqn:E.
    { cbn [length] in L. lia. }
    rewrite <- E in *. clear E q0 q.
    assert (Z.to_nat (to_uint (Z.of_nat (length (m_fluidsToAdd s)) / 2))
            = length (samples ++ [(pos, color)])) as ->.
    { rewrite L, length_app. cbn [length].
      replace (Z.of_nat (2 * (length samples + 1))) with ((Z.of_nat (length samples) + 1) * 2) by lia.
      rewrite Z.div_mul by lia. rewrite to_uint_small by lia. lia. }
    pose proof (addFluids_loop_drains (samples ++ [(pos, color)]) [] zero4 s) as D.
    rewrite app_nil_r in D. specialize (D Hq). cbn zeta in D.
    destruct (addFluids_loop FLUID _ zero4 s) as [c s1].
    cbn [fst snd] in D. destruct D as (D1 & D2 & D3 & D4).
    rewrite last_snoc in D1. cbn in D1. subst c.
    cbn. rewrite D2, D3, D4. auto.
Qed.

End FluidGroupFacts.

(** ** Jitter *)

Section JitterFacts.

Variables SOLID FLUID RIGID : Z.
Variable numColors : Z.
Variable colors : Z -> float3.
Variable RAND_MAX : Z.
Variable rand_seq : nat -> Z.

Lemma jitter_sites_app ll d j l1 : forall l2 k,
  jitter_sites RAND_MAX rand_seq ll d j (l1 ++ l2) k
  = jitter_sites RAND_MAX rand_seq ll d j l1 k
    ++ jitter_sites RAND_MAX rand_seq ll d j l2 (3 * length l1 + k).
Proof.
  induction l1 as [|[[x y] z] l1 IH]; intros l2 k; [reflexivity|].
  cbn [app jitter_sites length]. rewrite IH. do 3 f_equal. lia.
Qed.

Lemma seqZ_succ i n : seqZ i (Z.of_nat (S n)) = i :: seqZ (i + 1) (Z.of_nat n).
Proof.
  rewrite seqZ_cons by lia. f_equal. f_equal; lia.
Qed.

(** The innermost loop fills one row. *)
Lemma lattice_row ll d j z y n : forall i pos s,
  for_loop n i (lattice_body RAND_MAX rand_seq ll d j z y) (pos, s)
  = (pos ++ jitter_sites RAND_MAX rand_seq ll d j
              ((fun x => (x, y, z)) <$> seqZ i (Z.of_nat n)) (rand_calls s),
     Nat.iter (3 * n) tick_rand s).
Proof.
  induction n as [|n IH]; intros i pos s.
  - cbn. rewrite app_nil_r. reflexivity.
  - cbn [for_loop].
    change (lattice_body RAND_MAX rand_seq ll d j z y i (pos, s))
      with (pos ++ jitter_sites RAND_MAX rand_seq ll d j [(i, y, z)] (rand_calls s),
            Nat.iter 3 tick_rand s).
    rewrite IH, seqZ_succ, rand_calls_iter, <- app_assoc.
    replace (3 * S n)%nat with (3 * n + 3)%nat by lia. rewrite Nat.iter_add.
    reflexivity.
Qed.

(** The middle loop fills one plane, row after row. *)
Lemma lattice_plane ll d j z nx n : forall i pos s,
  for_loop n i (fun y => for_loop nx 0 (lattice_body RAND_MAX rand_seq ll d j z y)) (pos, s)
  = (pos ++ jitter_sites RAND_MAX rand_seq ll d j
              (y ← seqZ i (Z.of_nat n); (fun x => (x, y, z)) <$> seqZ 0 (Z.of_nat nx))
              (rand_calls s),
     Nat.iter (3 * (n * nx)) tick_rand s).
Proof.
  induction n as [|n IH]; intros i pos s.
  - cbn. rewrite app_nil_r. reflexivity.
  - cbn [for_loop]. rewrite lattice_row, IH, seqZ_succ, rand_calls_iter.
    cbn [mbind list_bind]. rewrite jitter_sites_app, length_fmap, length_seqZ, Nat2Z.id.
    rewrite <- app_assoc.
    replace (3 * (S n * nx))%nat with (3 * (n * nx) + 3 * nx)%nat by lia.
    rewrite Nat.iter_add. reflexivity.
Qed.

Lemma lattice_plane_length (z : Z) nx ny (i : Z) :
  length (y ← seqZ i (Z.of_nat ny); (fun x => (x, y, z)) <$> seqZ 0 (Z.of_nat nx))
  = (ny * nx)%nat.
Proof.
  revert i. induction ny as [|ny IH]; intros i; [reflexivity|].
  rewrite seqZ_succ. cbn [mbind list_bind].
  rewrite length_app, IH, length_fmap, length_seqZ, Nat2Z.id. lia.
Qed.

(** The loop nest of [addFluid] and [addParticleGrid] produces the
    jittered lattice, and costs three draws per site. *)
Lemma lattice_fill_sites ll count d j s :
  lattice_fill RAND_MAX rand_seq ll count d j s
  = (jitter_sites RAND_MAX rand_seq ll d j (lattice_sites count) (rand_calls s),
     Nat.iter (3 * length (lattice_sites count)) tick_rand s).
Proof.
  unfold lattice_fill, lattice_sites.
  set (nx := Z.to_nat (i3x count)). set (ny := Z.to_nat (i3y count)).
  set (nz := Z.to_nat (i3z count)).
  assert (forall m k, seqZ m k = seqZ m (Z.of_nat (Z.to_nat k))) as Q.
  { intros m k. unfold seqZ. rewrite Nat2Z.id. reflexivity. }
  rewrite (Q 0 (i3x count)), (Q 0 (i3y count)), (Q 0 (i3z count)).
  fold nx ny nz.
  assert (forall n i pos s0,
    for_loop n i (fun z => for_loop ny 0 (fun y =>
        for_loop nx 0 (lattice_body RAND_MAX rand_seq ll d j z y))) (pos, s0)
    = (pos ++ jitter_sites RAND_MAX rand_seq ll d j
                (z ← seqZ i (Z.of_nat n); y ← seqZ 0 (Z.of_nat ny);
                 (fun x => (x, y, z)) <$> seqZ 0 (Z.of_nat nx)) (rand_calls s0),
       Nat.iter (3 * length (z ← seqZ i (Z.of_nat n); y ← seqZ 0 (Z.of_nat ny);
                             (fun x => (x, y, z)) <$> seqZ 0 (Z.of_nat nx)))
                tick_rand s0)) as G.
  { induction n as [|n IH]; intros i pos s0.
    - cbn. rewrite app_nil_r. reflexivity.
    - cbn [for_loop]. rewrite lattice_plane, IH, seqZ_succ, rand_calls_iter.
      cbn [mbind list_bind].
      rewrite jitter_sites_app, length_app, lattice_plane_length, <- app_assoc.
      rewrite <- Nat.iter_add. do 2 f_equal. lia. }
  rewrite G. reflexivity.
Qed.

Lemma cloth_body_pos start ll count spacing dist holdEdges z x a :
  c_pos (cloth_body start ll count spacing dist holdEdges z x a)
  = c_pos a ++ [make_float4 (lattice_coord (i2x ll) x (f3x spacing)) (f3y spacing)
                            (lattice_coord (i2y ll) z (f3z spacing)) F32.one].
Proof.
  unfold cloth_body.
  destruct (0 <? x), (0 <? z), holdEdges, (x =? i2x count - 1), (z =? i2y count - 1);
    reflexivity.
Qed.

Lemma cloth_row_pos start ll count spacing dist holdEdges z n : forall i a,
  c_pos (for_loop n i (cloth_body start ll count spacing dist holdEdges z) a)
  = c_pos a
    ++ ((fun x => make_float4 (lattice_coord (i2x ll) x (f3x spacing)) (f3y spacing)
                              (lattice_coord (i2y ll) z (f3z spacing)) F32.one)
        <$> seqZ i (Z.of_nat n)).
Proof.
  induction n as [|n IH]; intros i a.
  - cbn. rewrite app_nil_r. reflexivity.
  - cbn [for_loop]. rewrite IH, cloth_body_pos, seqZ_succ, <- app_assoc. reflexivity.
Qed.

(** The loop nest of [addHorizCloth] writes the plain sheet into [pos]. *)
Lemma cloth_fill_pos start ll cx cy spacing dist holdEdges a :
  c_pos (for_loop (Z.to_nat cy) 0 (fun z =>
           for_loop (Z.to_nat cx) 0
             (cloth_body start ll (make_int2 cx cy) spacing dist holdEdges z)) a)
  = c_pos a ++ plain_cloth ll (make_int2 cx cy) spacing.
Proof.
  unfold plain_cloth. cbn [i2x i2y].
  assert (forall m k, seqZ m k = seqZ m (Z.of_nat (Z.to_nat k))) as Q.
  { intros m k. unfold seqZ. rewrite Nat2Z.id. reflexivity. }
  rewrite (Q 0 cx), (Q 0 cy).
  set (nx := Z.to_nat cx). generalize (Z.to_nat cy). intros ny.
  assert (forall n i a0,
    c_pos (for_loop n i (fun z =>
             for_loop nx 0 (cloth_body start ll (make_int2 cx cy) spacing dist holdEdges z)) a0)
    = c_pos a0
      ++ (z ← seqZ i (Z.of_nat n);
          (fun x => make_float4 (lattice_coord (i2x ll) x (f3x spacing)) (f3y spacing)
                                (lattice_coord (i2y ll) z (f3z spacing)) F32.one)
          <$> seqZ 0 (Z.of_nat nx))) as G.
  { induction n as [|n IH]; intros i a0.
    - cbn. rewrite app_nil_r. reflexivity.
    - cbn [for_loop]. rewrite IH, cloth_row_pos, seqZ_succ, <- app_assoc. reflexivity. }
  apply G.
Qed.

Lemma to_int_small z : INT_MIN <= z <= INT_MAX -> to_int z = z.
Proof.
  unfold to_int, INT_MIN, INT_MAX, UINT_MOD. intros H.
  rewrite Z.mod_small; lia.
Qed.

(** An admitted batch lands in the buffer right behind the particles that
    were there. *)
Lemma batch_positions pos vel mass ro phase n s :
  buffer_ok s ->
  Z.of_nat (length pos) = n ->
  n <= INT_MAX ->
  m_numParticles (addParticleMultiple pos vel mass ro phase n s) <> m_numParticles s ->
  admitted_positions s (addParticleMultiple pos vel mass ro phase n s) = pos.
Proof.
  intros ((H0 & Hcap) & Hlen & Hmax) Hpos Hn.
  unfold admitted_positions, addParticleMultiple.
  destruct (Z.leb_spec (m_maxParticles s) (to_uint (m_numParticles s + n))) as [D|A];
    [intros C; exfalso; apply C; reflexivity|].
  intros _. unfold UINT_MOD, INT_MAX in *.
  assert (0 <= n) as Hn0 by lia.
  rewrite to_uint_small in A by (unfold UINT_MOD; lia).
  cbn [m_numParticles set_numParticles appendSolverParticle appendPhaseAndMass
       appendIntegrationParticle issue set_gpu gpu posVbo glBufferSubData with_posVbo].
  rewrite (to_uint_small (m_numParticles s + n)) by (unfold UINT_MOD; lia).
  rewrite (to_uint_small (m_numParticles s * 4)) by (unfold UINT_MOD; lia).
  rewrite (to_int_small (n * 4)) by (unfold INT_MIN, INT_MAX; lia).
  unfold buffer_write.
  assert ((0 <=? m_numParticles s * 4 * 4) && (0 <=? n * 4 * 4)
          && (m_numParticles s * 4 * 4 + n * 4 * 4
              <=? 16 * Z.of_nat (length (posVbo (gpu s)))) = true) as ->.
  { rewrite !andb_true_iff, !Z.leb_le. lia. }
  replace (m_numParticles s * 4 * 4 / 16) with (m_numParticles s)
    by (apply Z.div_unique_exact; lia).
  replace (n * 4 * 4 / 16) with n by (apply Z.div_unique_exact; lia).
  replace (m_numParticles s + n - m_numParticles s) with n by lia.
  rewrite drop_app_length' by (rewrite length_take; lia).
  rewrite take_app_length' by (rewrite length_take; lia).
  apply take_ge. lia.
Qed.

(** The same, seen from a builder: bookkeeping before and after the batch
    does not touch the buffer. *)
Lemma builder_positions s s1 s' pos vel mass ro phase n :
  buffer_ok s ->
  gpu s1 = gpu s -> same_counts s s1 ->
  posVbo (gpu s') = posVbo (gpu (addParticleMultiple pos vel mass ro phase n s1)) ->
  m_numParticles s' = m_numParticles (addParticleMultiple pos vel mass ro phase n s1) ->
  Z.of_nat (length pos) = n ->
  n <= INT_MAX ->
  m_numParticles s' <> m_numParticles s ->
  admitted_positions s s' = pos.
Proof.
  intros Hok G [Cmax Cnum] Hvbo Hnum Hpos Hn Hadm.
  assert (buffer_ok s1) as Hok1.
  { unfold buffer_ok in *. rewrite G, Cmax, Cnum. exact Hok. }
  rewrite <- (batch_positions pos vel mass ro phase n s1 Hok1 Hpos Hn) by congruence.
  unfold admitted_positions. rewrite Hvbo, Hnum, Cnum. reflexivity.
Qed.

Lemma zero_amplitude v f :
  F32.is_finite f = true ->
  F32.add v (F32.mul f F32.zero) = v
  \/ exists a b, v = S754_zero a /\ F32.add v (F32.mul f F32.zero) = S754_zero b.
Proof.
  intros Hf.
  destruct f as [sf|sf| |sf mf ef]; try discriminate;
    destruct v as [sv|sv| |sv mv ev];
    try (left; reflexivity);
    right; exists sv; destruct sf, sv; eexists; split; reflexivity.
Qed.

(** C8, as the code has it.  For a batch that is admitted into a sound
    buffer: the fluid volume fill displaces every coordinate of every
    lattice site by [(2 * frand() - 1) * 0.01f * particleRadius]; the
    uniform grid fill does so only when [addJitter] is set and otherwise
    uses the amplitude zero; the cloth sheet is the plain lattice.  A
    displacement of amplitude zero leaves a coordinate as it is (a zero
    stays a zero) whenever [2 * frand() - 1] is finite. *)
Theorem jitter_by_builder :
  (forall ll ur mass density color s s',
      buffer_ok s ->
      addFluid FLUID RAND_MAX rand_seq ll ur mass density color s = Some s' ->
      m_numParticles s' <> m_numParticles s ->
      let distance := F32.mul (m_particleRadius s) F32.c_2_5 in
      let jitter := F32.mul (m_particleRadius s) F32.c_0_01 in
      exists count,
        make_count3 ll ur distance = Some count
        /\ admitted_positions s s'
           = jitter_sites RAND_MAX rand_seq ll distance jitter
                          (lattice_sites count) (rand_calls s))
  /\ (forall ll ur mass addJitter s s',
      buffer_ok s ->
      addParticleGrid SOLID numColors colors RAND_MAX rand_seq ll ur mass addJitter s
      = Some s' ->
      m_numParticles s' <> m_numParticles s ->
      let distance := F32.mul (m_particleRadius s) F32.c_2_002 in
      let jitter := if addJitter then F32.mul (m_particleRadius s) F32.c_0_01
                    else F32.zero in
      exists count,
        make_count3 ll ur distance = Some count
        /\ admitted_positions s s'
           = jitter_sites RAND_MAX rand_seq ll distance jitter
                          (lattice_sites count) (rand_calls s))
  /\ (forall ll ur spacing dist mass holdEdges s s',
      buffer_ok s ->
      addHorizCloth RIGID numColors colors rand_seq ll ur spacing dist mass holdEdges s
      = Some s' ->
      m_numParticles s' <> m_numParticles s ->
      exists cx cy,
        axis_count (i2x ll) (i2x ur) (f3x spacing) = Some cx
        /\ axis_count (i2y ll) (i2y ur) (f3z spacing) = Some cy
        /\ admitted_positions s s' = plain_cloth ll (make_int2 cx cy) spacing)
  /\ (forall v u,
      F32.is_finite (F32.sub (F32.mul u F32.two) F32.one) = true ->
      displace v F32.zero u = v
      \/ exists a b, v = S754_zero a /\ displace v F32.zero u = S754_zero b).
Proof.
  split; [|split; [|split]].
  - intros ll ur mass density color s s' Hok H Hadm distance jitter.
    unfold addFluid in H. fold distance jitter in H.
    destruct (make_count3 ll ur distance) as [count|]; [|discriminate].
    cbn [mbind option_bind] in H. rewrite lattice_fill_sites in H.
    cbv beta iota zeta in H.
    destruct (usable_count3 count) eqn:U; [|discriminate].
    destruct (array_filled _ _) eqn:AF; [|discriminate].
    cbn [negb andb] in H. injection H as <-.
    exists count. split; [reflexivity|].
    apply andb_true_iff in U as [_ U]. apply in_int_bounds in U.
    apply array_filled_size in AF as [_ AF].
    eapply builder_positions;
      [exact Hok | apply gpu_iter | apply same_counts_iter | reflexivity | reflexivity
      | exact AF | apply U | exact Hadm].
  - intros ll ur mass addJitter s s' Hok H Hadm distance jitter.
    unfold addParticleGrid in H. fold distance jitter in H.
    destruct (make_count3 ll ur distance) as [count|]; [|discriminate].
    cbn [mbind option_bind] in H. rewrite lattice_fill_sites in H.
    cbv beta iota zeta in H.
    destruct (usable_count3 count) eqn:U; [|discriminate].
    destruct (array_filled _ _) eqn:AF; [|discriminate].
    cbn [negb andb] in H. injection H as <-.
    exists count. split; [reflexivity|].
    apply andb_true_iff in U as [_ U]. apply in_int_bounds in U.
    apply array_filled_size in AF as [_ AF].
    eapply builder_positions;
      [exact Hok | apply gpu_iter | apply same_counts_iter | reflexivity | reflexivity
      | exact AF | apply U | exact Hadm].
  - intros ll ur spacing dist mass holdEdges s s' Hok H Hadm.
    unfold addHorizCloth in H.
    destruct (axis_count (i2x ll) (i2x ur) (f3x spacing)) as [cx|]; [|discriminate].
    cbn [mbind option_bind] in H.
    destruct (axis_count (i2y ll) (i2y ur) (f3z spacing)) as [cy|]; [|discriminate].
    cbn [mbind option_bind] in H. cbv zeta in H.
    match type of H with
    | (if negb (in_int _ && array_filled _ (c_pos ?a) && _ && _) then _ else _) = _ =>
        pose proof (cloth_fill_pos (to_int (m_numParticles s)) ll cx cy spacing dist holdEdges
                      {| c_pos := []; c_indicesP := []; c_points := [];
                         c_indicesD := []; c_dists := [] |}) as Hfill;
        set (arrays := a) in *
    end.
    cbn [c_pos app] in Hfill.
    destruct (in_int (cx * cy)) eqn:U; [|discriminate].
    destruct (array_filled (cx * cy) (c_pos arrays)) eqn:AF; [|discriminate].
    destruct (array_filled _ (c_dists arrays)); [|discriminate].
    destruct (array_filled _ (c_indicesP arrays)); [|discriminate].
    cbn [negb andb] in H. apply (inj Some) in H. subst s'.
    exists cx, cy. split; [reflexivity|]. split; [reflexivity|].
    apply in_int_bounds in U. apply array_filled_size in AF as [_ AF].
    rewrite <- Hfill.
    eapply builder_positions;
      [exact Hok | reflexivity | apply same_counts_refl | reflexivity | reflexivity
      | exact AF | apply U | exact Hadm].
  - intros v u Hf. unfold displace. apply zero_amplitude. exact Hf.
Qed.

End JitterFacts.

(** ** The code on the sample platform *)

(** C2: a batch that fits the free capacity exactly is dropped.  On an
    empty engine of capacity 6 the sum [0 + 6] does not exceed 6, yet
    neither a batch of six particles nor the five-link rope is admitted,
    while six single admissions fill the same engine to its capacity. *)
Theorem batch_exact_fit_dropped :
  let s := Sample.engine 6 in
  let six {A : Type} (x : A) := replicate 6 x in
  (m_numParticles s + 6 >? m_maxParticles s) = false
  /\ addParticleMultiple (six Sample.still) (six zero4) (six F32.one) (six F32.one)
                         (six Sample.SOLID) 6 s = s
  /\ option_map m_numParticles (Sample.rope 5 s) = Some 0
  /\ m_numParticles (Nat.iter 6 Sample.add_still s) = 6.
Proof. vm_compute. repeat split; reflexivity. Qed.

(** C5: the scripted rope is dropped at an exact fit.  An empty engine of
    capacity 6 has the six free slots a rope of five links needs, and six
    single admissions do fill it; yet [addRope] with start (0,0,0), five
    links of rest length 1 and [constrainStart] admits no particle there,
    while its five distance constraints and its pin are appended all the
    same.  With one slot more the rope is admitted whole: six particles,
    five links, one pin.  The batch guard compares with [>=], as for C2. *)
Theorem rope_exact_fit_dropped :
  let s := Sample.engine 6 in
  m_maxParticles s - m_numParticles s = 6
  /\ (exists s',
        Sample.rope 5 s = Some s'
        /\ m_numParticles s' = 0
        /\ particle_store s' = particle_store s
        /\ d_distance (gpu s') = rope_links 0 F32.one 5
        /\ d_point (gpu s') = [pin 0 Sample.origin])
  /\ m_numParticles (Nat.iter 6 Sample.add_still s) = 6
  /\ (exists s',
        Sample.rope 5 (Sample.engine 7) = Some s'
        /\ m_numParticles s' = 6
        /\ length (d_W (gpu s')) = 6%nat
        /\ d_distance (gpu s') = rope_links 0 F32.one 5
        /\ d_point (gpu s') = [pin 0 Sample.origin]).
Proof.
  split; [vm_compute; reflexivity|].
  split; [eexists; split; [vm_compute; reflexivity|]; vm_compute; repeat split; reflexivity|].
  split; [vm_compute; reflexivity|].
  eexists. split; [vm_compute; reflexivity|]. vm_compute. repeat split; reflexivity.
Qed.


(** C7: the count along an axis is the truncated quotient, not its
    ceiling.  For particles of radius 0.5 the fluid fill spaces them 1.25
    apart; over an extent of 2 the code counts 1 where [ceil(2 / 1.25)] is
    2, and fills the cube from (0,0,0) to (2,2,2) with a single particle. *)
Theorem axis_count_truncates :
  let distance := F32.mul F32.c_0_5 F32.c_2_5 in
  axis_count 0 2 distance = Some 1
  /\ ceil_quotient (2 - 0) distance = Some 2
  /\ option_map m_numParticles
       (addFluid Sample.FLUID Sample.RAND_MAX Sample.rand_seq
                 (make_int3 0 0 0) (make_int3 2 2 2) F32.one F32.one Sample.red
                 (Sample.engine 100)) = Some 1.
Proof. vm_compute. repeat split; reflexivity. Qed.

(** C9 fails on the code: a red and a green fluid sample, queued on an
    empty engine and drained by the same step, end up in one group that
    spans both particles and is green; no group carries the red. *)
Lemma fluid_samples_share_one_group :
  let queued :=
    setFluidToAdd Sample.unit_x Sample.green F32.one F32.one
      (setFluidToAdd Sample.origin Sample.red F32.one F32.one (Sample.engine 10)) in
  exists s',
    Sample.step F32.c_0_01 queued = Some s'
    /\ m_numParticles s' = 2
    /\ m_colorIndex s' = [make_int2 0 2]
    /\ m_colors s' = [make_float4_3 Sample.green F32.one].
Proof. eexists. split; [vm_compute; reflexivity|]. vm_compute. repeat split; reflexivity. Qed.

(** ** The theorems at work on the sample platform *)

Ltac evaluate :=
  vm_compute; repeat split;
  first [ reflexivity | discriminate | (intros ?; discriminate) ].

Lemma capacity_invariant_witness :
  exists states,
    Sample.run Sample.session (Sample.engine 2) = Some states
    /\ length states = 12%nat
    /\ Forall (fun s => m_maxParticles s = 2 /\ 0 <= m_numParticles s <= m_maxParticles s) states
    /\ Forall (fun p => m_numParticles (fst p) = 2 ->
                        m_numParticles (snd p) = m_numParticles (fst p))
              (steps (Sample.engine 2) states).
Proof.
  destruct (Sample.run Sample.session (Sample.engine 2)) as [states|] eqn:E;
    [|vm_compute in E; discriminate].
  exists states. split; [reflexivity|]. split.
  - revert E. generalize states. vm_compute. intros ? [= <-]. reflexivity.
  - assert (0 <= 2) as H by lia.
    destruct (capacity_invariant Sample.SOLID Sample.FLUID Sample.RIGID Sample.numColors
                Sample.colors Sample.RAND_MAX Sample.rand_seq Sample.kernel
                F32.c_0_5 (make_uint3 4 4 4) 2 (make_int3 0 0 0) (make_int3 4 4 4) 3
                Sample.session states H E) as [Inv Full].
    split; [exact Inv|]. apply Full.
    + unfold Sample.session. repeat constructor; unfold INT_MAX; lia.
    + lia.
Defined.


Lemma update_phase_order_witness :
  let s := Sample.add_still (Sample.engine 10) in
  exists solved,
    Sample.step F32.c_0_01 s = Some (addNewStuff Sample.SOLID Sample.FLUID solved)
    /\ length (calls solved) = (length (calls s) + (3 + 3 * 8 + 2))%nat
    /\ m_numParticles solved = 1.
Proof.
  intros s.
  destruct (update_phase_order Sample.SOLID Sample.FLUID Sample.kernel F32.c_0_01 s)
    as (solved & admission & E & Calls & _ & _ & Num & _ & _); [evaluate | evaluate |].
  exists solved. split; [exact E|]. split.
  - rewrite Calls, !length_app. vm_compute. reflexivity.
  - rewrite Num. reflexivity.
Defined.

Lemma rope_of_five_links_witness :
  exists s',
    Sample.rope 5 (Sample.engine 10) = Some s'
    /\ m_numParticles s' = 6
    /\ length (d_distance (gpu s')) = 5%nat
    /\ d_point (gpu s') = [pin 0 Sample.origin].
Proof.
  destruct (rope_of_five_links Sample.RIGID Sample.numColors Sample.colors Sample.rand_seq
              Sample.unit_x F32.one (Sample.engine 10))
    as (s' & E & Num & _ & _ & _ & _ & Dist & Point & _); [evaluate | evaluate | evaluate |].
  exists s'. split; [exact E|]. split; [exact Num|]. split.
  - rewrite Dist. reflexivity.
  - rewrite Point. reflexivity.
Defined.

Lemma update_clamps_timestep_witness :
  let s := Sample.add_still (Sample.engine 10) in
  Sample.step (F32.of_Z 10) s = Sample.step F32.c_0_05 s.
Proof.
  intros s.
  apply (update_clamps_timestep Sample.SOLID Sample.FLUID Sample.kernel (F32.of_Z 10) s).
  reflexivity.
Defined.

Lemma one_group_per_fluid_call_witness :
  (exists s',
      addFluid Sample.FLUID Sample.RAND_MAX Sample.rand_seq
               (make_int3 0 0 0) (make_int3 2 2 2) F32.one F32.one Sample.red
               (Sample.engine 10) = Some s'
      /\ m_colorIndex s' = [make_int2 0 1]
      /\ m_colors s' = [make_float4_3 Sample.red F32.one])
  /\ (let s := setFluidToAdd Sample.unit_x Sample.green F32.one F32.one
                 (setFluidToAdd Sample.origin Sample.red F32.one F32.one (Sample.engine 10)) in
      m_colorIndex (addFluids Sample.FLUID s) = [make_int2 0 2]
      /\ m_colors (addFluids Sample.FLUID s) = [make_float4_3 Sample.green F32.one]).
Proof.
  destruct (one_group_per_fluid_call Sample.FLUID Sample.RAND_MAX Sample.rand_seq)
    as [Builder Drain].
  split.
  - destruct (addFluid Sample.FLUID Sample.RAND_MAX Sample.rand_seq
                (make_int3 0 0 0) (make_int3 2 2 2) F32.one F32.one Sample.red
                (Sample.engine 10)) as [s'|] eqn:E; [|vm_compute in E; discriminate].
    exists s'. split; [reflexivity|].
    destruct (Builder _ _ _ _ _ _ _ E) as [Index Colors].
    rewrite Index, Colors.
    assert (Some (m_numParticles s') = Some 1) as [= ->].
    { pose proof (f_equal (option_map m_numParticles) E) as G.
      vm_compute in G. symmetry. exact G. }
    split; reflexivity.
  - intros s.
    destruct (Drain [(make_float4_3 Sample.origin F32.one, make_float4_3 Sample.red F32.one)]
                (make_float4_3 Sample.unit_x F32.one) (make_float4_3 Sample.green F32.one) s)
      as (Index & Colors & _); [reflexivity | evaluate |].
    rewrite Index, Colors. split; vm_compute; reflexivity.
Defined.

Lemma zero_mass_stores_infinity_witness :
  let s := Sample.engine 10 in
  d_W (gpu (addParticle Sample.still zero4 F32.zero F32.one Sample.SOLID s))
  = [S754_infinity false]
  /\ d_W (gpu (addParticles Sample.SOLID
                 (setParticleToAdd Sample.numColors Sample.colors Sample.RAND_MAX
                                   Sample.rand_seq Sample.origin Sample.origin
                                   (S754_zero true) s)))
     = [S754_infinity true].
Proof.
  intros s. split.
  - destruct (zero_mass_stores_infinity Sample.SOLID Sample.numColors Sample.colors
                Sample.RAND_MAX Sample.rand_seq false) as (_ & Single & _).
    destruct (Single Sample.still zero4 F32.one Sample.SOLID s) as [W _]; [evaluate|].
    exact W.
  - destruct (zero_mass_stores_infinity Sample.SOLID Sample.numColors Sample.colors
                Sample.RAND_MAX Sample.rand_seq true) as (_ & _ & Queue).
    destruct (Queue Sample.origin Sample.origin s) as (W & _ & _); [reflexivity | evaluate |].
    exact W.
Defined.

(** C8 fails on the code: a uniform grid fill without [addJitter], for
    particles of radius 0.5 over the cube from (0,0,0) to (3,3,3), writes
    the eight corners of the plain lattice of spacing 1.001, exactly; and
    the cloth sheet is a plain lattice whatever its arguments. *)
Lemma grid_without_jitter_is_plain :
  let distance := F32.mul F32.c_0_5 F32.c_2_002 in
  exists grid sheet,
    addParticleGrid Sample.SOLID Sample.numColors Sample.colors Sample.RAND_MAX
                    Sample.rand_seq (make_int3 0 0 0) (make_int3 3 3 3) F32.one false
                    (Sample.engine 10) = Some grid
    /\ m_numParticles grid = 8
    /\ admitted_positions (Sample.engine 10) grid
       = plain_lattice (make_int3 0 0 0) (make_int3 2 2 2) distance
    /\ addHorizCloth Sample.RIGID Sample.numColors Sample.colors Sample.rand_seq
                     (make_int2 0 0) (make_int2 3 2) (make_float3 F32.one F32.one F32.one)
                     (make_float2 F32.one F32.one) F32.one false
                     (Sample.engine 10) = Some sheet
    /\ m_numParticles sheet = 6
    /\ admitted_positions (Sample.engine 10) sheet
       = plain_cloth (make_int2 0 0) (make_int2 3 2) (make_float3 F32.one F32.one F32.one).
Proof.
  intros distance. eexists. eexists.
  split; [vm_compute; reflexivity|].
  split; [vm_compute; reflexivity|].
  split; [vm_compute; reflexivity|].
  split; [vm_compute; reflexivity|].
  split; vm_compute; reflexivity.
Qed.

Lemma jitter_by_builder_witness :
  (exists fluid,
      addFluid Sample.FLUID Sample.RAND_MAX Sample.rand_seq
               (make_int3 0 0 0) (make_int3 3 3 3) F32.one F32.one Sample.red
               (Sample.engine 10) = Some fluid
      /\ admitted_positions (Sample.engine 10) fluid
         = jitter_sites Sample.RAND_MAX Sample.rand_seq (make_int3 0 0 0)
                        (F32.mul F32.c_0_5 F32.c_2_5) (F32.mul F32.c_0_5 F32.c_0_01)
                        (lattice_sites (make_int3 2 2 2)) 0)
  /\ (exists grid,
      addParticleGrid Sample.SOLID Sample.numColors Sample.colors Sample.RAND_MAX
                      Sample.rand_seq (make_int3 0 0 0) (make_int3 3 3 3) F32.one false
                      (Sample.engine 10) = Some grid
      /\ admitted_positions (Sample.engine 10) grid
         = jitter_sites Sample.RAND_MAX Sample.rand_seq (make_int3 0 0 0)
                        (F32.mul F32.c_0_5 F32.c_2_002) F32.zero
                        (lattice_sites (make_int3 2 2 2)) 0)
  /\ (exists sheet,
      addHorizCloth Sample.RIGID Sample.numColors Sample.colors Sample.rand_seq
                    (make_int2 0 0) (make_int2 3 2) (make_float3 F32.one F32.one F32.one)
                    (make_float2 F32.one F32.one) F32.one true
                    (Sample.engine 10) = Some sheet
      /\ admitted_positions (Sample.engine 10) sheet
         = plain_cloth (make_int2 0 0) (make_int2 3 2)
                       (make_float3 F32.one F32.one F32.one))
  /\ (displace F32.one F32.zero (draw Sample.RAND_MAX Sample.rand_seq 0) = F32.one
      \/ exists a b, F32.one = S754_zero a
                     /\ displace F32.one F32.zero (draw Sample.RAND_MAX Sample.rand_seq 0)
                        = S754_zero b).
Proof.
  destruct (jitter_by_builder Sample.SOLID Sample.FLUID Sample.RIGID Sample.numColors
              Sample.colors Sample.RAND_MAX Sample.rand_seq)
    as (Fluid & Grid & Cloth & Zero).
  assert (buffer_ok (Sample.engine 10)) as Hok by evaluate.
  split; [|split; [|split]].
  - destruct (addFluid Sample.FLUID Sample.RAND_MAX Sample.rand_seq
                (make_int3 0 0 0) (make_int3 3 3 3) F32.one F32.one Sample.red
                (Sample.engine 10)) as [fluid|] eqn:E; [|vm_compute in E; discriminate].
    exists fluid. split; [reflexivity|].
    destruct (Fluid _ _ _ _ _ _ _ Hok E) as (count & Ecount & Epos).
    { pose proof (f_equal (option_map m_numParticles) E) as G. vm_compute in G.
      assert (m_numParticles fluid = 8) as N by (symmetry; apply (inj Some); exact G).
      rewrite N. evaluate. }
    vm_compute in Ecount. injection Ecount as <-. exact Epos.
  - destruct (addParticleGrid Sample.SOLID Sample.numColors Sample.colors Sample.RAND_MAX
                Sample.rand_seq (make_int3 0 0 0) (make_int3 3 3 3) F32.one false
                (Sample.engine 10)) as [grid|] eqn:E; [|vm_compute in E; discriminate].
    exists grid. split; [reflexivity|].
    destruct (Grid _ _ _ _ _ _ Hok E) as (count & Ecount & Epos).
    { pose proof (f_equal (option_map m_numParticles) E) as G. vm_compute in G.
      assert (m_numParticles grid = 8) as N by (symmetry; apply (inj Some); exact G).
      rewrite N. evaluate. }
    vm_compute in Ecount. injection Ecount as <-. exact Epos.
  - destruct (addHorizCloth Sample.RIGID Sample.numColors Sample.colors Sample.rand_seq
                (make_int2 0 0) (make_int2 3 2) (make_float3 F32.one F32.one F32.one)
                (make_float2 F32.one F32.one) F32.one true
                (Sample.engine 10)) as [sheet|] eqn:E; [|vm_compute in E; discriminate].
    exists sheet. split; [reflexivity|].
    destruct (Cloth _ _ _ _ _ _ _ _ Hok E) as (cx & cy & Ex & Ey & Epos).
    { pose proof (f_equal (option_map m_numParticles) E) as G. vm_compute in G.
      assert (m_numParticles sheet = 6) as N by (symmetry; apply (inj Some); exact G).
      rewrite N. evaluate. }
    vm_compute in Ex, Ey. injection Ex as <-. injection Ey as <-. exact Epos.
  - apply Zero. reflexivity.
Defined.

(** * Further properties of the engine *)

(** ** The position buffer *)

(** A write of [k] positions at slot [a] that lies inside the buffer
    replaces those slots and nothing else. *)
Lemma buffer_write_at a k data buf :
  0 <= a -> 0 <= k -> a + k <= Z.of_nat (length buf) ->
  buffer_write (a * 16) (k * 16) data buf
  = take (Z.to_nat a) buf ++ take (Z.to_nat k) data ++ drop (Z.to_nat a + Z.to_nat k) buf.
Proof.
  intros Ha Hk Hfit. unfold buffer_write.
  assert ((0 <=? a * 16) && (0 <=? k * 16)
          && (a * 16 + k * 16 <=? 16 * Z.of_nat (length buf)) = true) as ->.
  { apply andb_true_iff. split; [apply andb_true_iff; split|]; apply Z.leb_le; lia. }
  rewrite !Z.div_mul by lia. reflexivity.
Qed.

Lemma buffer_write_outside offset size data buf :
  16 * Z.of_nat (length buf) < offset + size ->
  buffer_write offset size data buf = buf.
Proof.
  intros H. unfold buffer_write.
  assert ((offset + size <=? 16 * Z.of_nat (length buf)) = false) as ->
    by (apply Z.leb_gt; exact H).
  rewrite andb_false_r. reflexivity.
Qed.

Lemma buffer_write_length offset size data buf :
  size / 16 <= Z.of_nat (length data) ->
  length (buffer_write offset size data buf) = length buf.
Proof.
  intros Hdata. unfold buffer_write.
  destruct ((0 <=? offset) && (0 <=? size)
            && (offset + size <=? 16 * Z.of_nat (length buf))) eqn:C; [|reflexivity].
  apply andb_true_iff in C as [C C3]. apply andb_true_iff in C as [C1 C2].
  apply Z.leb_le in C1, C2, C3.
  assert (0 <= offset / 16) by (apply Z.div_pos; lia).
  assert (0 <= size / 16) by (apply Z.div_pos; lia).
  assert (offset / 16 + size / 16 <= Z.of_nat (length buf)).
  { assert (16 * (offset / 16) <= offset) by (apply Z.mul_div_le; lia).
    assert (16 * (size / 16) <= size) by (apply Z.mul_div_le; lia). lia. }
  rewrite !length_app, !length_take, length_drop. lia.
Qed.

(** ** The sound store is kept *)

Section StoreFacts.

Variables SOLID FLUID RIGID : Z.
Variable numColors : Z.
Variable colors : Z -> float3.
Variable RAND_MAX : Z.
Variable rand_seq : nat -> Z.
Variable kernel : KernelCall -> Device -> Device.

Lemma same_store_refl s : same_store s s.
Proof. split; [split|]; reflexivity. Qed.

Lemma same_store_trans s1 s2 s3 :
  same_store s1 s2 -> same_store s2 s3 -> same_store s1 s3.
Proof.
  intros [[A1 A2] A3] [[B1 B2] B3]. split; [split|]; congruence.
Qed.

Lemma store_ok_same s s' : store_ok s -> same_store s s' -> store_ok s'.
Proof.
  intros (((H0 & H1) & Hlen & Hmax) & V & R & P & W & S) [[Cmax Cnum] Sz].
  unfold sizes in Sz. injection Sz as E1 E2 E3 E4 E5 E6.
  unfold store_ok, buffer_ok. rewrite Cmax, Cnum, E1, E2, E3, E4, E5, E6.
  repeat split; assumption.
Qed.

(** With room in a sound buffer, a single admission writes the position
    into the first free slot and touches no other slot, appends velocity,
    rest density, phase and inverse mass to the per-particle vectors, and
    counts one particle more. *)
Lemma addParticle_room pos vel mass ro phase s :
  buffer_ok s ->
  m_numParticles s <> m_maxParticles s ->
  let n := Z.to_nat (m_numParticles s) in
  let s' := addParticle pos vel mass ro phase s in
  m_numParticles s' = m_numParticles s + 1
  /\ posVbo (gpu s') = take n (posVbo (gpu s)) ++ [pos] ++ drop (S n) (posVbo (gpu s))
  /\ posVbo (gpu s') !! n = Some pos
  /\ d_vel (gpu s') = d_vel (gpu s) ++ [vel]
  /\ d_ro (gpu s') = d_ro (gpu s) ++ [ro]
  /\ d_phase (gpu s') = d_phase (gpu s) ++ [phase]
  /\ d_W (gpu s') = d_W (gpu s) ++ [F32.div F32.one mass]
  /\ d_solver (gpu s') = d_solver (gpu s) + 1.
Proof.
  intros ((H0 & H1) & Hlen & Hmax) Hroom n s'. subst s'. unfold addParticle.
  rewrite (proj2 (Z.eqb_neq _ _) Hroom). unfold UINT_MOD in *.
  cbn [m_numParticles set_numParticles appendSolverParticle appendPhaseAndMass
       appendIntegrationParticle issue set_gpu gpu posVbo glBufferSubData with_posVbo
       d_vel d_ro d_phase d_W d_solver].
  rewrite (to_uint_small (m_numParticles s + 1)) by (unfold UINT_MOD; lia).
  rewrite (to_uint_small (m_numParticles s * 4)) by (unfold UINT_MOD; lia).
  replace (m_numParticles s * 4 * 4) with (m_numParticles s * 16) by lia.
  change (4 * 4) with (1 * 16).
  rewrite buffer_write_at by lia.
  change (Z.to_nat 1) with 1%nat. fold n. replace (n + 1)%nat with (S n) by lia.
  assert (take 1 [pos] = [pos]) as -> by reflexivity.
  repeat split; try reflexivity.
  rewrite lookup_app_r by (rewrite length_take; lia).
  rewrite length_take. replace (n - n `min` length (posVbo (gpu s)))%nat with 0%nat by lia.
  reflexivity.
Qed.

(** What a batch admission does to a sound buffer: it is dropped when the
    batch would fill the store or more, and otherwise written behind the
    particles in place. *)
Lemma addParticleMultiple_cases pos vel mass ro phase n s :
  buffer_ok s ->
  0 <= n <= INT_MAX ->
  let s' := addParticleMultiple pos vel mass ro phase n s in
  (m_maxParticles s <= m_numParticles s + n /\ s' = s)
  \/ (m_numParticles s + n < m_maxParticles s
      /\ m_numParticles s' = m_numParticles s + n
      /\ m_maxParticles s' = m_maxParticles s
      /\ posVbo (gpu s') = buffer_write (m_numParticles s * 16) (n * 16) pos (posVbo (gpu s))
      /\ d_vel (gpu s') = d_vel (gpu s) ++ take (Z.to_nat n) vel
      /\ d_ro (gpu s') = d_ro (gpu s) ++ take (Z.to_nat n) ro
      /\ d_phase (gpu s') = d_phase (gpu s) ++ take (Z.to_nat n) phase
      /\ d_W (gpu s') = d_W (gpu s) ++ take (Z.to_nat n) mass
      /\ d_solver (gpu s') = d_solver (gpu s) + n
      /\ d_distance (gpu s') = d_distance (gpu s)
      /\ d_point (gpu s') = d_point (gpu s)).
Proof.
  intros ((H0 & H1) & Hlen & Hmax) Hn s'. subst s'. unfold addParticleMultiple.
  unfold UINT_MOD, INT_MAX in *.
  rewrite (to_uint_small (m_numParticles s + n)) by (unfold UINT_MOD; lia).
  destruct (Z.leb_spec (m_maxParticles s) (m_numParticles s + n)) as [D|A].
  - left. auto.
  - right.
    cbn [m_numParticles m_maxParticles set_numParticles appendSolverParticle
         appendPhaseAndMass appendIntegrationParticle issue set_gpu gpu posVbo
         glBufferSubData with_posVbo d_vel d_ro d_phase d_W d_solver d_distance d_point].
    rewrite (to_uint_small (m_numParticles s + n)) by (unfold UINT_MOD; lia).
    rewrite (to_uint_small (m_numParticles s * 4)) by (unfold UINT_MOD; lia).
    rewrite (to_int_small (n * 4)) by (unfold INT_MIN, INT_MAX; lia).
    replace (m_numParticles s * 4 * 4) with (m_numParticles s * 16) by lia.
    replace (n * 4 * 4) with (n * 16) by lia.
    repeat split; try reflexivity; lia.
Qed.

Lemma addParticle_store pos vel mass ro phase s :
  store_ok s -> store_ok (addParticle pos vel mass ro phase s).
Proof.
  intros Hs.
  destruct (Z.eq_dec (m_numParticles s) (m_maxParticles s)) as [F|R].
  - rewrite addParticle_full by exact F. exact Hs.
  - destruct Hs as (Hb & V & Ro & P & W & S).
    destruct (addParticle_room pos vel mass ro phase s Hb R)
      as (N & B & _ & V' & Ro' & P' & W' & S').
    assert (m_maxParticles (addParticle pos vel mass ro phase s) = m_maxParticles s) as M
      by apply addParticle_keeps.
    destruct Hb as ((H0 & H1) & Hlen & Hmax).
    unfold store_ok, buffer_ok.
    rewrite N, M, B, V', Ro', P', W', S', !length_app, length_take, length_drop.
    cbn [length]. repeat split; lia.
Qed.

(** X2: with room in a sound store, a single admission puts the particle
    into the first free slot: position, velocity, rest density, phase and
    the inverse of the mass are found under the old particle count in their
    arrays, and no other slot of the position buffer changes. *)
Theorem addParticle_writes_slot pos vel mass ro phase s :
  store_ok s ->
  m_numParticles s <> m_maxParticles s ->
  let n := Z.to_nat (m_numParticles s) in
  let s' := addParticle pos vel mass ro phase s in
  m_numParticles s' = m_numParticles s + 1
  /\ posVbo (gpu s') !! n = Some pos
  /\ d_vel (gpu s') !! n = Some vel
  /\ d_ro (gpu s') !! n = Some ro
  /\ d_phase (gpu s') !! n = Some phase
  /\ d_W (gpu s') !! n = Some (F32.div F32.one mass)
  /\ forall i : nat, i <> n -> posVbo (gpu s') !! i = posVbo (gpu s) !! i.
Proof.
  intros (Hb & Lv & Lr & Lp & Lw & _) Room n s'.
  destruct (addParticle_room pos vel mass ro phase s Hb Room)
    as (N & B & B0 & V & R & P & W & _).
  fold n s' in N, B, B0, V, R, P, W.
  destruct Hb as ((H0 & H1) & Hlen & Hmax).
  assert (forall (A : Type) (l : list A) (x : A),
            Z.of_nat (length l) = m_numParticles s -> (l ++ [x]) !! n = Some x) as Last.
  { intros A l x Hl. rewrite lookup_app_r by lia.
    replace (n - length l)%nat with 0%nat by lia. reflexivity. }
  rewrite V, R, P, W, !Last by assumption.
  split; [exact N|]. split; [exact B0|]. repeat split.
  intros i Hi. rewrite B.
  assert (length (take n (posVbo (gpu s))) = n) as La by (rewrite length_take; lia).
  destruct (Nat.lt_ge_cases i n) as [Lt|Ge].
  - rewrite lookup_app_l by lia. apply lookup_take_lt. exact Lt.
  - rewrite lookup_app_r by lia. rewrite La.
    rewrite lookup_app_r by (cbn [length]; lia). cbn [length].
    rewrite lookup_drop. f_equal. lia.
Qed.

Lemma addParticleMultiple_store pos vel mass ro phase n s :
  store_ok s ->
  0 <= n <= INT_MAX ->
  n <= Z.of_nat (length pos) -> n <= Z.of_nat (length vel) ->
  n <= Z.of_nat (length mass) -> n <= Z.of_nat (length ro) ->
  n <= Z.of_nat (length phase) ->
  store_ok (addParticleMultiple pos vel mass ro phase n s).
Proof.
  intros Hs Hn Lp Lv Lm Lr Lph.
  destruct Hs as (Hb & V & Ro & P & W & S).
  destruct (addParticleMultiple_cases pos vel mass ro phase n s Hb Hn)
    as [[_ ->]|(A & N & M & B & V' & Ro' & P' & W' & S' & _)].
  - repeat split; try assumption; apply Hb.
  - destruct Hb as ((H0 & H1) & Hlen & Hmax).
    unfold store_ok, buffer_ok.
    rewrite N, M, B, V', Ro', P', W', S', !length_app, !length_take.
    rewrite buffer_write_length by (rewrite Z.div_mul by lia; lia).
    repeat split; lia.
Qed.

Lemma around_batch_store s s1 s' pos vel mass ro phase n :
  store_ok s ->
  same_store s s1 ->
  same_store (addParticleMultiple pos vel mass ro phase n s1) s' ->
  0 <= n <= INT_MAX ->
  n <= Z.of_nat (length pos) -> n <= Z.of_nat (length vel) ->
  n <= Z.of_nat (length mass) -> n <= Z.of_nat (length ro) ->
  n <= Z.of_nat (length phase) ->
  store_ok s'.
Proof.
  intros Hs H1 H2 Hn Lp Lv Lm Lr Lph.
  eapply store_ok_same; [|exact H2].
  apply addParticleMultiple_store; try assumption.
  eapply store_ok_same; [exact Hs|exact H1].
Qed.

Lemma addParticles_store s : store_ok s -> store_ok (addParticles SOLID s).
Proof.
  unfold addParticles. destruct (m_particlesToAdd s) eqn:E; [auto|]. clear E.
  match goal with |- _ -> store_ok (addParticles_loop _ ?k _) => generalize k end.
  intros size. revert s. induction size as [|size IH]; intros s Hs; cbn [addParticles_loop].
  - exact Hs.
  - destruct (m_particlesToAdd s) as [|pos [|vel rest]]; try exact Hs.
    apply IH. apply addParticle_store.
    eapply store_ok_same; [exact Hs|]. split; [split|]; reflexivity.
Qed.

Lemma addFluids_store s : store_ok s -> store_ok (addFluids FLUID s).
Proof.
  unfold addFluids. destruct (m_fluidsToAdd s) eqn:E; [auto|]. clear E.
  match goal with
  | |- _ -> store_ok (let '(_, _) := addFluids_loop _ ?k _ _ in _) => generalize k
  end.
  intros size Hs.
  assert (forall color s0, store_ok s0 ->
            store_ok (snd (addFluids_loop FLUID size color s0))) as L.
  { induction size as [|size IH]; intros color s0 H0; cbn [addFluids_loop snd].
    - exact H0.
    - destruct (m_fluidsToAdd s0) as [|pos [|color' rest]]; try exact H0.
      apply IH. apply addParticle_store.
      eapply store_ok_same; [exact H0|]. split; [split|]; reflexivity. }
  specialize (L zero4 s Hs).
  destruct (addFluids_loop FLUID size zero4 s) as [color s1].
  eapply store_ok_same; [exact L|]. split; [split|]; reflexivity.
Qed.

Lemma addNewStuff_store s : store_ok s -> store_ok (addNewStuff SOLID FLUID s).
Proof. intros Hs. unfold addNewStuff. apply addFluids_store, addParticles_store, Hs. Qed.

Lemma same_store_iter k s : same_store s (Nat.iter k tick_rand s).
Proof.
  split; [apply same_counts_iter|]. rewrite gpu_iter. reflexivity.
Qed.

Lemma addFluid_store ll ur mass density color s s' :
  store_ok s ->
  addFluid FLUID RAND_MAX rand_seq ll ur mass density color s = Some s' ->
  store_ok s'.
Proof.
  intros Hs H. unfold addFluid in H.
  destruct (make_count3 _ _ _) as [count|]; [|discriminate].
  cbn [mbind option_bind] in H. rewrite lattice_fill_sites in H.
  cbv beta iota zeta in H.
  destruct (usable_count3 count) eqn:U; [|discriminate].
  destruct (array_filled _ _) eqn:AF; [|discriminate].
  cbn [negb andb] in H. apply (inj Some) in H. subst s'.
  apply andb_true_iff in U as [_ U]. apply in_int_bounds in U.
  apply array_filled_size in AF as [A0 AF].
  eapply around_batch_store;
    [exact Hs | apply same_store_iter | split; [split|]; reflexivity
    | split; [exact A0|apply U] | rewrite AF; lia | | | |];
    rewrite length_replicate; lia.
Qed.

Lemma addParticleGrid_store ll ur mass addJitter s s' :
  store_ok s ->
  addParticleGrid SOLID numColors colors RAND_MAX rand_seq ll ur mass addJitter s = Some s' ->
  store_ok s'.
Proof.
  intros Hs H. unfold addParticleGrid in H.
  destruct (make_count3 _ _ _) as [count|]; [|discriminate].
  cbn [mbind option_bind] in H. rewrite lattice_fill_sites in H.
  cbv beta iota zeta in H.
  destruct (usable_count3 count) eqn:U; [|discriminate].
  destruct (array_filled _ _) eqn:AF; [|discriminate].
  cbn [negb andb] in H. apply (inj Some) in H. subst s'.
  apply andb_true_iff in U as [_ U]. apply in_int_bounds in U.
  apply array_filled_size in AF as [A0 AF].
  eapply around_batch_store;
    [exact Hs | apply same_store_iter | split; [split|]; reflexivity
    | split; [exact A0|apply U] | rewrite AF; lia | | | |];
    rewrite length_replicate; lia.
Qed.

Lemma addHorizCloth_store ll ur spacing dist mass holdEdges s s' :
  store_ok s ->
  addHorizCloth RIGID numColors colors rand_seq ll ur spacing dist mass holdEdges s = Some s' ->
  store_ok s'.
Proof.
  intros Hs H. unfold addHorizCloth in H.
  destruct (axis_count _ _ (f3x spacing)) as [cx|]; [|discriminate].
  cbn [mbind option_bind] in H.
  destruct (axis_count _ _ (f3z spacing)) as [cy|]; [|discriminate].
  cbn [mbind option_bind] in H. cbv zeta in H.
  match type of H with
  | (if negb (in_int _ && array_filled _ (c_pos ?a) && _ && _) then _ else _) = _ =>
      set (arrays := a) in *
  end.
  destruct (in_int (cx * cy)) eqn:U; [|discriminate].
  destruct (array_filled (cx * cy) (c_pos arrays)) eqn:AF; [|discriminate].
  destruct (array_filled _ (c_dists arrays)); [|discriminate].
  destruct (array_filled _ (c_indicesP arrays)); [|discriminate].
  cbn [negb andb] in H. apply (inj Some) in H. subst s'.
  apply in_int_bounds in U. apply array_filled_size in AF as [A0 AF].
  eapply around_batch_store;
    [exact Hs | apply same_store_refl | split; [split|]; reflexivity
    | split; [exact A0|apply U] | rewrite AF; lia | | | |];
    rewrite length_replicate; lia.
Qed.

Lemma addRope_store start spacing dist numLinks mass constrainStart s s' :
  store_ok s ->
  addRope RIGID numColors colors rand_seq start spacing dist numLinks mass constrainStart s
  = Some s' ->
  store_ok s'.
Proof.
  intros Hs H. unfold addRope in H.
  destruct (0 <=? numLinks) eqn:N; [|discriminate].
  destruct (in_int (numLinks + 1)) eqn:U; [|discriminate].
  cbn [negb andb] in H. rewrite rope_loop in H. cbv beta iota zeta in H.
  apply (inj Some) in H. subst s'.
  apply in_int_bounds in U. apply Z.leb_le in N.
  eapply (around_batch_store s s _ _ _ _ _ _ (numLinks + 1));
    [exact Hs | apply same_store_refl
    | destruct constrainStart; (split; [split|]; reflexivity)
    | split; [lia|apply U] | | | | |];
    rewrite ?length_replicate, ?length_app, ?length_fmap, ?length_seqZ; cbn [length]; lia.
Qed.

Lemma sphere_arrays startI ll spacing radius center n3 n2 n1 :
  forall a,
    length (fst (fst a)) = length (snd (fst a)) ->
    let r := for_loop n3 0 (fun z =>
               for_loop n2 0 (fun y =>
                 for_loop n1 0 (fun x =>
                   sphere_body startI ll spacing radius center z y x))) a in
    length (fst (fst r)) = length (snd (fst r)).
Proof.
  intros a Ha. cbv zeta.
  apply (for_loop_invariant (fun a => length (fst (fst a)) = length (snd (fst a))));
    [|exact Ha].
  intros z a1 H1.
  apply (for_loop_invariant (fun a => length (fst (fst a)) = length (snd (fst a))));
    [|exact H1].
  intros y a2 H2.
  apply (for_loop_invariant (fun a => length (fst (fst a)) = length (snd (fst a))));
    [|exact H2].
  intros x [[posV indices] points] H3. unfold sphere_body.
  destruct (F32.ltb _ _); cbn [fst snd] in *; [|exact H3].
  rewrite !length_app, H3. reflexivity.
Qed.

Lemma to_int_le z : 0 <= z -> to_int z <= z.
Proof.
  intros H. unfold to_int, UINT_MOD.
  pose proof (Z.mod_le (z + 2 ^ 31) (2 ^ 32)). lia.
Qed.

Lemma addStaticSphere_store ll ur spacing s s' :
  store_ok s ->
  addStaticSphere RIGID numColors colors rand_seq ll ur spacing s = Some s' ->
  store_ok s'.
Proof.
  intros Hs H. unfold addStaticSphere in H.
  destruct (make_count3 _ _ _) as [count|]; [|discriminate].
  cbn [mbind option_bind] in H.
  cbv zeta in H. set (loop := for_loop _ _ _ _) in H.
  assert (length (fst (fst loop)) = length (snd (fst loop))) as L
    by (subst loop; apply sphere_arrays; reflexivity).
  destruct loop as [[posV indices] points]. cbn [fst snd] in L.
  destruct (0 <=? to_int (Z.of_nat (length indices))) eqn:N; [|discriminate].
  cbn [negb] in H. apply (inj Some) in H. subst s'.
  apply Z.leb_le in N.
  pose proof (to_int_le (Z.of_nat (length indices))) as Le.
  assert (to_int (Z.of_nat (length indices)) <= INT_MAX) as Hi.
  { unfold to_int, INT_MAX, UINT_MOD.
    pose proof (Z.mod_pos_bound (Z.of_nat (length indices) + 2 ^ 31) (2 ^ 32)). lia. }
  eapply around_batch_store;
    [exact Hs | apply same_store_refl | split; [split|]; reflexivity
    | split; [exact N|exact Hi] | rewrite L; lia | | | |];
    rewrite length_replicate; lia.
Qed.

Lemma launch_store k s :
  keeps_sizes kernel -> same_store s (launch kernel k s).
Proof.
  intros K. split; [split; reflexivity|]. apply K.
Qed.

Lemma solver_iteration_store s :
  keeps_sizes kernel -> same_store s (solver_iteration kernel s).
Proof.
  intros K. unfold solver_iteration.
  repeat (eapply same_store_trans; [|apply launch_store; exact K]).
  apply same_store_refl.
Qed.

Lemma update_store deltaTime s s' :
  keeps_sizes kernel ->
  store_ok s ->
  update SOLID FLUID kernel deltaTime s = Some s' ->
  store_ok s'.
Proof.
  intros K Hs H. unfold update in H.
  destruct (m_initialized s); [|discriminate]. cbn [negb] in H.
  destruct (m_numParticles s =? 0).
  - apply (inj Some) in H. subst s'. apply addNewStuff_store, Hs.
  - apply (inj Some) in H. subst s'. apply addNewStuff_store.
    eapply store_ok_same; [exact Hs|].
    eapply same_store_trans; [|split; [split|]; reflexivity].
    eapply same_store_trans; [|apply launch_store; exact K].
    eapply same_store_trans;
      [|apply (for_loop_invariant (fun x => same_store
                 (launch kernel (IntegrateSystem (F32.min deltaTime F32.c_0_05)
                                                 (m_numParticles s))
                    (launch kernel (SetParameters (m_params s))
                       (issue MapGLBufferObject s))) x));
        [intros _ x Hx; eapply same_store_trans;
           [exact Hx|apply solver_iteration_store; exact K]
        |apply same_store_refl]].
    eapply same_store_trans; [|apply launch_store; exact K].
    eapply same_store_trans; [|apply launch_store; exact K].
    split; [split|]; reflexivity.
Qed.

Lemma setArray_store isPosArray data start count s s' :
  0 <= count -> count * 16 <= INT_MAX -> count <= Z.of_nat (length data) ->
  store_ok s ->
  setArray isPosArray data start count s = Some s' ->
  store_ok s'.
Proof.
  intros C0 C1 C2 Hs H. unfold setArray in H.
  destruct (m_initialized s); [|discriminate]. cbn [negb] in H.
  destruct isPosArray; apply (inj Some) in H; subst s'; [|exact Hs].
  eapply store_ok_same; [exact Hs|].
  split; [split; reflexivity|].
  unfold sizes.
  cbn [gpu issue set_gpu glBufferSubData with_posVbo posVbo d_vel d_ro d_phase d_W d_solver].
  rewrite buffer_write_length; [reflexivity|].
  rewrite (to_int_small (count * 4)) by (unfold INT_MIN, INT_MAX in *; lia).
  replace (count * 4 * 4) with (count * 16) by lia.
  rewrite Z.div_mul by lia. exact C2.
Qed.

Lemma exec_store o s s' :
  keeps_sizes kernel ->
  arrays_ok o ->
  store_ok s ->
  exec SOLID FLUID RIGID numColors colors RAND_MAX rand_seq kernel o s = Some s' ->
  store_ok s'.
Proof.
  intros K Ho Hs H. destruct o; cbn [exec] in H.
  - eapply update_store; eauto.
  - apply (inj Some) in H. subst s'. apply addParticle_store, Hs.
  - apply (inj Some) in H. subst s'. cbn [arrays_ok] in Ho.
    destruct Ho as (A & B & C & D & E & F). apply addParticleMultiple_store; assumption.
  - apply (inj Some) in H. subst s'. apply addParticles_store, Hs.
  - apply (inj Some) in H. subst s'. apply addFluids_store, Hs.
  - apply (inj Some) in H. subst s'. apply addNewStuff_store, Hs.
  - apply (inj Some) in H. subst s'.
    eapply store_ok_same; [exact Hs|]. split; [split|]; reflexivity.
  - apply (inj Some) in H. subst s'.
    eapply store_ok_same; [exact Hs|]. split; [split|]; reflexivity.
  - eapply addFluid_store; eauto.
  - eapply addParticleGrid_store; eauto.
  - eapply addHorizCloth_store; eauto.
  - eapply addRope_store; eauto.
  - eapply addStaticSphere_store; eauto.
  - apply (inj Some) in H. subst s'.
    eapply store_ok_same; [exact Hs|]. split; [split|]; reflexivity.
  - apply (inj Some) in H. subst s'.
    eapply store_ok_same; [exact Hs|]. split; [split|]; reflexivity.
  - cbn [arrays_ok] in Ho. destruct Ho as (A & B & C).
    eapply setArray_store; eauto.
Qed.

(** X1: an engine comes out of its constructor initialised and empty,
    with the capacity asked for.  Its position buffer has a slot for every
    one of the [maxParticles] particles exactly when the byte size
    [16 * maxParticles] fits the [uint] it is computed in, and then the
    store is sound. *)
Theorem fresh_engine particleRadius gridSize maxParticles minBounds maxBounds iterations :
  keeps_sizes kernel ->
  0 <= maxParticles < UINT_MOD ->
  let s := ParticleSystem_new kernel particleRadius gridSize maxParticles
                              minBounds maxBounds iterations in
  m_initialized s = true
  /\ m_numParticles s = 0
  /\ m_maxParticles s = maxParticles
  /\ m_particlesToAdd s = [] /\ m_fluidsToAdd s = []
  /\ m_colorIndex s = [] /\ m_colors s = []
  /\ (Z.of_nat (length (posVbo (gpu s))) = maxParticles <-> 4 * 4 * maxParticles < UINT_MOD)
  /\ (4 * 4 * maxParticles < UINT_MOD -> store_ok s).
Proof.
  intros K Hmax s.
  assert (sizes (gpu s)
          = (Z.to_nat (to_uint (4 * 4 * maxParticles) / 16), 0%nat, 0%nat, 0%nat, 0%nat, 0)
          \/ False) as [Sz|[]].
  { left. subst s. unfold ParticleSystem_new, _init.
    cbn [gpu launch issue set_gpu m_params m_numGridCells].
    rewrite K. unfold sizes, device_init.
    cbn [posVbo d_vel d_ro d_phase d_W d_solver length].
    rewrite length_replicate. reflexivity. }
  assert (m_initialized s = true /\ m_numParticles s = 0 /\ m_maxParticles s = maxParticles
          /\ m_particlesToAdd s = [] /\ m_fluidsToAdd s = []
          /\ m_colorIndex s = [] /\ m_colors s = []) as (F1 & F2 & F3 & F4 & F5 & F6 & F7)
    by (repeat split; reflexivity).
  clearbody s.
  unfold sizes in Sz. injection Sz as E1 E2 E3 E4 E5 E6.
  assert (0 <= to_uint (4 * 4 * maxParticles) / 16) as Hq
    by (apply Z.div_pos; [apply to_uint_range|lia]).
  assert (Z.of_nat (length (posVbo (gpu s))) = maxParticles
          <-> 4 * 4 * maxParticles < UINT_MOD) as Hbuf.
  { rewrite E1, Z2Nat.id by exact Hq. unfold UINT_MOD in *. split.
    - intros Hlen.
      destruct (Z.lt_ge_cases (4 * 4 * maxParticles) (2 ^ 32)) as [L|G]; [exact L|].
      exfalso.
      pose proof (to_uint_range (4 * 4 * maxParticles)) as R. unfold UINT_MOD in R.
      assert (to_uint (4 * 4 * maxParticles) / 16 < 268435456)
        by (apply Z.div_lt_upper_bound; lia).
      lia.
    - intros L. rewrite to_uint_small by (unfold UINT_MOD; lia).
      replace (4 * 4 * maxParticles) with (maxParticles * 16) by lia.
      apply Z.div_mul. lia. }
  refine (conj F1 (conj F2 (conj F3 (conj F4 (conj F5 (conj F6 (conj F7 (conj Hbuf _)))))))).
  intros L. unfold store_ok, buffer_ok.
  rewrite E2, E3, E4, E5, E6, F2, F3.
  repeat split; try reflexivity; try lia; apply Hbuf, L.
Qed.

(** X3: the sound store is an invariant.  If no kernel resizes the
    device arrays and the callers' arrays are as long as their calls say,
    then after every operation of any run from a sound store the position
    buffer still has [maxParticles] slots, and velocity, rest density,
    phase, inverse mass and solver vectors each hold exactly
    [numParticles] entries. *)
Theorem store_invariant ops : forall s states,
  keeps_sizes kernel ->
  store_ok s ->
  Forall arrays_ok ops ->
  run SOLID FLUID RIGID numColors colors RAND_MAX rand_seq kernel ops s = Some states ->
  Forall store_ok states.
Proof.
  induction ops as [|o ops IH]; intros s states K Hs Ho Hrun; cbn [run] in Hrun.
  - apply (inj Some) in Hrun. subst states. constructor.
  - destruct (exec _ _ _ _ _ _ _ _ o s) as [s1|] eqn:E; [|discriminate].
    cbn [mbind option_bind] in Hrun.
    destruct (run _ _ _ _ _ _ _ _ ops s1) as [rest|] eqn:R; [|discriminate].
    cbn [mbind option_bind] in Hrun. apply (inj Some) in Hrun. subst states.
    inversion Ho as [|? ? Ho1 Ho2]; subst.
    assert (store_ok s1) as H1 by (eapply exec_store; eauto).
    constructor; [exact H1|]. eapply IH; eauto.
Qed.

End StoreFacts.

(** ** Indices are stable *)

Section ContinuesFacts.

Variables SOLID FLUID RIGID : Z.
Variable numColors : Z.
Variable colors : Z -> float3.
Variable RAND_MAX : Z.
Variable rand_seq : nat -> Z.
Variable kernel : KernelCall -> Device -> Device.

Lemma continues_refl s : continues s s.
Proof. unfold continues. repeat split; reflexivity. Qed.

Lemma continues_trans s1 s2 s3 :
  0 <= m_numParticles s1 ->
  continues s1 s2 -> continues s2 s3 -> continues s1 s3.
Proof.
  intros H0 (N1 & B1 & V1 & R1 & P1 & W1 & D1 & Q1 & I1 & C1)
            (N2 & B2 & V2 & R2 & P2 & W2 & D2 & Q2 & I2 & C2).
  unfold continues. repeat split; try (etrans; eassumption).
  rewrite <- B1.
  replace (Z.to_nat (m_numParticles s1))
    with (Z.to_nat (m_numParticles s1) `min` Z.to_nat (m_numParticles s2))%nat by lia.
  rewrite <- !take_take, B2. reflexivity.
Qed.

(** Bookkeeping that leaves count and buffer alone and only appends. *)
Ltac appended :=
  unfold continues;
  cbn [m_numParticles m_colorIndex m_colors gpu posVbo d_vel d_ro d_phase d_W
       d_distance d_point set_rigidIndex push_color tick_rand set_particlesToAdd
       set_fluidsToAdd addDistanceConstraint addPointConstraint issue set_gpu];
  repeat split; first [reflexivity | lia | apply prefix_app_r; reflexivity].

Lemma addParticle_continues pos vel mass ro phase s :
  buffer_ok s -> continues s (addParticle pos vel mass ro phase s).
Proof.
  intros Hb.
  destruct (Z.eq_dec (m_numParticles s) (m_maxParticles s)) as [F|R].
  - rewrite addParticle_full by exact F. apply continues_refl.
  - destruct (addParticle_room pos vel mass ro phase s Hb R)
      as (N & B & _ & V' & Ro' & P' & W' & S').
    assert (m_colorIndex (addParticle pos vel mass ro phase s) = m_colorIndex s
            /\ m_colors (addParticle pos vel mass ro phase s) = m_colors s
            /\ d_distance (gpu (addParticle pos vel mass ro phase s)) = d_distance (gpu s)
            /\ d_point (gpu (addParticle pos vel mass ro phase s)) = d_point (gpu s))
      as (I & C & D & Q).
    { unfold addParticle. rewrite (proj2 (Z.eqb_neq _ _) R). repeat split; reflexivity. }
    destruct Hb as ((H0 & H1) & Hlen & Hmax).
    unfold continues. rewrite N, B, V', Ro', P', W', I, C, D, Q.
    repeat split; try reflexivity; try lia; try (apply prefix_app_r; reflexivity).
    rewrite take_app_length'; [reflexivity|]. rewrite length_take. lia.
Qed.

Lemma addParticleMultiple_continues pos vel mass ro phase n s :
  buffer_ok s -> 0 <= n <= INT_MAX ->
  continues s (addParticleMultiple pos vel mass ro phase n s).
Proof.
  intros Hb Hn.
  assert (m_colorIndex (addParticleMultiple pos vel mass ro phase n s) = m_colorIndex s
          /\ m_colors (addParticleMultiple pos vel mass ro phase n s) = m_colors s)
    as (I & C).
  { unfold addParticleMultiple. destruct (_ <=? _); split; reflexivity. }
  destruct (addParticleMultiple_cases pos vel mass ro phase n s Hb Hn)
    as [[_ ->]|(A & N & M & B & V' & Ro' & P' & W' & S' & D & Q)];
    [apply continues_refl|].
  destruct Hb as ((H0 & H1) & Hlen & Hmax).
  unfold continues. rewrite N, B, V', Ro', P', W', I, C, D, Q.
  repeat split; try reflexivity; try lia; try (apply prefix_app_r; reflexivity).
  rewrite buffer_write_at by lia.
  rewrite take_app_length'; [reflexivity|]. rewrite length_take. lia.
Qed.

Lemma continues_iter k s : continues s (Nat.iter k tick_rand s).
Proof.
  unfold continues. rewrite gpu_iter.
  rewrite (iter_tick_field m_numParticles), (iter_tick_field m_colorIndex),
    (iter_tick_field m_colors) by reflexivity.
  repeat split; reflexivity.
Qed.

Lemma store_ok_iter k s : store_ok s -> store_ok (Nat.iter k tick_rand s).
Proof.
  intros Hs. eapply store_ok_same; [exact Hs|].
  split; [apply same_counts_iter|]. rewrite gpu_iter. reflexivity.
Qed.

(** A builder is draws, one batch admission, and appending bookkeeping. *)
Lemma around_batch_continues s k s' pos vel mass ro phase n :
  store_ok s ->
  0 <= n <= INT_MAX ->
  continues (addParticleMultiple pos vel mass ro phase n (Nat.iter k tick_rand s)) s' ->
  continues s s'.
Proof.
  intros Hs Hn H.
  assert (0 <= m_numParticles s) as H0 by apply Hs.
  eapply continues_trans; [exact H0|apply continues_iter|].
  eapply continues_trans; [|apply addParticleMultiple_continues|exact H].
  - rewrite (iter_tick_field m_numParticles) by reflexivity. exact H0.
  - apply store_ok_iter. exact Hs.
  - exact Hn.
Qed.

Lemma addParticles_continues s : store_ok s -> continues s (addParticles SOLID s).
Proof.
  unfold addParticles. destruct (m_particlesToAdd s) eqn:E; [intros; apply continues_refl|].
  clear E.
  match goal with |- _ -> continues _ (addParticles_loop _ ?k _) => generalize k end.
  intros size. revert s. induction size as [|size IH]; intros s Hs; cbn [addParticles_loop].
  - apply continues_refl.
  - destruct (m_particlesToAdd s) as [|pos [|vel rest]]; try apply continues_refl.
    set (s1 := set_particlesToAdd rest s).
    assert (store_ok s1) as H1
      by (eapply store_ok_same; [exact Hs|]; split; [split|]; reflexivity).
    eapply continues_trans; [apply Hs| |apply IH, addParticle_store, H1].
    apply (addParticle_continues _ _ _ _ _ s1). apply H1.
Qed.

Lemma addFluids_continues s : store_ok s -> continues s (addFluids FLUID s).
Proof.
  unfold addFluids. destruct (m_fluidsToAdd s) eqn:E; [intros; apply continues_refl|].
  clear E.
  match goal with
  | |- _ -> continues _ (let '(_, _) := addFluids_loop _ ?k _ _ in _) => generalize k
  end.
  intros size Hs.
  assert (forall color s0, store_ok s0 ->
            continues s0 (snd (addFluids_loop FLUID size color s0))) as L.
  { induction size as [|size IH]; intros color s0 H0; cbn [addFluids_loop snd].
    - apply continues_refl.
    - destruct (m_fluidsToAdd s0) as [|pos [|color' rest]]; try apply continues_refl.
      set (s1 := set_fluidsToAdd rest s0).
      assert (store_ok s1) as H1
        by (eapply store_ok_same; [exact H0|]; split; [split|]; reflexivity).
      eapply continues_trans; [apply H0| |apply IH, addParticle_store, H1].
      apply (addParticle_continues _ _ _ _ _ s1). apply H1. }
  specialize (L zero4 s Hs).
  destruct (addFluids_loop FLUID size zero4 s) as [color s1]. cbn [snd] in L.
  eapply continues_trans; [apply Hs|exact L|]. appended.
Qed.

Lemma addFluid_continues ll ur mass density color s s' :
  store_ok s ->
  addFluid FLUID RAND_MAX rand_seq ll ur mass density color s = Some s' ->
  continues s s'.
Proof.
  intros Hs H. unfold addFluid in H.
  destruct (make_count3 _ _ _) as [count|]; [|discriminate].
  cbn [mbind option_bind] in H. rewrite lattice_fill_sites in H.
  cbv beta iota zeta in H.
  destruct (usable_count3 count) eqn:U; [|discriminate].
  destruct (array_filled _ _) eqn:AF; [|discriminate].
  cbn [negb andb] in H. apply (inj Some) in H. subst s'.
  apply andb_true_iff in U as [_ U]. apply in_int_bounds in U.
  apply array_filled_size in AF as [A0 AF].
  eapply around_batch_continues; [exact Hs|split; [exact A0|apply U]|]. appended.
Qed.

Lemma addParticleGrid_continues ll ur mass addJitter s s' :
  store_ok s ->
  addParticleGrid SOLID numColors colors RAND_MAX rand_seq ll ur mass addJitter s = Some s' ->
  continues s s'.
Proof.
  intros Hs H. unfold addParticleGrid in H.
  destruct (make_count3 _ _ _) as [count|]; [|discriminate].
  cbn [mbind option_bind] in H. rewrite lattice_fill_sites in H.
  cbv beta iota zeta in H.
  destruct (usable_count3 count) eqn:U; [|discriminate].
  destruct (array_filled _ _) eqn:AF; [|discriminate].
  cbn [negb andb] in H. apply (inj Some) in H. subst s'.
  apply andb_true_iff in U as [_ U]. apply in_int_bounds in U.
  apply array_filled_size in AF as [A0 AF].
  eapply around_batch_continues; [exact Hs|split; [exact A0|apply U]|].
  unfold random_color, rand. appended.
Qed.

Lemma addHorizCloth_continues ll ur spacing dist mass holdEdges s s' :
  store_ok s ->
  addHorizCloth RIGID numColors colors rand_seq ll ur spacing dist mass holdEdges s = Some s' ->
  continues s s'.
Proof.
  intros Hs H. unfold addHorizCloth in H.
  destruct (axis_count _ _ (f3x spacing)) as [cx|]; [|discriminate].
  cbn [mbind option_bind] in H.
  destruct (axis_count _ _ (f3z spacing)) as [cy|]; [|discriminate].
  cbn [mbind option_bind] in H. cbv zeta in H.
  match type of H with
  | (if negb (in_int _ && array_filled _ (c_pos ?a) && _ && _) then _ else _) = _ =>
      set (arrays := a) in *
  end.
  destruct (in_int (cx * cy)) eqn:U; [|discriminate].
  destruct (array_filled (cx * cy) (c_pos arrays)) eqn:AF; [|discriminate].
  destruct (array_filled _ (c_dists arrays)); [|discriminate].
  destruct (array_filled _ (c_indicesP arrays)); [|discriminate].
  cbn [negb andb] in H. apply (inj Some) in H. subst s'.
  apply in_int_bounds in U. apply array_filled_size in AF as [A0 AF].
  eapply (around_batch_continues s 0); [exact Hs|split; [exact A0|apply U]|].
  unfold random_color, rand. appended.
Qed.

Lemma addRope_continues start spacing dist numLinks mass constrainStart s s' :
  store_ok s ->
  addRope RIGID numColors colors rand_seq start spacing dist numLinks mass constrainStart s
  = Some s' ->
  continues s s'.
Proof.
  intros Hs H. unfold addRope in H.
  destruct (0 <=? numLinks) eqn:N; [|discriminate].
  destruct (in_int (numLinks + 1)) eqn:U; [|discriminate].
  cbn [negb andb] in H. rewrite rope_loop in H. cbv beta iota zeta in H.
  apply (inj Some) in H. subst s'.
  apply in_int_bounds in U. apply Z.leb_le in N.
  eapply (around_batch_continues s 0 _ _ _ _ _ _ (numLinks + 1));
    [exact Hs|split; [lia|apply U]|].
  unfold random_color, rand. destruct constrainStart; appended.
Qed.

Lemma addStaticSphere_continues ll ur spacing s s' :
  store_ok s ->
  addStaticSphere RIGID numColors colors rand_seq ll ur spacing s = Some s' ->
  continues s s'.
Proof.
  intros Hs H. unfold addStaticSphere in H.
  destruct (make_count3 _ _ _) as [count|]; [|discriminate].
  cbn [mbind option_bind] in H. cbv zeta in H.
  destruct (for_loop _ _ _ _) as [[posV indices] points].
  destruct (0 <=? to_int (Z.of_nat (length indices))) eqn:N; [|discriminate].
  cbn [negb] in H. apply (inj Some) in H. subst s'.
  apply Z.leb_le in N.
  assert (to_int (Z.of_nat (length indices)) <= INT_MAX) as Hi.
  { unfold to_int, INT_MAX, UINT_MOD.
    pose proof (Z.mod_pos_bound (Z.of_nat (length indices) + 2 ^ 31) (2 ^ 32)). lia. }
  eapply (around_batch_continues s 0); [exact Hs|split; [exact N|exact Hi]|].
  unfold random_color, rand. appended.
Qed.

(** X4: indices are stable under everything the host does.  After any
    operation other than a step or an upload, run on a sound store with
    arrays as long as the call says, no particle is lost; the first
    [numParticles] slots of the position buffer are as they were;
    velocities, rest densities, phases and inverse masses, both constraint
    sets and the colour groups are the old ones, possibly with new entries
    behind them. *)
Theorem host_op_continues o s s' :
  store_ok s ->
  arrays_ok o ->
  host_op o ->
  exec SOLID FLUID RIGID numColors colors RAND_MAX rand_seq kernel o s = Some s' ->
  continues s s'.
Proof.
  intros Hs Ho Hh H. destruct o; cbn [exec host_op] in *; try contradiction.
  - apply (inj Some) in H. subst s'. apply addParticle_continues, Hs.
  - apply (inj Some) in H. subst s'. cbn [arrays_ok] in Ho.
    apply addParticleMultiple_continues; [apply Hs|apply Ho].
  - apply (inj Some) in H. subst s'. apply addParticles_continues, Hs.
  - apply (inj Some) in H. subst s'. apply addFluids_continues, Hs.
  - apply (inj Some) in H. subst s'. unfold addNewStuff.
    eapply continues_trans; [apply Hs|apply addParticles_continues, Hs|].
    apply addFluids_continues. apply addParticles_store, Hs.
  - apply (inj Some) in H. subst s'.
    unfold setParticleToAdd, jittered, frand, random_color, rand. appended.
  - apply (inj Some) in H. subst s'. unfold setFluidToAdd. appended.
  - eapply addFluid_continues; eauto.
  - eapply addParticleGrid_continues; eauto.
  - eapply addHorizCloth_continues; eauto.
  - eapply addRope_continues; eauto.
  - eapply addStaticSphere_continues; eauto.
  - apply (inj Some) in H. subst s'. unfold makePointConstraint. appended.
  - apply (inj Some) in H. subst s'. unfold makeDistanceConstraint. appended.
Qed.

End ContinuesFacts.

(** ** Draining the queues *)

Section DrainFacts.

Variables SOLID FLUID : Z.

(** Single admissions in a row fill the free slots in order and drop what
    does not fit. *)
Lemma admit_all_spec ps : forall s,
  store_ok s ->
  let k := fitting (length ps) s in
  let n := Z.to_nat (m_numParticles s) in
  let s' := admit_all ps s in
  store_ok s'
  /\ m_numParticles s' = m_numParticles s + Z.of_nat k
  /\ m_maxParticles s' = m_maxParticles s
  /\ posVbo (gpu s')
     = take n (posVbo (gpu s)) ++ (pt_pos <$> take k ps) ++ drop (n + k) (posVbo (gpu s))
  /\ d_vel (gpu s') = d_vel (gpu s) ++ (pt_vel <$> take k ps)
  /\ d_ro (gpu s') = d_ro (gpu s) ++ (pt_ro <$> take k ps)
  /\ d_phase (gpu s') = d_phase (gpu s) ++ (pt_phase <$> take k ps)
  /\ d_W (gpu s') = d_W (gpu s) ++ ((fun p => F32.div F32.one (pt_mass p)) <$> take k ps).
Proof.
  induction ps as [|p ps IH]; intros s Hs k n s'.
  - subst k n s'. unfold fitting. cbn [length Nat.min admit_all foldl take fmap list_fmap app].
    rewrite Nat.add_0_r, take_drop, !app_nil_r.
    split; [exact Hs|]. repeat split; try reflexivity; lia.
  - subst s'. cbn [admit_all foldl].
    set (s1 := addParticle (pt_pos p) (pt_vel p) (pt_mass p) (pt_ro p) (pt_phase p) s).
    change (foldl _ s1 ps) with (admit_all ps s1).
    assert (store_ok s1) as H1 by apply addParticle_store, Hs.
    specialize (IH s1 H1). cbv zeta in IH.
    destruct IH as (Ok & N & M & B & V & R & P & W).
    destruct Hs as (Hb & _). pose proof Hb as ((H0 & Hc) & Hlen & Hmax).
    destruct (Z.eq_dec (m_numParticles s) (m_maxParticles s)) as [F|Room].
    + assert (s1 = s) as E by (apply addParticle_full; exact F).
      rewrite E in *. clear E.
      assert (k = 0%nat) as -> by (subst k; unfold fitting; lia).
      assert (fitting (length ps) s = 0%nat) as Z0 by (unfold fitting; lia).
      rewrite Z0 in *. split; [exact Ok|]. repeat split; assumption.
    + destruct (addParticle_room (pt_pos p) (pt_vel p) (pt_mass p) (pt_ro p)
                  (pt_phase p) s Hb Room) as (N1 & B1 & _ & V1 & R1 & P1 & W1 & _).
      fold s1 in N1, B1, V1, R1, P1, W1. cbv zeta in N1, B1.
      assert (m_maxParticles s1 = m_maxParticles s) as M1 by apply addParticle_keeps.
      assert (k = S (fitting (length ps) s1)) as ->.
      { subst k. unfold fitting. rewrite N1, M1. cbn [length]. lia. }
      set (k' := fitting (length ps) s1) in *.
      split; [exact Ok|].
      rewrite N, M, B, V, R, P, W, N1, M1, B1, V1, R1, P1, W1.
      cbn [take fmap list_fmap]. fold (@fmap list _ _ _ pt_pos (take k' ps)).
      rewrite <- !app_assoc. cbn [app].
      repeat split; try reflexivity; try lia.
      fold n.
      replace (Z.to_nat (m_numParticles s + 1)) with (S n) by lia.
      assert (length (take n (posVbo (gpu s))) = n) as Ln by (rewrite length_take; lia).
      set (B0 := posVbo (gpu s)) in *.
      assert (take n B0 ++ pt_pos p :: drop (S n) B0
              = (take n B0 ++ [pt_pos p]) ++ drop (S n) B0) as ->
        by (rewrite <- app_assoc; reflexivity).
      rewrite take_app_length' by (rewrite length_app, Ln; cbn [length]; lia).
      rewrite drop_app_ge by (rewrite length_app, Ln; cbn [length]; lia).
      rewrite length_app, Ln, drop_drop. cbn [length].
      rewrite <- !app_assoc. cbn [app].
      replace (S n + (S n + k' - (n + 1)))%nat with (n + S k')%nat by lia.
      reflexivity.
Qed.

(** An admission neither reads nor writes the queues. *)
Lemma addParticle_particle_queue pos vel mass ro phase q s :
  addParticle pos vel mass ro phase (set_particlesToAdd q s)
  = set_particlesToAdd q (addParticle pos vel mass ro phase s).
Proof.
  unfold addParticle. cbn [set_particlesToAdd m_numParticles m_maxParticles].
  destruct (m_numParticles s =? m_maxParticles s); reflexivity.
Qed.

Lemma addParticle_fluid_queue pos vel mass ro phase q s :
  addParticle pos vel mass ro phase (set_fluidsToAdd q s)
  = set_fluidsToAdd q (addParticle pos vel mass ro phase s).
Proof.
  unfold addParticle. cbn [set_fluidsToAdd m_numParticles m_maxParticles].
  destruct (m_numParticles s =? m_maxParticles s); reflexivity.
Qed.

Lemma admit_all_particle_queue ps : forall q s,
  admit_all ps (set_particlesToAdd q s) = set_particlesToAdd q (admit_all ps s).
Proof.
  induction ps as [|p ps IH]; intros q s; cbn [admit_all foldl]; [reflexivity|].
  rewrite addParticle_particle_queue. apply IH.
Qed.

Lemma admit_all_fluid_queue ps : forall q s,
  admit_all ps (set_fluidsToAdd q s) = set_fluidsToAdd q (admit_all ps s).
Proof.
  induction ps as [|p ps IH]; intros q s; cbn [admit_all foldl]; [reflexivity|].
  rewrite addParticle_fluid_queue. apply IH.
Qed.

(** The loop of [addParticles] over a queue of [entries] pairs admits them
    one by one and leaves the queue empty. *)
Lemma addParticles_loop_drain entries : forall s,
  m_particlesToAdd s = particle_queue entries ->
  addParticles_loop SOLID (length entries) s
  = set_particlesToAdd [] (admit_all (queued_particle SOLID <$> entries) s).
Proof.
  induction entries as [|e es IH]; intros s Q.
  - cbn [length addParticles_loop fmap list_fmap admit_all foldl].
    destruct s. cbn in Q. subst. reflexivity.
  - cbn [length addParticles_loop fmap list_fmap admit_all foldl].
    rewrite Q. cbn [particle_queue flat_map app].
    change (flat_map _ es) with (particle_queue es).
    rewrite addParticle_particle_queue, IH by reflexivity.
    change (foldl _ ?a ?l) with (admit_all l a).
    rewrite admit_all_particle_queue. reflexivity.
Qed.

Lemma addFluids_loop_drain samples : forall color s,
  m_fluidsToAdd s = fluid_queue samples ->
  addFluids_loop FLUID (length samples) color s
  = (default color (last (snd <$> samples)),
     set_fluidsToAdd [] (admit_all (queued_fluid FLUID <$> samples) s)).
Proof.
  induction samples as [|e es IH]; intros color s Q.
  - cbn [length addFluids_loop fmap list_fmap admit_all foldl last default].
    destruct s. cbn in Q. subst. reflexivity.
  - cbn [length addFluids_loop fmap list_fmap admit_all foldl].
    rewrite Q. cbn [fluid_queue flat_map app].
    change (flat_map _ es) with (fluid_queue es).
    rewrite addParticle_fluid_queue, IH by reflexivity.
    change (foldl _ ?a ?l) with (admit_all l a).
    rewrite admit_all_fluid_queue. f_equal.
    change (list_fmap _ _ snd es) with (snd <$> es).
    rewrite last_cons. destruct (last (snd <$> es)); reflexivity.
Qed.

Lemma pair_queue_length {A : Type} (l : list A) (f g : A -> float4) :
  Z.of_nat (length (flat_map (fun e => [f e; g e]) l)) = 2 * Z.of_nat (length l).
Proof.
  induction l as [|e l IH]; [reflexivity|].
  cbn [flat_map app length] in *. lia.
Qed.

Lemma queue_rounds {A : Type} (l : list A) (f g : A -> float4) :
  Z.of_nat (length l) < UINT_MOD ->
  Z.to_nat (to_uint (Z.of_nat (length (flat_map (fun e => [f e; g e]) l)) / 2)) = length l.
Proof.
  intros H. rewrite pair_queue_length.
  replace (2 * Z.of_nat (length l)) with (Z.of_nat (length l) * 2) by lia.
  rewrite Z.div_mul by lia. rewrite to_uint_small by lia. lia.
Qed.

Lemma fmap_constant {A B : Type} (f : A -> B) (c : B) (l : list A) :
  (forall x, f x = c) -> f <$> l = replicate (length l) c.
Proof.
  intros H. induction l as [|x l IH]; [reflexivity|].
  cbn [length replicate]. csimpl. rewrite H. f_equal. exact IH.
Qed.

Lemma fmap_take_constant {A B C : Type} (h : A -> B) (g : B -> C) (c : C) k (l : list A) :
  (forall e, g (h e) = c) -> (k <= length l)%nat ->
  g <$> take k (h <$> l) = replicate k c.
Proof.
  intros Hg Hk. rewrite <- fmap_take, <- list_fmap_compose.
  replace k with (length (take k l)) at 2 by (rewrite length_take; lia).
  apply fmap_constant. exact Hg.
Qed.

(** Draining the particle queue is admitting its entries one by one. *)
Lemma addParticles_as_admissions entries s :
  m_particlesToAdd s = particle_queue entries ->
  Z.of_nat (length entries) < UINT_MOD ->
  addParticles SOLID s
  = set_particlesToAdd [] (admit_all (queued_particle SOLID <$> entries) s).
Proof.
  intros Q Hlen. unfold addParticles. rewrite Q. unfold particle_queue at 2.
  rewrite queue_rounds by exact Hlen.
  rewrite addParticles_loop_drain by exact Q.
  destruct entries as [|e es]; [|reflexivity].
  destruct s. cbn in Q. subst. reflexivity.
Qed.

(** Admissions leave the host's book-keeping alone, the particle count
    apart. *)
Lemma admit_all_host ps : forall s,
  m_particlesToAdd (admit_all ps s) = m_particlesToAdd s
  /\ m_fluidsToAdd (admit_all ps s) = m_fluidsToAdd s
  /\ m_colorIndex (admit_all ps s) = m_colorIndex s
  /\ m_colors (admit_all ps s) = m_colors s
  /\ rand_calls (admit_all ps s) = rand_calls s
  /\ m_rigidIndex (admit_all ps s) = m_rigidIndex s.
Proof.
  induction ps as [|p ps IH]; intros s; cbn [admit_all foldl];
    [repeat split; reflexivity|].
  change (foldl _ ?a ?l) with (admit_all l a).
  destruct (IH (addParticle (pt_pos p) (pt_vel p) (pt_mass p) (pt_ro p) (pt_phase p) s))
    as (-> & -> & -> & -> & -> & ->).
  unfold addParticle. destruct (_ =? _); repeat split; reflexivity.
Qed.

(** X5: one call of [addParticles] empties the particle queue.  The
    entries are admitted in the order they were queued, as solids of rest
    density 1.5 with the queued velocity and mass, into the free slots; the
    entries for which no slot is left are discarded with the rest. *)
Theorem addParticles_drains entries s :
  store_ok s ->
  m_particlesToAdd s = particle_queue entries ->
  Z.of_nat (length entries) < UINT_MOD ->
  let n := Z.to_nat (m_numParticles s) in
  let k := fitting (length entries) s in
  let admitted := take k (queued_particle SOLID <$> entries) in
  let s' := addParticles SOLID s in
  m_particlesToAdd s' = []
  /\ m_fluidsToAdd s' = m_fluidsToAdd s
  /\ m_numParticles s' = m_numParticles s + Z.of_nat k
  /\ posVbo (gpu s')
     = take n (posVbo (gpu s)) ++ (pt_pos <$> admitted) ++ drop (n + k) (posVbo (gpu s))
  /\ d_vel (gpu s') = d_vel (gpu s) ++ (pt_vel <$> admitted)
  /\ d_ro (gpu s') = d_ro (gpu s) ++ replicate k F32.c_1_5
  /\ d_phase (gpu s') = d_phase (gpu s) ++ replicate k SOLID
  /\ d_W (gpu s')
     = d_W (gpu s) ++ ((fun p => F32.div F32.one (pt_mass p)) <$> admitted).
Proof.
  intros Hs Q Hlen n k admitted s'.
  assert (s' = set_particlesToAdd [] (admit_all (queued_particle SOLID <$> entries) s)) as E
    by (apply addParticles_as_admissions; assumption).
  pose proof (admit_all_spec (queued_particle SOLID <$> entries) s Hs) as A.
  cbv zeta in A. rewrite length_fmap in A. fold k n admitted in A.
  destruct A as (_ & N & _ & B & V & R & P & W).
  rewrite E. cbn [set_particlesToAdd m_particlesToAdd m_fluidsToAdd m_numParticles gpu].
  split; [reflexivity|]. split; [apply admit_all_host|].
  split; [exact N|]. split; [exact B|]. split; [exact V|].
  assert (k <= length entries)%nat as Lk by (subst k; unfold fitting; lia).
  split; [|split; [|exact W]].
  - rewrite R. f_equal. apply fmap_take_constant; [reflexivity|exact Lk].
  - rewrite P. f_equal. apply fmap_take_constant; [reflexivity|exact Lk].
Qed.

(** X6: one call of [addFluids] empties the fluid queue.  The samples are
    admitted in the order they were queued, as fluid particles that start
    with velocity (0, -1, 0), each with its own mass and rest density, at
    the queued position; the samples for which no slot is left are
    discarded with the rest. *)
Theorem addFluids_drains samples s :
  store_ok s ->
  m_fluidsToAdd s = fluid_queue samples ->
  Z.of_nat (length samples) < UINT_MOD ->
  let n := Z.to_nat (m_numParticles s) in
  let k := fitting (length samples) s in
  let admitted := take k (queued_fluid FLUID <$> samples) in
  let s' := addFluids FLUID s in
  m_fluidsToAdd s' = []
  /\ m_particlesToAdd s' = m_particlesToAdd s
  /\ m_numParticles s' = m_numParticles s + Z.of_nat k
  /\ posVbo (gpu s')
     = take n (posVbo (gpu s)) ++ (pt_pos <$> admitted) ++ drop (n + k) (posVbo (gpu s))
  /\ d_vel (gpu s')
     = d_vel (gpu s) ++ replicate k (make_float4 F32.zero F32.neg_one F32.zero F32.zero)
  /\ d_ro (gpu s') = d_ro (gpu s) ++ (pt_ro <$> admitted)
  /\ d_phase (gpu s') = d_phase (gpu s) ++ replicate k FLUID
  /\ d_W (gpu s')
     = d_W (gpu s) ++ ((fun p => F32.div F32.one (pt_mass p)) <$> admitted).
Proof.
  intros Hs Q Hlen n k admitted s'.
  set (drained := set_fluidsToAdd [] (admit_all (queued_fluid FLUID <$> samples) s)).
  assert (exists range color,
            s' = match samples with [] => drained | _ => push_color range color drained end)
    as (range & color & E).
  { subst s'. unfold addFluids. rewrite Q. unfold fluid_queue at 2.
    rewrite queue_rounds by exact Hlen.
    rewrite addFluids_loop_drain by exact Q. fold drained.
    destruct samples as [|e es].
    - exists (make_int2 0 0), zero4. subst drained.
      destruct s. cbn in Q. subst. reflexivity.
    - eexists. eexists. reflexivity. }
  assert (m_fluidsToAdd s' = m_fluidsToAdd drained
          /\ m_particlesToAdd s' = m_particlesToAdd drained
          /\ m_numParticles s' = m_numParticles drained
          /\ gpu s' = gpu drained) as (E1 & E2 & E3 & E4).
  { rewrite E. destruct samples; repeat split; reflexivity. }
  rewrite E1, E2, E3, E4. clear E E1 E2 E3 E4. subst drained.
  pose proof (admit_all_spec (queued_fluid FLUID <$> samples) s Hs) as A.
  cbv zeta in A. rewrite length_fmap in A. fold k n admitted in A.
  destruct A as (_ & N & _ & B & V & R & P & W).
  cbn [set_fluidsToAdd m_particlesToAdd m_fluidsToAdd m_numParticles gpu].
  split; [reflexivity|]. split; [apply admit_all_host|].
  split; [exact N|]. split; [exact B|].
  assert (k <= length samples)%nat as Lk by (subst k; unfold fitting; lia).
  split; [|split; [exact R|split; [|exact W]]].
  - rewrite V. f_equal. apply fmap_take_constant; [reflexivity|exact Lk].
  - rewrite P. f_equal. apply fmap_take_constant; [reflexivity|exact Lk].
Qed.

End DrainFacts.

(** ** Queueing, then draining *)

Section QueueFacts.

Variables SOLID : Z.
Variable numColors : Z.
Variable colors : Z -> float3.
Variable RAND_MAX : Z.
Variable rand_seq : nat -> Z.

(** What a row of requests leaves behind: the queue grows by one pair per
    request, and every request records the range of the particle count at
    the time of the request. *)
Lemma queue_all_spec reqs : forall s,
  let s' := queue_all numColors colors RAND_MAX rand_seq reqs s in
  m_particlesToAdd s'
  = m_particlesToAdd s
    ++ particle_queue (queued_requests RAND_MAX rand_seq (m_particleRadius s)
                                       (rand_calls s) reqs)
  /\ m_fluidsToAdd s' = m_fluidsToAdd s
  /\ m_colorIndex s'
     = m_colorIndex s
       ++ replicate (length reqs)
            (make_int2 (to_int (m_numParticles s))
                       (to_int (to_uint (m_numParticles s + 1))))
  /\ length (m_colors s') = (length (m_colors s) + length reqs)%nat
  /\ rand_calls s' = (3 * length reqs + rand_calls s)%nat
  /\ gpu s' = gpu s
  /\ m_numParticles s' = m_numParticles s
  /\ m_maxParticles s' = m_maxParticles s
  /\ m_particleRadius s' = m_particleRadius s.
Proof.
  induction reqs as [|r rs IH]; intros s s'.
  - subst s'. cbn [queue_all foldl queued_requests particle_queue flat_map length replicate].
    rewrite !app_nil_r. repeat split; lia.
  - subst s'. cbn [queue_all foldl].
    set (s1 := setParticleToAdd numColors colors RAND_MAX rand_seq
                 (rq_pos r) (rq_vel r) (rq_mass r) s).
    change (foldl _ s1 rs) with (queue_all numColors colors RAND_MAX rand_seq rs s1).
    specialize (IH s1). cbv zeta in IH.
    destruct IH as (Q & F & I & C & K & G & N & M & R).
    rewrite Q, F, I, C, K, G, N, M, R. subst s1.
    unfold setParticleToAdd, jittered, frand, random_color, rand.
    cbn [m_particlesToAdd m_fluidsToAdd m_colorIndex m_colors rand_calls gpu
         m_numParticles m_maxParticles m_particleRadius push_color tick_rand
         set_particlesToAdd queued_requests particle_queue flat_map length replicate
         queued_request fst snd].
    rewrite <- !app_assoc, length_app. cbn [app length].
    repeat split; try reflexivity; lia.
Qed.

Lemma queued_requests_fmap {B : Type} (g : float4 * float4 -> B) (h : Request -> B)
    radius reqs :
  (forall k r, g (queued_request RAND_MAX rand_seq radius k r) = h r) ->
  forall k, g <$> queued_requests RAND_MAX rand_seq radius k reqs = h <$> reqs.
Proof.
  intros H. induction reqs as [|r rs IH]; intros k; [reflexivity|].
  cbn [queued_requests]. csimpl. rewrite H. f_equal. apply IH.
Qed.

Lemma queued_requests_length radius reqs : forall k,
  length (queued_requests RAND_MAX rand_seq radius k reqs) = length reqs.
Proof.
  induction reqs as [|r rs IH]; intros k; [reflexivity|].
  cbn [queued_requests length]. f_equal. apply IH.
Qed.

(** X7: particles requested through [setParticleToAdd] and then drained
    by [addParticles], with room for all of them, enter the store in the
    order of the requests: each with the requested velocity and mass, at
    the requested position with x and y displaced by the jitter and z
    untouched.  The colour ranges recorded at request time all name the
    one slot that was free when the row began. *)
Theorem queued_particles_round_trip reqs s :
  store_ok s ->
  m_particlesToAdd s = [] ->
  m_numParticles s + Z.of_nat (length reqs) <= m_maxParticles s ->
  let entries :=
    queued_requests RAND_MAX rand_seq (m_particleRadius s) (rand_calls s) reqs in
  let s' := addParticles SOLID (queue_all numColors colors RAND_MAX rand_seq reqs s) in
  m_particlesToAdd s' = []
  /\ m_numParticles s' = m_numParticles s + Z.of_nat (length reqs)
  /\ admitted_positions s s' = fst <$> entries
  /\ f4z <$> admitted_positions s s' = (fun r => f3z (rq_pos r)) <$> reqs
  /\ d_vel (gpu s')
     = d_vel (gpu s)
       ++ ((fun r => make_float4 (f3x (rq_vel r)) (f3y (rq_vel r)) (f3z (rq_vel r))
                                 F32.zero) <$> reqs)
  /\ d_W (gpu s') = d_W (gpu s) ++ ((fun r => F32.div F32.one (rq_mass r)) <$> reqs)
  /\ d_ro (gpu s') = d_ro (gpu s) ++ replicate (length reqs) F32.c_1_5
  /\ d_phase (gpu s') = d_phase (gpu s) ++ replicate (length reqs) SOLID
  /\ m_colorIndex s'
     = m_colorIndex s
       ++ replicate (length reqs)
            (make_int2 (to_int (m_numParticles s))
                       (to_int (to_uint (m_numParticles s + 1)))).
Proof.
  intros Hs Q0 Room entries s'.
  pose proof (queue_all_spec reqs s) as S1. cbv zeta in S1.
  set (s1 := queue_all numColors colors RAND_MAX rand_seq reqs s) in *.
  destruct S1 as (Q & _ & I & _ & _ & G & N & M & _).
  rewrite Q0 in Q. cbn [app] in Q. fold entries in Q.
  assert (length entries = length reqs) as Le by apply queued_requests_length.
  pose proof Hs as (((H0 & H1) & Hlen & Hmax) & _).
  assert (store_ok s1) as Hs1.
  { unfold store_ok, buffer_ok. rewrite G, N, M. exact Hs. }
  assert (Z.of_nat (length entries) < UINT_MOD) as Lt by (rewrite Le; lia).
  assert (s' = set_particlesToAdd [] (admit_all (queued_particle SOLID <$> entries) s1)) as E
    by (apply addParticles_as_admissions; assumption).
  pose proof (admit_all_spec (queued_particle SOLID <$> entries) s1 Hs1) as A.
  cbv zeta in A. rewrite length_fmap, Le in A.
  replace (fitting (length reqs) s1) with (length reqs) in A
    by (unfold fitting; rewrite N, M; lia).
  rewrite (take_ge (queued_particle SOLID <$> entries)) in A
    by (rewrite length_fmap; lia).
  rewrite G, N in A.
  destruct A as (_ & N' & _ & B & V & R & P & W).
  destruct (admit_all_host (queued_particle SOLID <$> entries) s1) as (_ & _ & I' & _).
  assert (admitted_positions s s' = fst <$> entries) as Pos.
  { unfold admitted_positions. rewrite E.
    cbn [set_particlesToAdd m_numParticles gpu]. rewrite N', B.
    replace (Z.to_nat (m_numParticles s + Z.of_nat (length reqs) - m_numParticles s))
      with (length reqs) by lia.
    rewrite drop_app_length' by (rewrite length_take; lia).
    rewrite take_app_length' by (rewrite !length_fmap; symmetry; exact Le).
    rewrite <- list_fmap_compose. reflexivity. }
  rewrite Pos, E. cbn [set_particlesToAdd m_particlesToAdd m_numParticles gpu m_colorIndex].
  rewrite N', V, R, P, W, I', I, <- !list_fmap_compose.
  split; [reflexivity|]. split; [reflexivity|]. split; [reflexivity|].
  split; [apply queued_requests_fmap; reflexivity|].
  split; [f_equal; apply queued_requests_fmap; reflexivity|].
  split; [f_equal; apply queued_requests_fmap; reflexivity|].
  split; [f_equal; rewrite <- Le; apply fmap_constant; reflexivity|].
  split; [f_equal; rewrite <- Le; apply fmap_constant; reflexivity|].
  reflexivity.
Qed.

End QueueFacts.

(** ** The arrays of the cloth builder *)

Section ClothFacts.

Variable RIGID : Z.
Variable numColors : Z.
Variable colors : Z -> float3.
Variable rand_seq : nat -> Z.






Lemma cloth_plane_pos_length start ll count spacing dist holdEdges nx m : forall j a,
  length (c_pos (for_loop m j (fun z =>
                   for_loop nx 0 (cloth_body start ll count spacing dist holdEdges z)) a))
  = (length (c_pos a) + m * nx)%nat.
Proof.
  induction m as [|m IH]; intros j a; cbn [for_loop]; [lia|].
  rewrite IH, cloth_row_pos, length_app, length_fmap, length_seqZ. lia.
Qed.


Lemma addParticleMultiple_constraints pos vel mass ro phase n s :
  d_distance (gpu (addParticleMultiple pos vel mass ro phase n s)) = d_distance (gpu s)
  /\ d_point (gpu (addParticleMultiple pos vel mass ro phase n s)) = d_point (gpu s)
  /\ m_rigidIndex (addParticleMultiple pos vel mass ro phase n s) = m_rigidIndex s.
Proof.
  unfold addParticleMultiple. destruct (_ <=? _); repeat split; reflexivity.
Qed.


Lemma axis_count_in_int lo hi distance c :
  axis_count lo hi distance = Some c -> INT_MIN <= c <= INT_MAX.
Proof.
  unfold axis_count, F32.to_int. intros H.
  destruct (F32.trunc _) as [z|]; [|discriminate]. cbn [mbind option_bind] in H.
  destruct (in_int z) eqn:I; [|discriminate].
  apply (inj Some) in H. subst c. apply in_int_bounds. exact I.
Qed.

(** X9: the cloth builder is defined for proper sheets only.  Whenever a
    call of [addHorizCloth] is defined, its two particle counts are both
    positive or both zero: with no particles along one axis only, or with a
    negative count, the arrays it hands on are not the arrays it wrote. *)
Theorem cloth_defined_only_for_sheets ll ur spacing dist mass holdEdges s s' :
  addHorizCloth RIGID numColors colors rand_seq ll ur spacing dist mass holdEdges s
  = Some s' ->
  exists cx cy,
    axis_count (i2x ll) (i2x ur) (f3x spacing) = Some cx
    /\ axis_count (i2y ll) (i2y ur) (f3z spacing) = Some cy
    /\ ((1 <= cx /\ 1 <= cy) \/ (cx = 0 /\ cy = 0)).
Proof.
  intros H. unfold addHorizCloth in H.
  destruct (axis_count _ _ (f3x spacing)) as [cx|] eqn:Hx; [|discriminate].
  cbn [mbind option_bind] in H.
  destruct (axis_count _ _ (f3z spacing)) as [cy|] eqn:Hy; [|discriminate].
  cbn [mbind option_bind] in H. cbv zeta in H.
  exists cx, cy. split; [reflexivity|]. split; [reflexivity|].
  apply axis_count_in_int in Hx, Hy.
  set (empty := {| c_pos := []; c_indicesP := []; c_points := [];
                   c_indicesD := []; c_dists := [] |}) in H.
  match type of H with
  | context [array_filled _ (c_pos ?a)] => set (arrays := a) in H
  end.
  destruct (in_int (cx * cy)); [|discriminate].
  destruct (array_filled (cx * cy) (c_pos arrays)) eqn:AF; [|discriminate].
  destruct (array_filled _ (c_dists arrays)) eqn:AD; [|discriminate].
  clear H. apply array_filled_size in AF as [A0 AF], AD as [D0 AD].
  rewrite (cloth_plane_pos_length (to_int (m_numParticles s)) ll (make_int2 cx cy) spacing
             dist holdEdges (Z.to_nat cx) (Z.to_nat cy) 0 empty
           : length (c_pos arrays) = _) in AF.
  cbn [empty c_pos length] in AF.
  destruct (Z_le_gt_dec 1 cx) as [Cx|Cx], (Z_le_gt_dec 1 cy) as [Cy|Cy];
    [left; split; assumption| | |]; right.
  all: assert (cx * cy = 0) as Z0 by (rewrite <- AF; nia).
  all: assert (arrays = empty) as E.
  all: try (unfold arrays; replace (Z.to_nat cy) with 0%nat by lia; reflexivity).
  all: try (unfold arrays; replace (Z.to_nat cx) with 0%nat by lia;
            apply (for_loop_invariant (fun a => a = empty)); [|reflexivity];
            intros j x ->; reflexivity).
  all: rewrite E in AD; cbn [empty c_dists length] in AD.
  all: assert (cx = 0 \/ cy = 0) as [->| ->] by nia.
  all: unfold to_uint, UINT_MOD, INT_MIN, INT_MAX in *.
  all: split; try reflexivity.
  all: symmetry in AD; apply Z.mod_divide in AD; [|lia]; destruct AD as [q Q]; lia.
Qed.

End ClothFacts.

(** ** The lattice builders *)

Section LatticeFacts.

Variables SOLID FLUID : Z.
Variable numColors : Z.
Variable colors : Z -> float3.
Variable RAND_MAX : Z.
Variable rand_seq : nat -> Z.






End LatticeFacts.

(** ** The static sphere *)

Section SphereFacts.

Variable RIGID : Z.
Variable numColors : Z.
Variable colors : Z -> float3.
Variable rand_seq : nat -> Z.

Lemma sphere_body_vectors startI ll spacing radius center z y x a :
  sphere_vectors startI center radius a ->
  sphere_vectors startI center radius
    (sphere_body startI ll spacing radius center z y x a).
Proof.
  destruct a as [[posV indices] points]. unfold sphere_vectors, sphere_body.
  cbn [fst snd]. intros (In & Ix & Pt).
  destruct (F32.ltb _ _) eqn:T; cbn [fst snd]; [|repeat split; assumption].
  split; [|split].
  - apply Forall_app. split; [exact In|]. constructor; [exact T|constructor].
  - rewrite imap_app. cbn [imap]. rewrite Nat.add_0_r.
    rewrite Ix at 2. rewrite length_imap. rewrite <- Ix. reflexivity.
  - rewrite fmap_app, Pt. reflexivity.
Qed.

Lemma pins_of_vectors (f : nat -> Z) (l : list float4) :
  zip_with Build_PointConstraint (imap (fun i _ => f i) l) (make_float3_4 <$> l)
  = imap (fun i p => pin (f i) (make_float3_4 p)) l.
Proof.
  revert f. induction l as [|p l IH]; intros f; [reflexivity|].
  cbn [imap]. csimpl. f_equal. apply (IH (f ∘ S)).
Qed.

(** X12: whatever [addStaticSphere] keeps lies strictly inside the ball
    around the corner plus the radius, and every kept site is pinned at its
    own position, under the index it gets if the batch is admitted; the
    pins are added even when the batch is dropped.  An admitted ball is
    stored with inverse mass 0.01. *)
Theorem sphere_pins_every_particle ll ur spacing s s' :
  addStaticSphere RIGID numColors colors rand_seq ll ur spacing s = Some s' ->
  let radius := F32.mul (F32.of_Z (to_int (i3x ur - i3x ll))) F32.c_0_5 in
  let center := f3add (make_float3_i ll) (make_float3_s radius) in
  exists posV,
    Forall (fun p => inside_ball center radius p = true) posV
    /\ d_point (gpu s') = d_point (gpu s) ++ sphere_pins (m_numParticles s) posV
    /\ d_distance (gpu s') = d_distance (gpu s)
    /\ (buffer_ok s ->
        Z.of_nat (length posV) <= INT_MAX ->
        m_numParticles s' <> m_numParticles s ->
        m_numParticles s' = m_numParticles s + Z.of_nat (length posV)
        /\ admitted_positions s s' = posV
        /\ d_W (gpu s') = d_W (gpu s) ++ replicate (length posV) F32.c_0_01).
Proof.
  intros H radius center. unfold addStaticSphere in H.
  destruct (make_count3 _ _ _) as [count|]; [|discriminate].
  cbn [mbind option_bind] in H. cbv zeta in H. fold radius center in H.
  set (loop := for_loop _ _ _ _) in H.
  assert (sphere_vectors (m_numParticles s) center radius loop) as Inv.
  { subst loop.
    apply for_loop_invariant; [|repeat split; constructor]. intros z a1.
    apply for_loop_invariant. intros y a2.
    apply for_loop_invariant. intros x a3.
    apply sphere_body_vectors. }
  destruct loop as [[posV indices] points]. destruct Inv as (In & Ix & Pt).
  cbn [fst snd] in In, Ix, Pt.
  assert (length indices = length posV) as Li by (rewrite Ix; apply length_imap).
  destruct (0 <=? to_int (Z.of_nat (length indices))) eqn:N; [|discriminate].
  cbn [negb] in H. apply (inj Some) in H.
  exists posV. split; [exact In|].
  set (n := to_int (Z.of_nat (length indices))) in *.
  set (batch := addParticleMultiple posV _ _ _ _ n s) in H.
  destruct (addParticleMultiple_constraints posV
              (replicate (Z.to_nat n) zero4) (replicate (Z.to_nat n) F32.c_0_01)
              (replicate (Z.to_nat n) F32.one)
              (replicate (Z.to_nat n) (to_int (RIGID + m_rigidIndex s))) n s)
    as (D & P & _).
  fold batch in D, P.
  assert (d_point (gpu s') = d_point (gpu batch)
                             ++ take (Z.to_nat (Z.of_nat (length indices)))
                                  (zip_with Build_PointConstraint indices points)
          /\ d_distance (gpu s') = d_distance (gpu batch)
          /\ m_numParticles s' = m_numParticles batch
          /\ posVbo (gpu s') = posVbo (gpu batch)
          /\ d_W (gpu s') = d_W (gpu batch)) as (E1 & E2 & E3 & E4 & E5).
  { subst s'. unfold random_color, rand. repeat split; reflexivity. }
  rewrite E1, E2, E3, E5, P, D. clear E1 E2 E5.
  split; [|split; [reflexivity|]].
  - f_equal. rewrite Ix, Pt, pins_of_vectors.
    apply take_ge. rewrite Nat2Z.id. unfold sphere_pins. rewrite !length_imap. lia.
  - intros Hb Fit Adm.
    assert (n = Z.of_nat (length posV)) as En.
    { subst n. rewrite Li. apply to_int_small. unfold INT_MIN, INT_MAX in *. lia. }
    destruct (addParticleMultiple_cases posV
                (replicate (Z.to_nat n) zero4) (replicate (Z.to_nat n) F32.c_0_01)
                (replicate (Z.to_nat n) F32.one)
                (replicate (Z.to_nat n) (to_int (RIGID + m_rigidIndex s))) n s Hb)
      as [[_ Same]|(_ & Num & _ & _ & _ & _ & _ & W & _)]; [lia| |].
    + fold batch in Same. rewrite Same in Adm. contradiction.
    + fold batch in Num, W. rewrite Num, W, take_replicate_all, En, Nat2Z.id.
      split; [reflexivity|]. split; [|reflexivity].
      apply (builder_positions s s s' posV (replicate (Z.to_nat n) zero4)
               (replicate (Z.to_nat n) F32.c_0_01) (replicate (Z.to_nat n) F32.one)
               (replicate (Z.to_nat n) (to_int (RIGID + m_rigidIndex s))) n);
        try assumption; try reflexivity; try lia.
      split; reflexivity.
Qed.

End SphereFacts.

(** ** Overwriting positions *)

(** X13: on an engine that is set up, [setArray] for the position array
    with a window inside the buffer replaces exactly the slots of the
    window by the data, in order, whether or not those slots hold
    particles; a window that reaches past the buffer changes no slot.  The
    host's book-keeping is untouched, and a call for the velocity array
    changes nothing at all. *)
Theorem setArray_writes_window data start count s :
  m_initialized s = true ->
  0 <= start -> 0 <= count ->
  start * 4 <= INT_MAX -> count * 4 <= INT_MAX ->
  Z.of_nat (length data) = count ->
  exists s',
    setArray true data start count s = Some s'
    /\ host_view s' = host_view s
    /\ gpu s' = with_posVbo (fun _ => posVbo (gpu s')) (gpu s)
    /\ (start + count <= Z.of_nat (length (posVbo (gpu s))) ->
        forall i : nat,
          posVbo (gpu s') !! i
          = if (Z.to_nat start <=? i)%nat && (i <? Z.to_nat (start + count))%nat
            then data !! (i - Z.to_nat start)%nat
            else posVbo (gpu s) !! i)
    /\ (Z.of_nat (length (posVbo (gpu s))) < start + count -> gpu s' = gpu s)
    /\ setArray false data start count s = Some s.
Proof.
  intros Init S0 C0 S1 C1 Ld. unfold setArray. rewrite Init. cbn [negb].
  eexists. split; [reflexivity|].
  cbn [host_view issue glBufferSubData set_gpu gpu with_posVbo posVbo
       m_initialized m_particleRadius m_maxParticles m_numParticles m_gridSize
       m_numGridCells m_gridSortBits m_rigidIndex m_minBounds m_maxBounds
       m_solverIterations m_params m_particlesToAdd m_fluidsToAdd m_colorIndex
       m_colors rand_calls].
  rewrite (to_int_small (start * 4)), (to_int_small (count * 4))
    by (unfold INT_MIN, INT_MAX in *; lia).
  replace (start * 4 * 4) with (start * 16) by lia.
  replace (count * 4 * 4) with (count * 16) by lia.
  split; [reflexivity|]. split; [reflexivity|]. split; [|split; [|reflexivity]].
  - intros Fit i. rewrite buffer_write_at by lia.
    rewrite (take_ge data) by lia.
    set (a := Z.to_nat start). set (buf := posVbo (gpu s)).
    replace (Z.to_nat (start + count)) with (a + length data)%nat by lia.
    replace (Z.to_nat count) with (length data) by lia.
    assert (length (take a buf) = a) as La by (rewrite length_take; subst a buf; lia).
    destruct (Nat.leb_spec a i) as [Ge|Lt]; cbn [andb].
    + rewrite lookup_app_r by lia. rewrite La.
      destruct (Nat.ltb_spec i (a + length data)) as [In|Out].
      * rewrite lookup_app_l by lia. reflexivity.
      * rewrite lookup_app_r by lia. rewrite lookup_drop. f_equal. lia.
    + rewrite lookup_app_l by lia. apply lookup_take_lt. lia.
  - intros Out. unfold with_posVbo. rewrite buffer_write_outside by lia.
    destruct (gpu s). reflexivity.
Qed.

(** ** Batches *)

(** X14: a batch that leaves at least one slot free is stored entry by
    entry: the particle in slot [numParticles + i] gets position, velocity,
    rest density and phase number [i] of the batch, and entry [i] of the
    array passed as [mass] is stored as its inverse mass as it stands. *)
Theorem batch_admitted_in_order pos vel mass ro phase n s :
  store_ok s ->
  arrays_ok (OpAddParticleMultiple pos vel mass ro phase n) ->
  m_numParticles s + n < m_maxParticles s ->
  let s' := addParticleMultiple pos vel mass ro phase n s in
  m_numParticles s' = m_numParticles s + n
  /\ forall i : nat, (i < Z.to_nat n)%nat ->
       let j := (Z.to_nat (m_numParticles s) + i)%nat in
       posVbo (gpu s') !! j = pos !! i
       /\ d_vel (gpu s') !! j = vel !! i
       /\ d_ro (gpu s') !! j = ro !! i
       /\ d_phase (gpu s') !! j = phase !! i
       /\ d_W (gpu s') !! j = mass !! i.
Proof.
  intros (Hb & Lv & Lr & Lp & Lw & _) (Hn & Ap & Av & Am & Ar & Aph) Room s'.
  destruct (addParticleMultiple_cases pos vel mass ro phase n s Hb Hn)
    as [[Full _]|(_ & N & _ & B & V & R & P & W & _)]; [lia|].
  fold s' in N, B, V, R, P, W. split; [exact N|].
  intros i Hi j. rewrite B, V, R, P, W.
  destruct Hb as ((H0 & H1) & Hlen & Hmax).
  rewrite buffer_write_at by lia.
  assert (length (take (Z.to_nat (m_numParticles s)) (posVbo (gpu s)))
          = Z.to_nat (m_numParticles s)) as La by (rewrite length_take; lia).
  subst j. repeat split.
  - rewrite lookup_app_r by lia. rewrite La.
    rewrite lookup_app_l by (rewrite length_take; lia).
    replace (Z.to_nat (m_numParticles s) + i - Z.to_nat (m_numParticles s))%nat with i by lia.
    apply lookup_take_lt. exact Hi.
  - rewrite lookup_app_r by lia.
    replace (Z.to_nat (m_numParticles s) + i - length (d_vel (gpu s)))%nat with i by lia.
    apply lookup_take_lt. exact Hi.
  - rewrite lookup_app_r by lia.
    replace (Z.to_nat (m_numParticles s) + i - length (d_ro (gpu s)))%nat with i by lia.
    apply lookup_take_lt. exact Hi.
  - rewrite lookup_app_r by lia.
    replace (Z.to_nat (m_numParticles s) + i - length (d_phase (gpu s)))%nat with i by lia.
    apply lookup_take_lt. exact Hi.
  - rewrite lookup_app_r by lia.
    replace (Z.to_nat (m_numParticles s) + i - length (d_W (gpu s)))%nat with i by lia.
    apply lookup_take_lt. exact Hi.
Qed.

(** ** The colour groups *)

Section PaletteFacts.

Variables SOLID FLUID RIGID : Z.
Variable numColors : Z.
Variable colors : Z -> float3.
Variable RAND_MAX : Z.
Variable rand_seq : nat -> Z.
Variable kernel : KernelCall -> Device -> Device.

Lemma same_palette_refl s : same_palette s s.
Proof. split; reflexivity. Qed.

Lemma same_palette_trans s1 s2 s3 :
  same_palette s1 s2 -> same_palette s2 s3 -> same_palette s1 s3.
Proof. intros [A B] [C D]. split; congruence. Qed.

Lemma palette_ok_same s s' : palette_ok s -> same_palette s s' -> palette_ok s'.
Proof. unfold palette_ok. intros H [-> ->]. exact H. Qed.

(** A group pushed behind steps that leave the groups alone. *)
Lemma palette_ok_push s s1 range color :
  palette_ok s -> same_palette s s1 -> palette_ok (push_color range color s1).
Proof.
  unfold palette_ok. intros H [I C]. cbn [push_color m_colorIndex m_colors].
  rewrite I, C, !length_app, H. reflexivity.
Qed.

Lemma addParticle_palette pos vel mass ro phase s :
  same_palette s (addParticle pos vel mass ro phase s).
Proof. unfold addParticle. destruct (_ =? _); split; reflexivity. Qed.

Lemma addParticleMultiple_palette pos vel mass ro phase n s :
  same_palette s (addParticleMultiple pos vel mass ro phase n s).
Proof. unfold addParticleMultiple. destruct (_ <=? _); split; reflexivity. Qed.

Lemma iter_palette k s : same_palette s (Nat.iter k tick_rand s).
Proof.
  split; [apply (iter_tick_field m_colorIndex)|apply (iter_tick_field m_colors)];
    reflexivity.
Qed.

Lemma addParticles_palette s : same_palette s (addParticles SOLID s).
Proof.
  unfold addParticles. destruct (m_particlesToAdd s) eqn:E; [apply same_palette_refl|].
  clear E.
  match goal with |- same_palette _ (addParticles_loop _ ?k _) => generalize k end.
  intros size. revert s. induction size as [|size IH]; intros s; cbn [addParticles_loop].
  - apply same_palette_refl.
  - destruct (m_particlesToAdd s) as [|pos [|vel rest]]; try apply same_palette_refl.
    eapply same_palette_trans; [|apply IH].
    eapply same_palette_trans; [|apply addParticle_palette]. split; reflexivity.
Qed.

Lemma addFluids_palette s : palette_ok s -> palette_ok (addFluids FLUID s).
Proof.
  intros Hs. unfold addFluids. destruct (m_fluidsToAdd s) eqn:E; [exact Hs|]. clear E.
  match goal with
  | |- palette_ok (let '(_, _) := addFluids_loop _ ?k _ _ in _) => generalize k
  end.
  intros size.
  assert (forall color s0, same_palette s0 (snd (addFluids_loop FLUID size color s0))) as L.
  { induction size as [|size IH]; intros color s0; cbn [addFluids_loop snd].
    - apply same_palette_refl.
    - destruct (m_fluidsToAdd s0) as [|pos [|color' rest]]; try apply same_palette_refl.
      eapply same_palette_trans; [|apply IH].
      eapply same_palette_trans; [|apply addParticle_palette]. split; reflexivity. }
  specialize (L zero4 s).
  destruct (addFluids_loop FLUID size zero4 s) as [color s1]. cbn [snd] in L.
  apply (palette_ok_push s); assumption.
Qed.

Lemma addNewStuff_palette s : palette_ok s -> palette_ok (addNewStuff SOLID FLUID s).
Proof.
  intros Hs. unfold addNewStuff. apply addFluids_palette.
  eapply palette_ok_same; [exact Hs|apply addParticles_palette].
Qed.

Lemma solver_iteration_palette s : same_palette s (solver_iteration kernel s).
Proof. split; reflexivity. Qed.

Lemma update_palette deltaTime s s' :
  palette_ok s -> update SOLID FLUID kernel deltaTime s = Some s' -> palette_ok s'.
Proof.
  intros Hs H. unfold update in H.
  destruct (m_initialized s); [|discriminate]. cbn [negb] in H.
  destruct (m_numParticles s =? 0); apply (inj Some) in H; subst s';
    apply addNewStuff_palette; [exact Hs|].
  eapply palette_ok_same; [exact Hs|].
  match goal with
  | |- context [for_loop ?n ?i ?body ?a] =>
      apply (for_loop_invariant (same_palette s) body n i a)
  end.
  - intros _ x Hx. eapply same_palette_trans; [exact Hx|apply solver_iteration_palette].
  - split; reflexivity.
Qed.

(** A builder is draws, one batch, and constraints and bookkeeping that
    leave the groups alone, with one group pushed at the end. *)
Ltac one_group s :=
  unfold random_color, rand;
  cbn [set_rigidIndex tick_rand];
  unfold palette_ok;
  cbn [m_colorIndex m_colors push_color set_rigidIndex tick_rand addPointConstraint
       addDistanceConstraint issue set_gpu set_particlesToAdd set_fluidsToAdd];
  repeat match goal with
         | |- context [m_colorIndex (addParticleMultiple ?a ?b ?c ?d ?e ?n ?x)] =>
             rewrite (proj1 (addParticleMultiple_palette a b c d e n x))
         | |- context [m_colors (addParticleMultiple ?a ?b ?c ?d ?e ?n ?x)] =>
             rewrite (proj2 (addParticleMultiple_palette a b c d e n x))
         | |- context [m_colorIndex (Nat.iter ?k tick_rand ?x)] =>
             rewrite (proj1 (iter_palette k x))
         | |- context [m_colors (Nat.iter ?k tick_rand ?x)] =>
             rewrite (proj2 (iter_palette k x))
         end;
  rewrite !length_app; cbn [length]; unfold palette_ok in *; lia.

Lemma exec_palette o s s' :
  palette_ok s ->
  exec SOLID FLUID RIGID numColors colors RAND_MAX rand_seq kernel o s = Some s' ->
  palette_ok s'.
Proof.
  intros Hs H. destruct o; cbn [exec] in H.
  - eapply update_palette; eauto.
  - apply (inj Some) in H. subst s'.
    eapply palette_ok_same; [exact Hs|apply addParticle_palette].
  - apply (inj Some) in H. subst s'.
    eapply palette_ok_same; [exact Hs|apply addParticleMultiple_palette].
  - apply (inj Some) in H. subst s'.
    eapply palette_ok_same; [exact Hs|apply addParticles_palette].
  - apply (inj Some) in H. subst s'. apply addFluids_palette, Hs.
  - apply (inj Some) in H. subst s'. apply addNewStuff_palette, Hs.
  - apply (inj Some) in H. subst s'.
    unfold setParticleToAdd, jittered, frand. one_group s.
  - apply (inj Some) in H. subst s'. exact Hs.
  - unfold addFluid in H.
    destruct (make_count3 _ _ _) as [count|]; [|discriminate].
    cbn [mbind option_bind] in H. rewrite lattice_fill_sites in H.
    cbv beta iota zeta in H.
    destruct (negb _); [discriminate|]. apply (inj Some) in H. subst s'. one_group s.
  - unfold addParticleGrid in H.
    destruct (make_count3 _ _ _) as [count|]; [|discriminate].
    cbn [mbind option_bind] in H. rewrite lattice_fill_sites in H.
    cbv beta iota zeta in H.
    destruct (negb _); [discriminate|]. apply (inj Some) in H. subst s'. one_group s.
  - unfold addHorizCloth in H.
    destruct (axis_count _ _ (f3x spacing)) as [cx|]; [|discriminate].
    cbn [mbind option_bind] in H.
    destruct (axis_count _ _ (f3z spacing)) as [cy|]; [|discriminate].
    cbn [mbind option_bind] in H. cbv zeta in H.
    destruct (negb _); [discriminate|]. apply (inj Some) in H. subst s'. one_group s.
  - unfold addRope in H.
    destruct (negb _); [discriminate|].
    destruct (for_loop _ _ _ _) as [[pos indicesD] dists].
    apply (inj Some) in H. subst s'. destruct constrainStart; one_group s.
  - unfold addStaticSphere in H.
    destruct (make_count3 _ _ _) as [count|]; [|discriminate].
    cbn [mbind option_bind] in H. cbv zeta in H.
    destruct (for_loop _ _ _ _) as [[posV indices] points].
    destruct (negb _); [discriminate|]. apply (inj Some) in H. subst s'. one_group s.
  - apply (inj Some) in H. subst s'. exact Hs.
  - apply (inj Some) in H. subst s'. exact Hs.
  - unfold setArray in H. destruct (negb _); [discriminate|].
    destruct isPosArray; apply (inj Some) in H; subst s'; exact Hs.
Qed.

(** X15: the colour groups stay paired.  Whatever is run on an engine in
    which every index range has its colour, every state on the way has as
    many index ranges as colours: each operation that records a range
    records a colour with it, also when no particle was admitted. *)
Theorem colour_groups_stay_paired ops : forall s states,
  palette_ok s ->
  run SOLID FLUID RIGID numColors colors RAND_MAX rand_seq kernel ops s = Some states ->
  Forall palette_ok states.
Proof.
  induction ops as [|o ops IH]; intros s states Hs Hrun; cbn [run] in Hrun.
  - apply (inj Some) in Hrun. subst states. constructor.
  - destruct (exec _ _ _ _ _ _ _ _ o s) as [s1|] eqn:E; [|discriminate].
    cbn [mbind option_bind] in Hrun.
    destruct (run _ _ _ _ _ _ _ _ ops s1) as [rest|] eqn:R; [|discriminate].
    cbn [mbind option_bind] in Hrun. apply (inj Some) in Hrun. subst states.
    assert (palette_ok s1) as H1 by (eapply exec_palette; eauto).
    constructor; [exact H1|]. eapply IH; eauto.
Qed.

End PaletteFacts.

(** ** Ropes of any length *)

Section RopeFacts.

Variable RIGID : Z.
Variable numColors : Z.
Variable colors : Z -> float3.
Variable rand_seq : nat -> Z.

(** X16: a rope of [numLinks] links, with room for more than its
    [numLinks + 1] particles, is admitted as the start followed by one
    particle per link, the [i]-th at [start + i * spacing], and each
    particle is linked to the one before it at the given rest length.  A
    negative number of links is outside the defined behaviour. *)
Theorem rope_hangs_from_start start spacing dist numLinks mass constrainStart s :
  (numLinks < 0 ->
   addRope RIGID numColors colors rand_seq start spacing dist numLinks mass
           constrainStart s = None)
  /\ (buffer_ok s ->
      0 <= numLinks < INT_MAX ->
      m_numParticles s + (numLinks + 1) < m_maxParticles s ->
      exists s',
        addRope RIGID numColors colors rand_seq start spacing dist numLinks mass
                constrainStart s = Some s'
        /\ m_numParticles s' = m_numParticles s + (numLinks + 1)
        /\ admitted_positions s s' = rope_positions start spacing numLinks
        /\ d_distance (gpu s')
           = d_distance (gpu s) ++ rope_links (m_numParticles s) dist numLinks).
Proof.
  split.
  - intros Neg. unfold addRope.
    rewrite (proj2 (Z.leb_gt 0 numLinks)) by lia. reflexivity.
  - intros Hb Hn Room. unfold addRope.
    rewrite (proj2 (Z.leb_le 0 numLinks)) by lia.
    assert (in_int (numLinks + 1) = true) as ->.
    { unfold in_int, INT_MIN, INT_MAX in *. apply andb_true_iff.
      rewrite !Z.leb_le. lia. }
    cbn [negb andb].
    destruct (for_loop _ _ _ _) as [[pos indicesD] dists] eqn:L.
    pose proof (rope_constraints _ _ _ _ _ _ _ _ (proj1 Hn) L) as Links.
    rewrite rope_loop in L. injection L as Epos _ _.
    rewrite Z2Nat.id in Epos by lia. cbn [app] in Epos.
    change (_ :: _) with (rope_positions start spacing numLinks) in Epos.
    set (n := Z.to_nat (numLinks + 1)).
    set (batch := addParticleMultiple pos (replicate n zero4)
                    (replicate n (F32.div F32.one mass)) (replicate n F32.one)
                    (replicate n (to_int (RIGID + m_rigidIndex s))) (numLinks + 1) s).
    destruct (addParticleMultiple_cases pos (replicate n zero4)
                (replicate n (F32.div F32.one mass)) (replicate n F32.one)
                (replicate n (to_int (RIGID + m_rigidIndex s))) (numLinks + 1) s Hb)
      as [[Full _]|(_ & Num & _ & _ & _ & _ & _ & _ & _ & D & _)]; [lia|lia|].
    fold batch in Num, D.
    eexists. split; [reflexivity|].
    unfold random_color, rand.
    assert (Z.of_nat (length pos) = numLinks + 1) as Lp.
    { rewrite <- Epos. unfold rope_positions. cbn [length].
      rewrite length_fmap, length_seqZ. lia. }
    split; [|split].
    + destruct constrainStart; exact Num.
    + rewrite Epos.
      apply (builder_positions s s _ pos (replicate n zero4)
               (replicate n (F32.div F32.one mass)) (replicate n F32.one)
               (replicate n (to_int (RIGID + m_rigidIndex s))) (numLinks + 1));
        try assumption; try reflexivity; try lia.
      * split; reflexivity.
      * destruct constrainStart; reflexivity.
      * destruct constrainStart; reflexivity.
      * fold batch.
        assert (m_numParticles batch <> m_numParticles s) as Adm by lia.
        destruct constrainStart; exact Adm.
    + destruct constrainStart;
        cbn [set_rigidIndex push_color tick_rand gpu addPointConstraint
             addDistanceConstraint issue set_gpu d_distance];
        fold batch; rewrite D, Links; reflexivity.
Qed.

End RopeFacts.

(** ** The further properties at work on the sample platform *)

Lemma sample_kernel_keeps_sizes : keeps_sizes Sample.kernel.
Proof. intros k d. reflexivity. Qed.

Lemma sample_engine_sound : store_ok (Sample.engine 10).
Proof. evaluate. Qed.

Lemma sample_session_arrays : Forall arrays_ok Sample.session.
Proof. unfold Sample.session. repeat constructor; unfold INT_MAX; cbn [length]; lia. Qed.

Lemma fresh_engine_witness :
  m_numParticles (Sample.engine 10) = 0 /\ store_ok (Sample.engine 10).
Proof.
  destruct (fresh_engine Sample.kernel F32.c_0_5 (make_uint3 4 4 4) 10
              (make_int3 0 0 0) (make_int3 4 4 4) 3 sample_kernel_keeps_sizes)
    as (_ & N & _ & _ & _ & _ & _ & _ & Ok); [unfold UINT_MOD; lia|].
  split; [exact N|]. apply Ok. unfold UINT_MOD. lia.
Defined.

Lemma addParticle_writes_slot_witness :
  let s' := Sample.add_still (Sample.engine 10) in
  m_numParticles s' = 1
  /\ posVbo (gpu s') !! 0%nat = Some Sample.still
  /\ d_W (gpu s') !! 0%nat = Some (F32.div F32.one F32.one).
Proof.
  intros s'.
  destruct (addParticle_writes_slot Sample.still zero4 F32.one F32.one Sample.SOLID
              (Sample.engine 10) sample_engine_sound)
    as (N & B & _ & _ & _ & W & _); [evaluate|].
  split; [exact N|]. split; [exact B|exact W].
Defined.

Lemma store_invariant_witness :
  exists states,
    Sample.run Sample.session (Sample.engine 10) = Some states
    /\ length states = 12%nat
    /\ Forall store_ok states.
Proof.
  destruct (Sample.run Sample.session (Sample.engine 10)) as [states|] eqn:E;
    [|vm_compute in E; discriminate].
  exists states. split; [reflexivity|]. split.
  - revert E. generalize states. vm_compute. intros ? [= <-]. reflexivity.
  - exact (store_invariant Sample.SOLID Sample.FLUID Sample.RIGID Sample.numColors
             Sample.colors Sample.RAND_MAX Sample.rand_seq Sample.kernel
             Sample.session (Sample.engine 10) states sample_kernel_keeps_sizes
             sample_engine_sound sample_session_arrays E).
Defined.

Lemma host_op_continues_witness :
  exists s',
    Sample.rope 5 (Sample.add_still (Sample.engine 10)) = Some s'
    /\ continues (Sample.add_still (Sample.engine 10)) s'.
Proof.
  destruct (Sample.rope 5 (Sample.add_still (Sample.engine 10))) as [s'|] eqn:E;
    [|vm_compute in E; discriminate].
  exists s'. split; [reflexivity|].
  apply (host_op_continues Sample.SOLID Sample.FLUID Sample.RIGID Sample.numColors
           Sample.colors Sample.RAND_MAX Sample.rand_seq Sample.kernel
           (OpAddRope Sample.origin Sample.unit_x F32.one 5 F32.one true)).
  - evaluate.
  - exact I.
  - exact I.
  - exact E.
Defined.

(** Two particles are queued for an engine with a single slot. *)
Lemma addParticles_drains_witness :
  let entry := (Sample.still, make_float4_3 Sample.unit_x F32.two) in
  let s := set_particlesToAdd (particle_queue [entry; entry]) (Sample.engine 1) in
  let s' := addParticles Sample.SOLID s in
  m_particlesToAdd s' = []
  /\ m_numParticles s' = 1
  /\ d_W (gpu s') = [F32.div F32.one F32.two].
Proof.
  intros entry s s'.
  destruct (addParticles_drains Sample.SOLID [entry; entry] s)
    as (Q & _ & N & _ & _ & _ & _ & W); [evaluate | reflexivity | evaluate |].
  split; [exact Q|]. split; [exact N|exact W].
Defined.

Lemma addFluids_drains_witness :
  let s := setFluidToAdd Sample.unit_x Sample.green F32.two F32.one
             (setFluidToAdd Sample.origin Sample.red F32.one F32.one (Sample.engine 1)) in
  let s' := addFluids Sample.FLUID s in
  m_fluidsToAdd s' = []
  /\ m_numParticles s' = 1
  /\ d_phase (gpu s') = [Sample.FLUID].
Proof.
  intros s s'.
  destruct (addFluids_drains Sample.FLUID
              [(make_float4_3 Sample.origin F32.one, make_float4_3 Sample.red F32.one);
               (make_float4_3 Sample.unit_x F32.two, make_float4_3 Sample.green F32.one)] s)
    as (Q & _ & N & _ & _ & _ & P & _); [evaluate | reflexivity | evaluate |].
  split; [exact Q|]. split; [exact N|exact P].
Defined.

Lemma queued_particles_round_trip_witness :
  let reqs := [{| rq_pos := Sample.origin; rq_vel := Sample.unit_x; rq_mass := F32.two |};
               {| rq_pos := Sample.unit_x; rq_vel := Sample.origin; rq_mass := F32.one |}] in
  let s := Sample.engine 10 in
  let s' := addParticles Sample.SOLID
              (queue_all Sample.numColors Sample.colors Sample.RAND_MAX Sample.rand_seq
                         reqs s) in
  m_numParticles s' = 2
  /\ d_W (gpu s') = [F32.div F32.one F32.two; F32.div F32.one F32.one]
  /\ m_colorIndex s' = [make_int2 0 1; make_int2 0 1].
Proof.
  intros reqs s s'.
  destruct (queued_particles_round_trip Sample.SOLID Sample.numColors Sample.colors
              Sample.RAND_MAX Sample.rand_seq reqs s sample_engine_sound)
    as (_ & N & _ & _ & _ & W & _ & _ & I); [reflexivity | evaluate |].
  split; [exact N|]. split; [exact W|exact I].
Defined.


Lemma cloth_defined_only_for_sheets_witness :
  exists cx cy,
    axis_count 0 3 F32.one = Some cx /\ axis_count 0 2 F32.one = Some cy
    /\ ((1 <= cx /\ 1 <= cy) \/ (cx = 0 /\ cy = 0)).
Proof.
  destruct (addHorizCloth Sample.RIGID Sample.numColors Sample.colors Sample.rand_seq
              (make_int2 0 0) (make_int2 3 2) (make_float3 F32.one F32.one F32.one)
              (make_float2 F32.one F32.one) F32.one true (Sample.engine 10))
    as [s'|] eqn:E; [|vm_compute in E; discriminate].
  exact (cloth_defined_only_for_sheets Sample.RIGID Sample.numColors Sample.colors
           Sample.rand_seq (make_int2 0 0) (make_int2 3 2)
           (make_float3 F32.one F32.one F32.one) (make_float2 F32.one F32.one)
           F32.one true (Sample.engine 10) s' E).
Defined.



Lemma sphere_pins_every_particle_witness :
  exists s' posV,
    addStaticSphere Sample.RIGID Sample.numColors Sample.colors Sample.rand_seq
                    (make_int3 0 0 0) (make_int3 4 4 4) F32.one (Sample.engine 100)
    = Some s'
    /\ d_point (gpu s') = sphere_pins 0 posV
    /\ length posV = length (d_point (gpu s')).
Proof.
  destruct (addStaticSphere Sample.RIGID Sample.numColors Sample.colors Sample.rand_seq
              (make_int3 0 0 0) (make_int3 4 4 4) F32.one (Sample.engine 100))
    as [s'|] eqn:E; [|vm_compute in E; discriminate].
  destruct (sphere_pins_every_particle Sample.RIGID Sample.numColors Sample.colors
              Sample.rand_seq (make_int3 0 0 0) (make_int3 4 4 4) F32.one
              (Sample.engine 100) s' E) as (posV & _ & P & _).
  exists s', posV. split; [reflexivity|]. split; [exact P|].
  rewrite P. change (length posV = length (sphere_pins 0 posV)).
  unfold sphere_pins. rewrite length_imap. reflexivity.
Defined.

Lemma setArray_writes_window_witness :
  exists s',
    setArray true [Sample.still] 3 1 (Sample.engine 10) = Some s'
    /\ posVbo (gpu s') !! 3%nat = Some Sample.still
    /\ posVbo (gpu s') !! 4%nat = Some zero4
    /\ host_view s' = host_view (Sample.engine 10).
Proof.
  destruct (setArray_writes_window [Sample.still] 3 1 (Sample.engine 10))
    as (s' & E & Host & _ & Fit & _);
    [reflexivity | lia | lia | unfold INT_MAX; lia | unfold INT_MAX; lia | reflexivity |].
  exists s'. split; [exact E|].
  assert (3 + 1 <= Z.of_nat (length (posVbo (gpu (Sample.engine 10))))) as In
    by (vm_compute; discriminate).
  split; [exact (Fit In 3%nat)|]. split; [exact (Fit In 4%nat)|exact Host].
Defined.

Lemma batch_admitted_in_order_witness :
  let s' := addParticleMultiple [Sample.still; zero4] [zero4; Sample.still]
              [F32.one; F32.two] [F32.one; F32.one] [Sample.SOLID; Sample.FLUID] 2
              (Sample.add_still (Sample.engine 10)) in
  m_numParticles s' = 3
  /\ posVbo (gpu s') !! 2%nat = Some zero4
  /\ d_W (gpu s') !! 2%nat = Some F32.two.
Proof.
  intros s'.
  destruct (batch_admitted_in_order [Sample.still; zero4] [zero4; Sample.still]
              [F32.one; F32.two] [F32.one; F32.one] [Sample.SOLID; Sample.FLUID] 2
              (Sample.add_still (Sample.engine 10)))
    as (N & Slots); [evaluate | cbn; unfold INT_MAX; lia | evaluate |].
  split; [exact N|].
  destruct (Slots 1%nat) as (B & _ & _ & _ & W); [cbn; lia|].
  split; [exact B|exact W].
Defined.

Lemma colour_groups_stay_paired_witness :
  exists states,
    Sample.run Sample.session (Sample.engine 2) = Some states
    /\ Forall palette_ok states.
Proof.
  destruct (Sample.run Sample.session (Sample.engine 2)) as [states|] eqn:E;
    [|vm_compute in E; discriminate].
  exists states. split; [reflexivity|].
  apply (colour_groups_stay_paired Sample.SOLID Sample.FLUID Sample.RIGID Sample.numColors
           Sample.colors Sample.RAND_MAX Sample.rand_seq Sample.kernel
           Sample.session (Sample.engine 2) states); [reflexivity|exact E].
Defined.

Lemma rope_hangs_from_start_witness :
  Sample.rope (-1) (Sample.engine 10) = None
  /\ exists s',
       Sample.rope 2 (Sample.engine 10) = Some s'
       /\ m_numParticles s' = 3
       /\ admitted_positions (Sample.engine 10) s'
          = rope_positions Sample.origin Sample.unit_x 2.
Proof.
  split.
  - apply (rope_hangs_from_start Sample.RIGID Sample.numColors Sample.colors
             Sample.rand_seq Sample.origin Sample.unit_x F32.one (-1) F32.one true
             (Sample.engine 10)). lia.
  - destruct (rope_hangs_from_start Sample.RIGID Sample.numColors Sample.colors
                Sample.rand_seq Sample.origin Sample.unit_x F32.one 2 F32.one true
                (Sample.engine 10)) as (_ & Room).
    destruct Room as (s' & E & N & Pos & _);
      [evaluate | unfold INT_MAX; lia | cbn; lia |].
    exists s'. split; [exact E|]. split; [exact N|exact Pos].
Defined.
